(** * Persona catalog of the speaking meeting bot (config/persona_utils.py)

    A shallow embedding of [PersonaManager]: the README parser, the catalog
    loader, the README writer and the lookup by name, together with the
    properties of the specification that concern them.  The other methods
    of the manager (saving and listing the catalog, the lookup by display
    name, the image of a persona) and the startup checks of
    config/validation.py on the personas directory and on the environment
    follow, with the properties that the code itself shows.

    A file of the personas directory is modelled by the text that reading
    it returns.  Python opens the READMEs in text mode, so that the text
    read holds no carriage return: [universal_newlines] below is the
    translation, and the theorems on a README that was just written read
    it back through it.

    Python strings are lists of characters.  A character is a code point
    below 256 (Rocq's [ascii]); the classification of white space and the
    lower-casing follow Python's [str] methods on that range. *)

From Stdlib Require Import Ascii String.
From Stdlib Require Import List Bool Arith Lia Sorted Permutation.
Import ListNotations.

Local Open Scope list_scope.

Definition str := list ascii.

(** A string literal of the source. *)
Definition lit (s : string) : str := list_ascii_of_string s.

Notation "` s" := (lit s%string) (at level 1, format "` s").

(** The line feed, written [\n] in the source. *)
Definition NL : ascii := "010"%char.

(** * The methods of Python's [str] used by the manager *)

Module PyStr.

Fixpoint eqb (a b : str) : bool :=
  match a, b with
  | [], [] => true
  | x :: a', y :: b' => Ascii.eqb x y && eqb a' b'
  | _, _ => false
  end.

(** [s.startswith(p)] *)
Fixpoint startswith (p s : str) : bool :=
  match p, s with
  | [], _ => true
  | x :: p', y :: s' => Ascii.eqb x y && startswith p' s'
  | _ :: _, [] => false
  end.

(** [s.partition(sep)] without the separator: the text before the first
    occurrence of [sep] and the text after it, [None] when [sep] does not
    occur. *)
Fixpoint partition (sep s : str) : option (str * str) :=
  if startswith sep s then Some ([], skipn (length sep) s)
  else match s with
       | [] => None
       | c :: s' =>
           match partition sep s' with
           | Some (a, b) => Some (c :: a, b)
           | None => None
           end
       end.

(** [sep in s] *)
Definition contains (sep s : str) : bool :=
  match partition sep s with Some _ => true | None => false end.

(** [s.split(sep, 1)]: at most one cut. *)
Definition split1 (sep s : str) : list str :=
  match partition sep s with
  | Some (a, b) => [a; b]
  | None => [s]
  end.

Fixpoint split_fuel (fuel : nat) (sep s : str) : list str :=
  match fuel with
  | O => [s]
  | S f =>
      match partition sep s with
      | Some (a, b) => a :: split_fuel f sep b
      | None => [s]
      end
  end.

(** [s.split(sep)] for a non-empty [sep]: every cut removes at least one
    character, so [length s] cuts are never exceeded. *)
Definition split (sep s : str) : list str := split_fuel (S (length s)) sep s.

(** [sep.join(parts)] *)
Fixpoint join (sep : str) (parts : list str) : str :=
  match parts with
  | [] => []
  | [p] => p
  | p :: rest => p ++ sep ++ join sep rest
  end.

(** [s.replace(old, new)] for a non-empty [old]: the pieces between the
    non-overlapping occurrences of [old], found left to right, glued
    with [new]. *)
Definition replace (old new s : str) : str := join new (split old s).

(** [c.isspace()] on the code points below 256: tab, line feed, vertical
    tab, form feed, carriage return, the four separators 28..31, space,
    next line (133) and no-break space (160). *)
Definition isspace (c : ascii) : bool :=
  let n := nat_of_ascii c in
  ((9 <=? n) && (n <=? 13)) || ((28 <=? n) && (n <=? 32))
  || (n =? 133) || (n =? 160).

Fixpoint lstrip (s : str) : str :=
  match s with
  | [] => []
  | c :: s' => if isspace c then lstrip s' else s
  end.

Definition rstrip (s : str) : str := rev (lstrip (rev s)).

(** [s.strip()] *)
Definition strip (s : str) : str := rstrip (lstrip s).

(** [s.split()]: the maximal runs of characters that are not white
    space; [cur] is the run being read, in reverse. *)
Fixpoint split_ws_go (cur : str) (s : str) : list str :=
  match s with
  | [] => match cur with [] => [] | _ => [rev cur] end
  | c :: s' =>
      if isspace c
      then match cur with
           | [] => split_ws_go [] s'
           | _ => rev cur :: split_ws_go [] s'
           end
      else split_ws_go (c :: cur) s'
  end.

Definition split_ws (s : str) : list str := split_ws_go [] s.

(** [c.lower()] on the code points below 256: the letters A..Z and the
    accented capitals 192..222 except the multiplication sign 215. *)
Definition lower_char (c : ascii) : ascii :=
  let n := nat_of_ascii c in
  if ((65 <=? n) && (n <=? 90))
     || ((192 <=? n) && (n <=? 222) && negb (n =? 215))
  then ascii_of_nat (n + 32) else c.

Definition lower (s : str) : str := map lower_char s.

(** Truth value of a string: [bool(s)]. *)
Definition truthy (s : str) : bool :=
  match s with [] => false | _ => true end.

(** [x in xs] for a list of strings. *)
Definition mem (x : str) (xs : list str) : bool := existsb (eqb x) xs.

(** [set(xs)]: the distinct elements, in order of first occurrence. *)
Fixpoint to_set (xs : list str) : list str :=
  match xs with
  | [] => []
  | x :: xs' => x :: filter (fun y => negb (eqb x y)) (to_set xs')
  end.

(** [len(a & b)] for two sets. *)
Definition inter_size (a b : list str) : nat :=
  length (filter (fun x => mem x b) a).

(** [a < b]: the order of the code points, a proper prefix first. *)
Fixpoint ltb (a b : str) : bool :=
  match a, b with
  | _, [] => false
  | [], _ :: _ => true
  | x :: a', y :: b' =>
      (nat_of_ascii x <? nat_of_ascii y) || (Ascii.eqb x y && ltb a' b')
  end.

(** A string put at its place in a sorted list, before the strings that
    are not smaller. *)
Fixpoint insort (x : str) (xs : list str) : list str :=
  match xs with
  | [] => [x]
  | y :: ys => if ltb y x then y :: insort x ys else x :: y :: ys
  end.

(** [sorted(xs)] for a list of strings. *)
Definition sorted (xs : list str) : list str := fold_right insort [] xs.

End PyStr.

(** [os.path.join(a, b)] on POSIX paths. *)
Definition path_join (a b : str) : str :=
  if PyStr.startswith `"/" b then b
  else match a with
       | [] => b
       | _ => if PyStr.startswith `"/" (rev a) then a ++ b
              else a ++ `"/" ++ b
       end.

(** * Exceptions *)

Inductive exn : Type :=
| IndexError
| KeyError (msg : str)
| OSError.

Inductive result (A : Type) : Type :=
| Ok (a : A)
| Raise (e : exn).

Arguments Ok {A} a.
Arguments Raise {A} e.

Definition bind {A B : Type} (r : result A) (k : A -> result B) : result B :=
  match r with
  | Ok a => k a
  | Raise e => Raise e
  end.

Notation "x <- r ;; k" := (bind r (fun x => k))
  (at level 61, r at next level, right associativity).

(** * Dictionaries *)

(** A [dict] with string keys that remembers the order of insertion. *)
Definition dict (A : Type) := list (str * A).

Fixpoint lookup {A : Type} (k : str) (d : dict A) : option A :=
  match d with
  | [] => None
  | (k', v) :: d' => if PyStr.eqb k k' then Some v else lookup k d'
  end.

(** [d[k] = v]: an existing key keeps its place, a new one goes last. *)
Fixpoint dict_set {A : Type} (k : str) (v : A) (d : dict A) : dict A :=
  match d with
  | [] => [(k, v)]
  | (k', v') :: d' =>
      if PyStr.eqb k k' then (k, v) :: d' else (k', v') :: dict_set k v d'
  end.

Definition keys {A : Type} (d : dict A) : list str := map fst d.
Definition values {A : Type} (d : dict A) : list A := map snd d.

(** [d.get(key, default)] on a field that may be missing. *)
Definition get {A : Type} (field : option A) (default : A) : A :=
  match field with
  | Some v => v
  | None => default
  end.

(** [d[key]] on a field that may be missing. *)
Definition getitem {A : Type} (key : str) (field : option A) : result A :=
  match field with
  | Some v => Ok v
  | None => Raise (KeyError key)
  end.

(** [random.choice(xs)], [rnd] being the draw of the generator. *)
Definition random_choice {A : Type} (rnd : nat) (xs : list A) : result A :=
  match nth_error xs (rnd mod length xs) with
  | Some x => Ok x
  | None => Raise IndexError
  end.

(** * Persona records *)

(** A persona [dict], restricted to the keys the manager reads or writes;
    a field is [None] when the key is missing. *)
Record Persona : Type := mkPersona {
  name : option str;
  prompt : option str;
  image : option str;
  entry_message : option str;
  cartesia_voice_id : option str;
  gender : option str;
  relevant_links : option (list str);
  additional_content : option str;
  path : option str
}.

(** The empty dict. *)
Definition no_keys : Persona :=
  mkPersona None None None None None None None None None.

(** The local [metadata] dict of [parse_readme] and [save_persona]: its
    five keys are always present. *)
Record Metadata : Type := mkMetadata {
  md_image : str;
  md_entry_message : str;
  md_cartesia_voice_id : str;
  md_gender : str;
  md_relevant_links : list str
}.

(** * parse_readme *)

Definition default_metadata : Metadata := mkMetadata [] [] [] [] [].

(** [metadata[key] = value] for a string value.  A key other than the five
    of the dict is stored by the source and never read again. *)
Definition metadata_set (key value : str) (md : Metadata) : Metadata :=
  if PyStr.eqb key `"image" then
    mkMetadata value (md_entry_message md) (md_cartesia_voice_id md)
      (md_gender md) (md_relevant_links md)
  else if PyStr.eqb key `"entry_message" then
    mkMetadata (md_image md) value (md_cartesia_voice_id md)
      (md_gender md) (md_relevant_links md)
  else if PyStr.eqb key `"cartesia_voice_id" then
    mkMetadata (md_image md) (md_entry_message md) value
      (md_gender md) (md_relevant_links md)
  else if PyStr.eqb key `"gender" then
    mkMetadata (md_image md) (md_entry_message md) (md_cartesia_voice_id md)
      value (md_relevant_links md)
  else md.

Definition metadata_set_links (urls : list str) (md : Metadata) : Metadata :=
  mkMetadata (md_image md) (md_entry_message md) (md_cartesia_voice_id md)
    (md_gender md) urls.

(** The body of the loop over the lines of the Metadata section. *)
Definition parse_metadata_line (md : Metadata) (line : str) : Metadata :=
  if PyStr.startswith `"- " line then
    match PyStr.split1 `": " (skipn 2 line) with
    | [key; value] =>
        if PyStr.eqb key `"relevant_links" then
          metadata_set_links
            (filter PyStr.truthy (PyStr.split_ws (PyStr.strip value))) md
        else metadata_set key (PyStr.strip value) md
    | _ => md
    end
  else md.

(** The loop over the sections stops at the first one that starts with
    [Metadata]. *)
Definition parse_metadata (sections : list str) : Metadata :=
  match find (PyStr.startswith `"Metadata") sections with
  | Some section =>
      fold_left parse_metadata_line (PyStr.split [NL] section) default_metadata
  | None => default_metadata
  end.

Definition section_sep : str := NL :: `"## ".

(** [sections[0]] of the document. *)
Definition preamble (content : str) : str :=
  hd [] (PyStr.split section_sep content).

(** The HTML that [self.md.convert] returns is not used; the record is
    read from the text itself. *)
Definition parse_readme (content : str) : result Persona :=
  let sections := PyStr.split section_sep content in
  let name :=
    PyStr.strip
      (PyStr.replace `"# " [] (hd [] (PyStr.split1 [NL] (hd [] sections)))) in
  match PyStr.split1 [NL; NL] (hd [] sections) with
  | _ :: after :: _ =>
      let prompt := PyStr.strip after in
      let metadata := parse_metadata sections in
      Ok (mkPersona (Some name) (Some prompt)
            (Some (md_image metadata))
            (Some (md_entry_message metadata))
            (Some (md_cartesia_voice_id metadata))
            (Some (md_gender metadata))
            (Some (md_relevant_links metadata))
            None None)
  | _ => Raise IndexError
  end.

(** * The personas directory *)

(** A file either yields its text or fails to be read.  The text is the
    one [f.read()] returns for the file opened with [open(path, "r")]. *)
Inductive file : Type :=
| Readable (content : str)
| Unreadable.

(** A persona directory: its README.md, when there is one, and what
    [glob("*.md")] yields, in the order it yields it. *)
Record persona_dir : Type := mkDir {
  readme : option file;
  md_files : list (str * file)
}.

Inductive node : Type :=
| File
| Dir (d : persona_dir).

(** The personas directory as [iterdir] lists it; [None] when it cannot be
    listed. *)
Definition FS := option (dict node).

Definition skip_files : list str := [ `"README.md"; `".DS_Store" ].

(** The blocks collected by [load_additional_content].  A file that cannot
    be read ends the loop: the exception is caught around the loop, and the
    blocks collected so far are kept. *)
Fixpoint additional_blocks (files : list (str * file)) : list str :=
  match files with
  | [] => []
  | (fname, f) :: rest =>
      if PyStr.mem fname skip_files then additional_blocks rest
      else match f with
           | Unreadable => []
           | Readable text =>
               let content := PyStr.strip text in
               if PyStr.truthy content
               then (`"# Content from " ++ fname ++ [NL; NL] ++ content)
                      :: additional_blocks rest
               else additional_blocks rest
           end
  end.

Definition load_additional_content (d : persona_dir) : str :=
  PyStr.join [NL; NL] (additional_blocks (md_files d)).

Definition set_additional_content (v : str) (p : Persona) : Persona :=
  mkPersona (name p) (prompt p) (image p) (entry_message p)
    (cartesia_voice_id p) (gender p) (relevant_links p) (Some v) (path p).

(** The record as it is stored: with the additional content when there is
    some. *)
Definition with_additional_content (d : persona_dir) (persona_data : Persona)
  : Persona :=
  let additional_content := load_additional_content d in
  if PyStr.truthy additional_content
  then set_additional_content additional_content persona_data
  else persona_data.

(** The body of the loop of [load_personas] for one entry of the
    directory: what is not a directory is passed over, and so is a
    directory without README.md. *)
Definition load_entry (personas : dict Persona) (entry : str * node)
  : result (dict Persona) :=
  match snd entry with
  | File => Ok personas
  | Dir d =>
      match readme d with
      | None => Ok personas
      | Some Unreadable => Raise OSError
      | Some (Readable content) =>
          persona_data <- parse_readme content ;;
          Ok (dict_set (fst entry) (with_additional_content d persona_data)
                personas)
      end
  end.

Fixpoint load_loop (entries : dict node) (personas : dict Persona)
  : result (dict Persona) :=
  match entries with
  | [] => Ok personas
  | entry :: rest =>
      personas' <- load_entry personas entry ;;
      load_loop rest personas'
  end.

(** Every exception of the loop is logged and raised again. *)
Definition load_personas (fs : FS) : result (dict Persona) :=
  match fs with
  | None => Raise OSError
  | Some entries => load_loop entries []
  end.

(** What the loop stores under the name of an entry. *)
Definition loaded (personas : dict Persona) (entry : str * node)
  : option Persona :=
  match snd entry with
  | File => lookup (fst entry) personas
  | Dir d =>
      match readme d with
      | Some (Readable content) =>
          match parse_readme content with
          | Ok r => Some (with_additional_content d r)
          | Raise _ => None
          end
      | _ => lookup (fst entry) personas
      end
  end.

(** * The manager *)

(** Dict objects live in a store and are named by their address: the
    catalog maps a key to the address of its record, [copy] allocates a new
    object, and an item assignment changes the object at one address. *)
Definition addr := nat.
Definition store := list Persona.

Definition deref (h : store) (a : addr) : Persona := nth a h no_keys.

(** [d.copy()]: a new object with the same items. *)
Definition copy (h : store) (a : addr) : addr * store :=
  (length h, h ++ [deref h a]).

Fixpoint store_set (a : addr) (v : Persona) (h : store) : store :=
  match h, a with
  | [], _ => []
  | _ :: h', O => v :: h'
  | x :: h', S a' => x :: store_set a' v h'
  end.

Definition set_image (v : str) (p : Persona) : Persona :=
  mkPersona (name p) (prompt p) (Some v) (entry_message p)
    (cartesia_voice_id p) (gender p) (relevant_links p)
    (additional_content p) (path p).

Definition set_prompt (v : str) (p : Persona) : Persona :=
  mkPersona (name p) (Some v) (image p) (entry_message p)
    (cartesia_voice_id p) (gender p) (relevant_links p)
    (additional_content p) (path p).

Definition set_path (v : str) (p : Persona) : Persona :=
  mkPersona (name p) (prompt p) (image p) (entry_message p)
    (cartesia_voice_id p) (gender p) (relevant_links p)
    (additional_content p) (Some v).

(** [obj[key] = v] through the store. *)
Definition setitem (f : Persona -> Persona) (a : addr) (h : store) : store :=
  store_set a (f (deref h a)) h.

Record PersonaManager : Type := mkManager {
  personas_dir : str;
  objects : store;
  personas : dict addr
}.

(** [__init__]: the records loaded become the objects of the store, in
    the order of the catalog. *)
Definition init (dir : str) (fs : FS) : result PersonaManager :=
  catalog <- load_personas fs ;;
  Ok (mkManager dir (values catalog)
        (combine (keys catalog) (seq 0 (length catalog)))).

(** The constants imported from [config.prompts], taken as parameters:
    the two lists of phrases of the README template, the entry message of a
    persona that has none, and the instructions appended to every prompt. *)
Class Prompts : Type := mkPrompts {
  DEFAULT_CHARACTERISTICS : list str;
  DEFAULT_ENTRY_MESSAGE : str;
  DEFAULT_VOICE_CHARACTERISTICS : list str;
  PERSONA_INTERACTION_INSTRUCTIONS : str
}.

Section Manager.

Context {prompts : Prompts}.

(** ** save_persona *)

(** The [existing_metadata] dict: empty without a README, the five
    metadata keys of the parsed README otherwise. *)
Definition existing_metadata_of (existing_persona : Persona) : Persona :=
  mkPersona None None
    (Some (get (image existing_persona) []))
    (Some (get (entry_message existing_persona) DEFAULT_ENTRY_MESSAGE))
    (Some (get (cartesia_voice_id existing_persona) []))
    (Some (get (gender existing_persona) []))
    (Some (get (relevant_links existing_persona) []))
    None None.

(** The merge, the new data first; [choice] is the value of
    [random.choice(["MALE", "FEMALE"])], drawn on every call. *)
Definition merge_metadata (persona existing_metadata : Persona)
    (choice : str) : Metadata :=
  mkMetadata
    (get (image persona) (get (image existing_metadata) []))
    (get (entry_message persona)
       (get (entry_message existing_metadata) DEFAULT_ENTRY_MESSAGE))
    (get (cartesia_voice_id persona)
       (get (cartesia_voice_id existing_metadata) []))
    (get (gender persona) (get (gender existing_metadata) choice))
    (get (relevant_links persona)
       (get (relevant_links existing_metadata) [])).

Definition bullet_list (items : list str) : str :=
  PyStr.join [NL] (map (fun char => `"- " ++ char) items).

(** The README template. *)
Definition readme_content (persona_name persona_prompt : str)
    (metadata : Metadata) : str :=
  `"# " ++ persona_name ++ [NL; NL]
  ++ persona_prompt ++ [NL; NL]
  ++ `"## Characteristics" ++ [NL]
  ++ bullet_list DEFAULT_CHARACTERISTICS ++ [NL; NL]
  ++ `"## Voice" ++ [NL]
  ++ persona_name ++ `" speaks with:" ++ [NL]
  ++ bullet_list DEFAULT_VOICE_CHARACTERISTICS ++ [NL; NL]
  ++ `"## Metadata" ++ [NL]
  ++ `"- image: " ++ md_image metadata ++ [NL]
  ++ `"- entry_message: " ++ md_entry_message metadata ++ [NL]
  ++ `"- cartesia_voice_id: " ++ md_cartesia_voice_id metadata ++ [NL]
  ++ `"- gender: " ++ md_gender metadata ++ [NL]
  ++ `"- relevant_links: "
  ++ PyStr.join `" " (md_relevant_links metadata) ++ [NL].

(** The parts of the template between its section headings. *)
Definition preamble_text (n pr : str) : str :=
  `"# " ++ n ++ [NL; NL] ++ pr ++ [NL].

Definition characteristics_section : str :=
  `"Characteristics" ++ [NL] ++ bullet_list DEFAULT_CHARACTERISTICS ++ [NL].

Definition voice_section (n : str) : str :=
  `"Voice" ++ [NL] ++ n ++ `" speaks with:" ++ [NL]
  ++ bullet_list DEFAULT_VOICE_CHARACTERISTICS ++ [NL].

Definition metadata_section (md : Metadata) : str :=
  `"Metadata" ++ [NL]
  ++ `"- image: " ++ md_image md ++ [NL]
  ++ `"- entry_message: " ++ md_entry_message md ++ [NL]
  ++ `"- cartesia_voice_id: " ++ md_cartesia_voice_id md ++ [NL]
  ++ `"- gender: " ++ md_gender md ++ [NL]
  ++ `"- relevant_links: " ++ PyStr.join `" " (md_relevant_links md) ++ [NL].

(** What the [try] block computes once the directory exists: the text
    to write, from the README found there and the record to save. *)
Definition render_persona (existing : option file) (persona : Persona)
    (rnd : nat) : result str :=
  existing_metadata <-
    match existing with
    | None => Ok no_keys
    | Some Unreadable => Raise OSError
    | Some (Readable text) =>
        existing_persona <- parse_readme text ;;
        Ok (existing_metadata_of existing_persona)
    end ;;
  choice <- random_choice rnd [ `"MALE"; `"FEMALE" ] ;;
  let metadata := merge_metadata persona existing_metadata choice in
  persona_name <- getitem `"name" (name persona) ;;
  persona_prompt <- getitem `"prompt" (prompt persona) ;;
  Ok (readme_content persona_name persona_prompt metadata).

(** [save_persona]: the result and the directory afterwards.  [mkdir]
    fails when the personas directory is missing or the key names a file;
    writing the README of an existing directory succeeds.

    The key is looked up as the name of one entry of the personas
    directory, which is what [personas_dir / key] is for the keys of
    [entry_name] below, the keys of a catalog that was loaded among
    them.  The README is recorded with the text that was written, on a
    POSIX system where writing translates nothing; a later read returns
    [universal_newlines] of it, which is the text itself when it holds no
    carriage return. *)
Definition save_persona (fs : FS) (key : str) (persona : Persona)
    (rnd : nat) : bool * FS :=
  match fs with
  | None => (false, fs)
  | Some entries =>
      match lookup key entries with
      | Some File => (false, fs)
      | found =>
          let d := match found with
                   | Some (Dir d) => d
                   | _ => mkDir None []
                   end in
          match render_persona (readme d) persona rnd with
          | Ok text =>
              (true,
               Some (dict_set key
                       (Dir (mkDir (Some (Readable text))
                               (dict_set `"README.md" (Readable text)
                                  (md_files d))))
                       entries))
          | Raise _ => (false, Some (dict_set key (Dir d) entries))
          end
      end
  end.

(** The text of the README of a key, when it exists and can be read. *)
Definition readme_of (fs : FS) (key : str) : option str :=
  match fs with
  | Some entries =>
      match lookup key entries with
      | Some (Dir d) =>
          match readme d with
          | Some (Readable text) => Some text
          | _ => None
          end
      | _ => None
      end
  | None => None
  end.

(** ** get_persona *)

(** [name.lower().replace(" ", "_")] *)
Definition folder_name_of (s : str) : str :=
  PyStr.replace `" " `"_" (PyStr.lower s).

(** [len(words & set(persona_key.split("_")))] *)
Definition overlap_of (words : list str) (persona_key : str) : nat :=
  PyStr.inter_size words (PyStr.to_set (PyStr.split `"_" persona_key)).

(** The body of the loop over the keys; the state is
    [(closest_match, max_overlap)]. *)
Definition closest_step (words : list str) (best : option str * nat)
    (persona_key : str) : option str * nat :=
  let overlap := overlap_of words persona_key in
  if snd best <? overlap then (Some persona_key, overlap) else best.

Definition closest (words : list str) (ks : list str) : option str * nat :=
  fold_left (closest_step words) ks (None, 0).

Definition query_words (s : str) : list str :=
  PyStr.to_set (PyStr.split_ws (PyStr.lower s)).

Definition not_found_message (s : str) (ks : list str) : str :=
  `"Persona '" ++ s ++ `"' not found. Valid options: "
  ++ PyStr.join `", " ks.

(** The truth value of the optional argument: [None] and the empty string
    are false. *)
Definition given (query : option str) : option str :=
  match query with
  | Some s => if PyStr.truthy s then Some s else None
  | None => None
  end.

(** The stored object that is copied: the one under the folder name, else
    the closest match, else a random one ([rnd] is the draw). *)
Definition select_persona (m : PersonaManager) (query : option str)
    (rnd : nat) : result addr :=
  match given query with
  | Some s =>
      let folder_name := folder_name_of s in
      match lookup folder_name (personas m) with
      | Some a => Ok a
      | None =>
          match closest (query_words s) (keys (personas m)) with
          | (Some closest_match, max_overlap) =>
              if PyStr.truthy closest_match && (1 <=? max_overlap)
              then getitem closest_match
                     (lookup closest_match (personas m))
              else Raise (KeyError
                            (not_found_message s (keys (personas m))))
          | (None, _) =>
              Raise (KeyError (not_found_message s (keys (personas m))))
          end
      end
  | None =>
      a <- random_choice rnd (values (personas m)) ;;
      (* the log line reads persona['name'] *)
      _ <- getitem `"name" (name (deref (objects m) a)) ;;
      Ok a
  end.

(** [get_persona]: the address of the returned dict and the manager
    afterwards. *)
Definition get_persona (m : PersonaManager) (query : option str)
    (rnd : nat) : result (addr * PersonaManager) :=
  stored <- select_persona m query rnd ;;
  let (persona, h) := copy (objects m) stored in
  let h :=
    if negb (PyStr.truthy (get (image (deref h persona)) []))
    then setitem (set_image []) persona h else h in
  old_prompt <- getitem `"prompt" (prompt (deref h persona)) ;;
  let h :=
    setitem (set_prompt (old_prompt ++ PERSONA_INTERACTION_INSTRUCTIONS))
      persona h in
  persona_key <-
    match given query with
    | Some s => Ok (folder_name_of s)
    | None =>
        persona_name <- getitem `"name" (name (deref h persona)) ;;
        Ok (folder_name_of persona_name)
    end ;;
  let h := setitem (set_path (path_join (personas_dir m) persona_key))
             persona h in
  Ok (persona, mkManager (personas_dir m) h (personas m)).

(** The dict handed out for a stored record [r] whose prompt is [p]: the
    copy with the instructions after the prompt, an image that is a string,
    and the path. *)
Definition delivered (r : Persona) (p pth : str) : Persona :=
  mkPersona (name r) (Some (p ++ PERSONA_INTERACTION_INSTRUCTIONS))
    (Some (get (image r) [])) (entry_message r) (cartesia_voice_id r)
    (gender r) (relevant_links r) (additional_content r) (Some pth).

(** ** needs_image_upload *)

Definition needs_image_upload (m : PersonaManager) (key domain : str)
  : bool :=
  match lookup key (personas m) with
  | None => false
  | Some a =>
      let current_url := get (image (deref (objects m) a)) [] in
      negb (PyStr.truthy current_url && PyStr.contains domain current_url)
  end.

(** ** save_personas *)

(** The loop over [self.personas.items()]; [rnd 0] is the draw of the
    first call of [save_persona], [rnd 1] that of the second, and so on. *)
Fixpoint save_loop (h : store) (items : dict addr) (rnd : nat -> nat)
    (fs : FS) (success : bool) : bool * FS :=
  match items with
  | [] => (success, fs)
  | (key, persona) :: rest =>
      let (saved, fs') := save_persona fs key (deref h persona) (rnd 0) in
      save_loop h rest (fun i => rnd (S i)) fs'
        (if saved then success else false)
  end.

Definition save_personas (m : PersonaManager) (rnd : nat -> nat) (fs : FS)
  : bool * FS :=
  save_loop (objects m) (personas m) rnd fs true.

(** ** list_personas *)

Definition list_personas (m : PersonaManager) : list str :=
  PyStr.sorted (keys (personas m)).

(** ** get_persona_by_name *)

(** The loop over [self.personas.values()]: the first object whose name
    is [n]. *)
Fixpoint find_by_name (h : store) (objs : list addr) (n : str)
  : result (option addr) :=
  match objs with
  | [] => Ok None
  | persona :: rest =>
      persona_name <- getitem `"name" (name (deref h persona)) ;;
      if PyStr.eqb persona_name n then Ok (Some persona)
      else find_by_name h rest n
  end.

(** [p['name'] for p in self.personas.values()] *)
Fixpoint display_names (h : store) (objs : list addr) : result (list str) :=
  match objs with
  | [] => Ok []
  | p :: rest =>
      p_name <- getitem `"name" (name (deref h p)) ;;
      names <- display_names h rest ;;
      Ok (p_name :: names)
  end.

Definition get_persona_by_name (m : PersonaManager) (n : str)
  : result (addr * PersonaManager) :=
  found <- find_by_name (objects m) (values (personas m)) n ;;
  match found with
  | Some stored =>
      let (persona, h) := copy (objects m) stored in
      Ok (persona, mkManager (personas_dir m) h (personas m))
  | None =>
      names <- display_names (objects m) (values (personas m)) ;;
      Raise (KeyError (not_found_message n names))
  end.

(** ** update_persona_image *)

(** [image_path] is a string, so that [str(image_path)] is the string
    itself.  The stored object is changed first, then saved. *)
Definition update_persona_image (m : PersonaManager) (fs : FS)
    (key image_path : str) (rnd : nat) : bool * PersonaManager * FS :=
  match lookup key (personas m) with
  | Some a =>
      let h := setitem (set_image image_path) a (objects m) in
      let (saved, fs') := save_persona fs key (deref h a) rnd in
      (saved, mkManager (personas_dir m) h (personas m), fs')
  | None => (false, m, fs)
  end.

(** ** get_image_urls *)

Definition get_image_urls (m : PersonaManager) : dict str :=
  map (fun item => (fst item, get (image (deref (objects m) (snd item))) []))
    (personas m).

(** ** What the saves leave behind *)

(** The metadata of a record that has the five keys. *)
Definition metadata_of (r : Persona) : Metadata :=
  mkMetadata (get (image r) []) (get (entry_message r) [])
    (get (cartesia_voice_id r) []) (get (gender r) [])
    (get (relevant_links r) []).

(** A persona directory after the record parsed from its README has been
    saved under its key: the README is the template filled with the
    record. *)
Definition resaved_dir (d : persona_dir) : persona_dir :=
  match readme d with
  | Some (Readable content) =>
      match parse_readme content with
      | Ok r =>
          let text :=
            readme_content (get (name r) []) (get (prompt r) [])
              (metadata_of r) in
          mkDir (Some (Readable text))
            (dict_set `"README.md" (Readable text) (md_files d))
      | Raise _ => d
      end
  | _ => d
  end.

Definition resaved (nd : node) : node :=
  match nd with
  | File => File
  | Dir d => Dir (resaved_dir d)
  end.

(** The directory once the keys of [done] have been saved again. *)
Definition resaved_entries (done : list str) (entries : dict node)
  : dict node :=
  map (fun e => if PyStr.mem (fst e) done then (fst e, resaved (snd e))
                else e)
    entries.

(** The [existing_metadata] that [save_persona] starts from: empty, or
    read from a README that parses. *)
Definition settled (em : Persona) : Prop :=
  em = no_keys
  \/ exists text e, parse_readme text = Ok e /\ em = existing_metadata_of e.

End Manager.

(** * Startup validation (config/validation.py) *)

(** [item.is_dir() and (item / "README.md").exists()] *)
Definition has_readme (item : str * node) : bool :=
  match snd item with
  | Dir d => match readme d with Some _ => true | None => false end
  | File => false
  end.

(** [validate_personas]: [dir_exists] is [personas_dir.exists()]; a
    directory that exists may still fail to be listed. *)
Definition validate_personas (dir_exists : bool) (fs : FS)
  : result (bool * nat * list str) :=
  if negb dir_exists then Ok (false, 0, [])
  else match fs with
       | None => Raise OSError
       | Some entries =>
           let persona_names := map fst (filter has_readme entries) in
           Ok (0 <? length persona_names, length persona_names,
               persona_names)
       end.

(** [os.getenv]: the value of a variable, when it is set. *)
Definition environ := str -> option str.

Definition required_vars : list (str * str) :=
  [ (`"MEETING_BAAS_API_KEY",
     `"MeetingBaas API - required for bot creation");
    (`"OPENAI_API_KEY", `"OpenAI API - required for LLM interactions");
    (`"CARTESIA_API_KEY", `"Cartesia API - required for text-to-speech") ].

(** [not value or value.startswith("your_")] *)
Definition missing (value : option str) : bool :=
  match value with
  | Some v => negb (PyStr.truthy v) || PyStr.startswith `"your_" v
  | None => true
  end.

(** The truth value of [key and not key.startswith("your_")]. *)
Definition key_valid (key : option str) : bool :=
  match key with
  | Some v => PyStr.truthy v && negb (PyStr.startswith `"your_" v)
  | None => false
  end.

Definition validate_env_vars (getenv : environ) : list str :=
  let errors :=
    flat_map
      (fun var =>
         let var_name := fst var in
         let description := snd var in
         if missing (getenv var_name)
         then [ `"Missing " ++ var_name ++ `": " ++ description ]
         else [])
      required_vars in
  let deepgram_valid := key_valid (getenv `"DEEPGRAM_API_KEY") in
  let gladia_valid := key_valid (getenv `"GLADIA_API_KEY") in
  if negb deepgram_valid && negb gladia_valid
  then errors
       ++ [ `"Missing STT provider: Set DEEPGRAM_API_KEY or GLADIA_API_KEY" ]
  else errors.

(** * Shapes of texts *)

(** A text of one line. *)
Definition single_line (s : str) : bool := negb (existsb (Ascii.eqb NL) s).

(** A prompt that can stand under the title: it does not open a section
    at once, and no line of it opens a section whose heading starts with
    Metadata. *)
Definition plain_prompt (s : str) : bool :=
  negb (PyStr.startswith `"## " s)
  && negb (PyStr.contains (section_sep ++ `"Metadata") s).

(** White space only. *)
Definition all_space (w : str) : Prop := forallb PyStr.isspace w = true.

(** No white space at all. *)
Definition no_space (t : str) : Prop :=
  forallb (fun c => negb (PyStr.isspace c)) t = true.

(** What [split()] yields: a word that is not empty and has no white
    space. *)
Definition token (t : str) : Prop := t <> [] /\ no_space t.

(** A metadata value as the parser stores it: one line, stripped. *)
Definition clean (v : str) : Prop :=
  single_line v = true /\ PyStr.strip v = v.

Definition clean_metadata (md : Metadata) : Prop :=
  clean (md_image md) /\ clean (md_entry_message md)
  /\ clean (md_cartesia_voice_id md) /\ clean (md_gender md)
  /\ Forall token (md_relevant_links md).

(** * Texts in files *)

(** The carriage return, written [\r] in the source. *)
Definition CR : ascii := "013"%char.

(** A text without carriage return. *)
Definition no_cr (s : str) : bool := negb (existsb (Ascii.eqb CR) s).

(** A text of one line, also once it has been through a file: neither
    line feed nor carriage return. *)
Definition plain_line (s : str) : bool := single_line s && no_cr s.

(** What [f.read()] returns for a file opened with [open(path, "r")] that
    holds the text [s]: universal newlines turn [\r\n] and [\r] into
    [\n].  On a POSIX system [f.write] stores a text as it is, so that
    this is also how a text that was written is read back. *)
Fixpoint universal_newlines (s : str) : str :=
  match s with
  | [] => []
  | c :: rest =>
      if Ascii.eqb c CR
      then match rest with
           | c' :: rest' =>
               if Ascii.eqb c' NL then NL :: universal_newlines rest'
               else NL :: universal_newlines rest
           | [] => [NL]
           end
      else c :: universal_newlines rest
  end.

(** The prompt of a README as it is read back: the template writes a line
    feed after it. *)
Definition prompt_as_read (pr : str) : str :=
  removelast (universal_newlines (pr ++ [NL])).

(** The bytes of a string in UTF-8: one for a code point below 128, two
    for the others below 256. *)
Definition utf8_length (s : str) : nat :=
  list_sum (map (fun c => if nat_of_ascii c <? 128 then 1 else 2) s).

(** A key that names an entry of the personas directory: one path
    component, of at most 255 bytes.  For any other key the path
    [personas_dir / key] is the personas directory itself, a path that is
    not one of its entries, or no path at all. *)
Definition entry_name (key : str) : bool :=
  PyStr.truthy key
  && negb (PyStr.eqb key `".") && negb (PyStr.eqb key `"..")
  && negb (existsb (Ascii.eqb "/"%char) key)
  && negb (existsb (Ascii.eqb zero) key)
  && (utf8_length key <=? 255).

(** Metadata values without carriage return. *)
Definition no_cr_metadata (md : Metadata) : bool :=
  no_cr (md_image md) && no_cr (md_entry_message md)
  && no_cr (md_cartesia_voice_id md) && no_cr (md_gender md)
  && forallb no_cr (md_relevant_links md).

(** * Sample data

    Concrete directories, records and constants, on which the functions
    above are run in the examples that close the development. *)

(** A text given line by line. *)
Definition text (lines : list str) : str := PyStr.join [NL] lines.

Definition sample_prompts : Prompts :=
  mkPrompts
    [ `"Curious and attentive"; `"Brief in every answer" ]
    `"Hello, glad to join."
    [ `"a calm pace"; `"a warm tone" ]
    (NL :: NL :: `"Stay in character and keep every answer short.").

Definition tech_guru_readme : str :=
  text [ `"# Tech Guru";
         [];
         `"You explain technology in plain words.";
         [];
         `"## Metadata";
         `"- image: https://utfs.io/f/guru.png";
         `"- entry_message: Hi, ask me anything.";
         `"- cartesia_voice_id: voice-17";
         `"- gender: MALE";
         `"- relevant_links: https://a.example https://b.example";
         [] ].

Definition tech_guru : Persona :=
  mkPersona (Some `"Tech Guru")
    (Some `"You explain technology in plain words.")
    (Some `"https://utfs.io/f/guru.png")
    (Some `"Hi, ask me anything.")
    (Some `"voice-17")
    (Some `"MALE")
    (Some [ `"https://a.example"; `"https://b.example" ])
    None None.

Definition friendly_coach : Persona :=
  mkPersona (Some `"Friendly Coach") (Some `"You cheer people up.")
    (Some []) (Some []) (Some []) (Some `"FEMALE") (Some []) None None.

(** A README whose title is followed by no blank line. *)
Definition title_only_readme : str :=
  text [ `"# Silent Bob"; `"He says nothing at all." ].

(** A README whose title is followed by the Metadata section at once. *)
Definition no_prompt_readme : str :=
  text [ `"# Tech Guru"; []; []; `"## Metadata"; `"- gender: MALE"; [] ].

(** A README that starts with a blank line. *)
Definition no_title_readme : str :=
  text [ []; []; `"You explain technology in plain words."; [] ].

(** A README whose prompt starts with an indented heading. *)
Definition indented_heading_readme : str :=
  text [ `"# Tech Guru";
         [];
         `" ## Role";
         `"You explain technology in plain words.";
         [];
         `"## Metadata";
         `"- image: ";
         `"- entry_message: ";
         `"- cartesia_voice_id: ";
         `"- gender: ";
         `"- relevant_links: ";
         [] ].

Definition sample_dir (readme_text : str) : node :=
  Dir (mkDir (Some (Readable readme_text))
         [ (`"README.md", Readable readme_text) ]).

(** Two personas, one of them with a README that has no blank line. *)
Definition fs_with_title_only : dict node :=
  [ (`"silent_bob", sample_dir title_only_readme);
    (`"tech_guru", sample_dir tech_guru_readme) ].

(** Two personas with an empty field each. *)
Definition fs_with_empty_fields : dict node :=
  [ (`"no_prompt", sample_dir no_prompt_readme);
    (`"no_title", sample_dir no_title_readme) ].

Definition fs_tech_guru : dict node :=
  [ (`"tech_guru", sample_dir tech_guru_readme) ].

(** A record that changes the image only. *)
Definition new_image : Persona :=
  mkPersona (Some `"Tech Guru")
    (Some `"You explain technology in plain words.")
    (Some `"https://utfs.io/f/new.png")
    None None None None None None.

(** A record whose prompt starts with a heading. *)
Definition prompt_with_heading : Persona :=
  mkPersona (Some `"Tech Guru")
    (Some (text [ `"## Role"; `"You explain technology in plain words." ]))
    (Some `"https://utfs.io/f/new.png")
    None None None None None None.

(** A record whose prompt holds a Metadata heading of its own. *)
Definition prompt_with_metadata_heading : Persona :=
  mkPersona (Some `"Tech Guru")
    (Some (text [ `"You explain technology in plain words.";
                  `"## Metadata";
                  `"- gender: FEMALE" ]))
    (Some `"https://utfs.io/f/new.png")
    None None None None None None.

(** A new record without gender. *)
Definition newcomer : Persona :=
  mkPersona (Some `"New Comer") (Some `"You are new here.")
    None None None None None None None.

Definition newcomer_with_heading : Persona :=
  mkPersona (Some `"New Comer")
    (Some (text [ `"## Role"; `"You are new here." ]))
    None None None None None None None.

Definition newcomer_with_metadata_heading : Persona :=
  mkPersona (Some `"New Comer")
    (Some (text [ `"You are new here."; `"## Metadata" ]))
    None None None None None None None.

(** A manager with two personas. *)
Definition sample_manager : PersonaManager :=
  mkManager `"config/personas" [tech_guru; friendly_coach]
    [ (`"tech_guru", 0); (`"friendly_coach", 1) ].

(** A manager whose only key is not the folder name of its record's
    display name. *)
Definition renamed_manager : PersonaManager :=
  mkManager `"config/personas" [tech_guru] [ (`"guru", 0) ].

(** The README of friendly_coach. *)
Definition friendly_coach_readme : str :=
  text [ `"# Friendly Coach";
         [];
         `"You cheer people up.";
         [];
         `"## Metadata";
         `"- gender: FEMALE";
         [] ].

(** A personas directory with two personas and a stray file. *)
Definition fs_two_personas : dict node :=
  [ (`"tech_guru", sample_dir tech_guru_readme);
    (`"notes.txt", File);
    (`"friendly_coach", sample_dir friendly_coach_readme) ].

(** A persona directory with further markdown files, one of which cannot
    be read. *)
Definition dir_with_notes : persona_dir :=
  mkDir (Some (Readable tech_guru_readme))
    [ (`"README.md", Readable tech_guru_readme);
      (`"habits.md", Readable (text [ `"Drinks tea."; [] ]));
      (`"broken.md", Unreadable);
      (`"later.md", Readable `"Never read.") ].

Definition fs_with_notes : dict node :=
  [ (`"tech_guru", Dir dir_with_notes) ].

(** A record with every key, and a prompt that starts with a heading. *)
Definition heading_record : Persona :=
  mkPersona (Some `"Tech Guru")
    (Some (text [ `"## Role"; `"You explain technology in plain words." ]))
    (Some []) (Some []) (Some []) (Some `"MALE") (Some []) None None.

(** A manager whose first key is written with capital letters. *)
Definition capital_manager : PersonaManager :=
  mkManager `"config/personas" [tech_guru; friendly_coach]
    [ (`"Tech_Guru", 0); (`"friendly_coach", 1) ].

(** A manager without personas. *)
Definition empty_manager : PersonaManager :=
  mkManager `"config/personas" [] [].

(** An environment with every key set, one of them to a placeholder. *)
Definition sample_environ : environ :=
  fun var =>
    if PyStr.eqb var `"OPENAI_API_KEY" then Some `"your_openai_key"
    else if PyStr.eqb var `"GLADIA_API_KEY" then None
    else Some `"sk-live".

(** A record without name. *)
Definition nameless : Persona :=
  mkPersona None (Some `"You have no name.") None None None None None
    None None.

(** A record whose prompt holds a heading of its own, with white space
    around its image and a link of two words. *)
Definition styled_record : Persona :=
  mkPersona (Some `"Tech Guru")
    (Some (text [ `"You explain technology."; []; `"## Style";
                  `"Be brief." ]))
    (Some `" https://utfs.io/f/guru.png ")
    None None (Some `"MALE")
    (Some [ `"https://a.example https://b.example"; `"https://c.example" ])
    None None.

(** A record that changes the image only, with a prompt typed with the line
    ends of Windows and of the old Macintosh. *)
Definition dos_record : Persona :=
  mkPersona (Some `"Tech Guru")
    (Some (`"You explain technology." ++ [CR; NL] ++ `"In plain words."
           ++ [CR] ++ `"Briefly."))
    (Some `"https://utfs.io/f/new.png")
    None None None None None None.

(** A record whose prompt holds a Metadata heading of its own after a
    carriage return. *)
Definition prompt_with_carriage_return : Persona :=
  mkPersona (Some `"Tech Guru")
    (Some (`"You explain technology in plain words." ++ [CR]
           ++ `"## Metadata" ++ [CR] ++ `"- gender: FEMALE"))
    (Some `"https://utfs.io/f/new.png")
    None None None None None None.

Definition newcomer_with_carriage_return : Persona :=
  mkPersona (Some `"New Comer")
    (Some (`"You are new here." ++ [CR] ++ `"## Metadata"))
    None None None None None None None.

(** A record whose name is written as a heading. *)
Definition heading_name : Persona :=
  mkPersona (Some `"## Tech Guru")
    (Some `"You explain technology in plain words.")
    (Some `"https://utfs.io/f/new.png")
    None None None None None None.

(** * Facts about the string methods *)

Module PyStrFacts.
Import PyStr.

Lemma eqb_refl (a : str) : eqb a a = true.
Proof.
  induction a as [|x a IH]; simpl; [reflexivity|].
  now rewrite Ascii.eqb_refl, IH.
Qed.

Lemma eqb_eq (a b : str) : eqb a b = true <-> a = b.
Proof.
  split; [|intros ->; apply eqb_refl].
  revert b; induction a as [|x a IH]; intros [|y b]; simpl; try discriminate;
    [reflexivity|].
  intros H; apply andb_true_iff in H as [Hxy Hab].
  apply Ascii.eqb_eq in Hxy; subst y.
  now rewrite (IH b Hab).
Qed.

Lemma eqb_neq (a b : str) : eqb a b = false <-> a <> b.
Proof.
  split.
  - intros H E; apply eqb_eq in E; congruence.
  - intros H; destruct (eqb a b) eqn:E; [|reflexivity].
    apply eqb_eq in E; contradiction.
Qed.

Lemma mem_In (x : str) (xs : list str) : mem x xs = true <-> In x xs.
Proof.
  unfold mem; rewrite existsb_exists; split.
  - intros (y & Hy & E); apply eqb_eq in E; now subst.
  - intros H; exists x; split; [assumption|apply eqb_refl].
Qed.

(** ** Prefixes *)

Lemma startswith_app (p s : str) : startswith p (p ++ s) = true.
Proof.
  induction p as [|x p IH]; simpl; [reflexivity|].
  now rewrite Ascii.eqb_refl, IH.
Qed.

Lemma startswith_spec (p s : str) :
  startswith p s = true <-> exists t, s = p ++ t.
Proof.
  split.
  - revert s; induction p as [|x p IH]; intros s H.
    + now exists s.
    + destruct s as [|y s]; simpl in H; [discriminate|].
      apply andb_true_iff in H as [Hxy Hp].
      apply Ascii.eqb_eq in Hxy; subst y.
      destruct (IH s Hp) as [t ->]; now exists t.
  - intros [t ->]; apply startswith_app.
Qed.

Lemma startswith_skipn (p s : str) :
  startswith p s = true -> s = p ++ skipn (length p) s.
Proof.
  intros H; apply startswith_spec in H as [t ->].
  now rewrite skipn_app, skipn_all, Nat.sub_diag.
Qed.

(** A prefix that holds on a part holds on the whole. *)
Lemma startswith_weaken (p s t : str) :
  startswith p s = true -> startswith p (s ++ t) = true.
Proof.
  intros H; apply startswith_spec in H as [u ->].
  rewrite <- app_assoc; apply startswith_app.
Qed.

(** A prefix without the character [c] cannot end after a [c]. *)
Lemma startswith_stop (c : ascii) (p s t : str) :
  ~ In c p -> startswith p (s ++ c :: t) = true -> startswith p s = true.
Proof.
  revert s; induction p as [|x p IH]; intros s Hc H; [reflexivity|].
  destruct s as [|y s]; simpl in H |- *.
  - apply andb_true_iff in H as [Hxy _].
    apply Ascii.eqb_eq in Hxy; subst x.
    exfalso; apply Hc; now left.
  - apply andb_true_iff in H as [Hxy Hp]; rewrite Hxy; simpl.
    apply IH; [|assumption].
    intros Hin; apply Hc; now right.
Qed.

Lemma startswith_stop_false (c : ascii) (p s t : str) :
  ~ In c p -> startswith p s = false -> startswith p (s ++ c :: t) = false.
Proof.
  intros Hc H; destruct (startswith p (s ++ c :: t)) eqn:E; [|reflexivity].
  apply startswith_stop in E; [congruence|assumption].
Qed.

(** ** The first occurrence of a separator *)

Lemma partition_nil (sep : str) :
  partition sep [] = if startswith sep [] then Some ([], []) else None.
Proof. simpl; now rewrite skipn_nil. Qed.

Lemma partition_cons (sep : str) (c : ascii) (s : str) :
  partition sep (c :: s) =
    if startswith sep (c :: s)
    then Some ([], skipn (length sep) (c :: s))
    else match partition sep s with
         | Some (a, b) => Some (c :: a, b)
         | None => None
         end.
Proof. reflexivity. Qed.

Lemma partition_sound (sep s a b : str) :
  partition sep s = Some (a, b) -> s = a ++ sep ++ b.
Proof.
  revert a b; induction s as [|c s IH]; intros a b.
  - rewrite partition_nil.
    destruct (startswith sep []) eqn:E; [|discriminate].
    intros H; injection H as <- <-.
    destruct sep; [reflexivity|discriminate].
  - rewrite partition_cons.
    destruct (startswith sep (c :: s)) eqn:E.
    + intros H; injection H as <- <-; simpl.
      now apply startswith_skipn.
    + destruct (partition sep s) as [[a' b']|]; [|discriminate].
      intros H; injection H as <- <-.
      simpl; f_equal; now apply IH.
Qed.

Lemma partition_here (sep s : str) :
  startswith sep s = true ->
  partition sep s = Some ([], skipn (length sep) s).
Proof.
  intros H; destruct s as [|c s].
  - rewrite partition_nil, H; now rewrite skipn_nil.
  - now rewrite partition_cons, H.
Qed.

Lemma partition_None_cons (sep : str) (c : ascii) (s : str) :
  partition sep (c :: s) = None <->
  startswith sep (c :: s) = false /\ partition sep s = None.
Proof.
  rewrite partition_cons.
  destruct (startswith sep (c :: s));
    [split; [discriminate|intros []; discriminate]|].
  destruct (partition sep s) as [[a b]|]; split; try discriminate; auto.
  intros []; discriminate.
Qed.

(** An occurrence inside a part is found in the whole. *)
Lemma partition_app_Some (sep s a b t : str) :
  partition sep s = Some (a, b) ->
  partition sep (s ++ t) = Some (a, b ++ t).
Proof.
  revert a b; induction s as [|c s IH]; intros a b.
  - rewrite partition_nil.
    destruct (startswith sep []) eqn:E; [|discriminate].
    destruct sep; [|discriminate].
    intros H; injection H as <- <-; simpl.
    now rewrite partition_here.
  - rewrite partition_cons; simpl app; rewrite partition_cons.
    destruct (startswith sep (c :: s)) eqn:E.
    + intros H; injection H as <- <-.
      change (c :: s ++ t) with ((c :: s) ++ t).
      rewrite (startswith_weaken _ _ t E); f_equal; f_equal.
      apply startswith_spec in E as [u Hu]; rewrite Hu, <- app_assoc.
      now rewrite !skipn_app, !skipn_all, Nat.sub_diag.
    + destruct (partition sep s) as [[a' b']|] eqn:P; [|discriminate].
      intros H; injection H as <- <-.
      destruct (startswith sep (c :: s ++ t)) eqn:E'.
      * (* an occurrence at the head of the whole, not of the part: the
           part is shorter than the separator, yet it holds one *)
        exfalso.
        apply partition_sound in P.
        apply startswith_spec in E' as [u Hu].
        assert (Hlen : length (c :: s) < length sep).
        { destruct (Nat.lt_ge_cases (length (c :: s)) (length sep)) as [L|L];
            [assumption|].
          exfalso.
          assert (X : startswith sep (c :: s) = true); [|congruence].
          apply startswith_spec.
          exists (skipn (length sep) (c :: s)).
          rewrite <- (firstn_skipn (length sep) (c :: s)) at 1; f_equal.
          apply (f_equal (firstn (length sep))) in Hu.
          change (c :: s ++ t) with ((c :: s) ++ t) in Hu.
          rewrite firstn_app in Hu.
          replace (length sep - length (c :: s)) with 0 in Hu by lia.
          simpl firstn at 2 in Hu; rewrite app_nil_r in Hu.
          rewrite Hu, firstn_app, Nat.sub_diag, firstn_all; simpl.
          now rewrite app_nil_r. }
        rewrite P in Hlen; simpl in Hlen.
        rewrite !length_app in Hlen; lia.
      * now rewrite (IH a' b' eq_refl).
Qed.

Lemma partition_complete (sep a b : str) :
  partition sep (a ++ sep ++ b) <> None.
Proof.
  induction a as [|c a IH]; simpl app.
  - now rewrite partition_here by apply startswith_app.
  - rewrite partition_cons.
    destruct (startswith sep (c :: a ++ sep ++ b)); [discriminate|].
    destruct (partition sep (a ++ sep ++ b)) as [[x y]|]; [discriminate|].
    contradiction.
Qed.

(** [sep in s] holds exactly of the strings that have [sep] inside. *)
Lemma contains_spec (sep s : str) :
  contains sep s = true <-> exists a b, s = a ++ sep ++ b.
Proof.
  unfold contains; split.
  - destruct (partition sep s) as [[a b]|] eqn:P; [|discriminate].
    intros _; exists a, b; now apply partition_sound.
  - intros (a & b & ->).
    pose proof (partition_complete sep a b) as H.
    destruct (partition sep (a ++ sep ++ b)); [reflexivity|contradiction].
Qed.

Lemma contains_false (sep s : str) :
  contains sep s = false <-> partition sep s = None.
Proof.
  unfold contains; destruct (partition sep s); split; congruence.
Qed.

(** A part of a string without [sep] has no [sep] either. *)
Lemma contains_part (sep x s y : str) :
  contains sep (x ++ s ++ y) = false -> contains sep s = false.
Proof.
  intros H; destruct (contains sep s) eqn:E; [|reflexivity].
  apply contains_spec in E as (a & b & ->).
  assert (X : contains sep (x ++ (a ++ sep ++ b) ++ y) = true); [|congruence].
  apply contains_spec; exists (x ++ a), (b ++ y).
  now rewrite <- !app_assoc.
Qed.

(** ** Splitting on a separator *)

Lemma partition_shorter (sep s a b : str) :
  sep <> [] -> partition sep s = Some (a, b) -> length b < length s.
Proof.
  intros Hsep P; apply partition_sound in P; subst s.
  rewrite !length_app; destruct sep; [contradiction|simpl; lia].
Qed.

Lemma split_fuel_enough (sep : str) (n m : nat) (s : str) :
  sep <> [] -> length s < n -> length s < m ->
  split_fuel n sep s = split_fuel m sep s.
Proof.
  intros Hsep; revert m s; induction n as [|n IH]; intros m s Hn Hm; [lia|].
  destruct m as [|m]; [lia|]; simpl.
  destruct (partition sep s) as [[a b]|] eqn:P; [|reflexivity].
  pose proof (partition_shorter _ _ _ _ Hsep P).
  f_equal; apply IH; lia.
Qed.

Lemma split_eq (sep s : str) :
  sep <> [] ->
  split sep s = match partition sep s with
                | Some (a, b) => a :: split sep b
                | None => [s]
                end.
Proof.
  intros Hsep; unfold split.
  change (split_fuel (S (length s)) sep s)
    with (match partition sep s with
          | Some (a, b) => a :: split_fuel (length s) sep b
          | None => [s]
          end).
  destruct (partition sep s) as [[a b]|] eqn:P; [|reflexivity].
  pose proof (partition_shorter _ _ _ _ Hsep P).
  f_equal; apply split_fuel_enough; [assumption|lia|lia].
Qed.

Lemma split_None (sep s : str) :
  sep <> [] -> partition sep s = None -> split sep s = [s].
Proof. intros Hsep P; now rewrite split_eq, P. Qed.

Lemma split_not_nil (sep s : str) : split sep s <> [].
Proof.
  unfold split; simpl; destruct (partition sep s) as [[a b]|]; discriminate.
Qed.

(** The first piece has no separator inside. *)
Lemma partition_first (sep s a b : str) :
  sep <> [] -> partition sep s = Some (a, b) -> partition sep a = None.
Proof.
  intros Hsep; revert a b; induction s as [|c s IH]; intros a b.
  - rewrite partition_nil; destruct (startswith sep []) eqn:E; [|discriminate].
    destruct sep; [contradiction|discriminate].
  - rewrite partition_cons.
    destruct (startswith sep (c :: s)) eqn:E.
    + intros H; injection H as <- <-.
      rewrite partition_nil; destruct sep; [contradiction|reflexivity].
    + destruct (partition sep s) as [[a' b']|] eqn:P; [|discriminate].
      intros H; injection H as <- <-.
      apply partition_None_cons; split; [|now apply (IH a' b')].
      destruct (startswith sep (c :: a')) eqn:E'; [|reflexivity].
      apply partition_sound in P; subst s.
      change (c :: a' ++ sep ++ b') with ((c :: a') ++ sep ++ b') in E.
      now rewrite (startswith_weaken _ _ _ E') in E.
Qed.

Lemma hd_split_free (sep s : str) :
  sep <> [] -> partition sep (hd [] (split sep s)) = None.
Proof.
  intros Hsep; rewrite split_eq by assumption.
  destruct (partition sep s) as [[a b]|] eqn:P; simpl; [|assumption].
  now apply (partition_first sep s a b).
Qed.

(** The characters of the pieces are characters of the string. *)
Lemma partition_In (sep s a b : str) (c : ascii) :
  partition sep s = Some (a, b) -> In c a \/ In c b -> In c s.
Proof.
  intros P H; apply partition_sound in P; subst s.
  rewrite !in_app_iff; tauto.
Qed.

Lemma split_In (sep s : str) (c : ascii) (piece : str) :
  sep <> [] -> In piece (split sep s) -> In c piece -> In c s.
Proof.
  intros Hsep.
  remember (length s) as n eqn:Hn.
  revert s Hn; induction n as [n IH] using lt_wf_ind; intros s Hn.
  rewrite split_eq by assumption.
  destruct (partition sep s) as [[a b]|] eqn:P.
  - intros [<-|Hin] Hc.
    + apply (partition_In _ _ _ _ _ P); now left.
    + apply (partition_In _ _ _ _ _ P); right.
      pose proof (partition_shorter _ _ _ _ Hsep P).
      apply (IH (length b)); [lia|reflexivity|assumption|assumption].
  - intros [<-|[]] Hc; assumption.
Qed.

Lemma join_nil_In (parts : list str) (c : ascii) :
  In c (join [] parts) -> exists piece, In piece parts /\ In c piece.
Proof.
  induction parts as [|p parts IH]; simpl; [intros []|].
  destruct parts as [|q parts].
  - intros H; exists p; split; [now left|assumption].
  - simpl app; rewrite in_app_iff; intros [H|H].
    + exists p; split; [now left|assumption].
    + destruct (IH H) as (piece & Hp & Hc).
      exists piece; split; [now right|assumption].
Qed.

Lemma replace_nil_In (old s : str) (c : ascii) :
  old <> [] -> In c (replace old [] s) -> In c s.
Proof.
  intros Hold H; unfold replace in H.
  apply join_nil_In in H as (piece & Hp & Hc).
  now apply (split_In old s c piece).
Qed.

Lemma startswith_prefix (a b s : str) :
  startswith (a ++ b) s = true -> startswith a s = true.
Proof.
  intros H; apply startswith_spec in H as [t ->].
  rewrite <- app_assoc; apply startswith_app.
Qed.

Lemma hd_split (sep s : str) :
  sep <> [] ->
  hd [] (split sep s) = match partition sep s with
                        | Some (a, _) => a
                        | None => s
                        end.
Proof.
  intros Hsep; rewrite split_eq by assumption.
  now destruct (partition sep s) as [[a b]|].
Qed.

(** The pieces after the first follow a separator: none starts with [M]
    when the separator is nowhere followed by [M]. *)
Lemma split_after (sep M s : str) :
  sep <> [] -> contains (sep ++ M) s = false -> startswith M s = false ->
  Forall (fun t => startswith M t = false) (split sep s).
Proof.
  intros Hsep.
  remember (length s) as n eqn:Hn.
  revert s Hn; induction n as [n IH] using lt_wf_ind; intros s Hn Hfree Hs.
  rewrite split_eq by assumption.
  destruct (partition sep s) as [[a b]|] eqn:P; [|now repeat constructor].
  pose proof (partition_shorter _ _ _ _ Hsep P) as Hlen.
  apply partition_sound in P; subst s.
  constructor.
  - destruct (startswith M a) eqn:E; [|reflexivity].
    now rewrite (startswith_weaken _ _ _ E) in Hs.
  - apply (IH (length b)); [lia|reflexivity| |].
    + apply (contains_part _ (a ++ sep) b []).
      now rewrite app_nil_r, <- app_assoc.
    + destruct (startswith M b) eqn:E; [|reflexivity].
      apply startswith_spec in E as [t ->].
      assert (X : contains (sep ++ M) (a ++ sep ++ M ++ t) = true);
        [|congruence].
      apply contains_spec; exists a, t; now rewrite <- app_assoc.
Qed.

(** ** Texts without the first character of the separator *)

Section Head.

Variable c0 : ascii.
Variable p : str.

Let sep := c0 :: p.

Lemma startswith_other (c : ascii) (s : str) :
  c <> c0 -> startswith sep (c :: s) = false.
Proof.
  intros Hc; unfold sep; simpl.
  destruct (Ascii.eqb_spec c0 c) as [E|]; [|reflexivity].
  symmetry in E; contradiction.
Qed.

Lemma free_cons_other (c : ascii) (y : str) :
  c <> c0 -> partition sep y = None -> partition sep (c :: y) = None.
Proof.
  intros Hc Hy; apply partition_None_cons; split; [|assumption].
  now apply startswith_other.
Qed.

Lemma free_app_without (x y : str) :
  ~ In c0 x -> partition sep y = None -> partition sep (x ++ y) = None.
Proof.
  induction x as [|c x IH]; intros Hx Hy; [assumption|].
  simpl app; apply free_cons_other.
  - intros E; apply Hx; now left.
  - apply IH; [|assumption].
    intros Hin; apply Hx; now right.
Qed.

Lemma free_c0 (y : str) :
  startswith p y = false -> partition sep y = None ->
  partition sep (c0 :: y) = None.
Proof.
  intros Hp Hy; apply partition_None_cons; split; [|assumption].
  unfold sep; simpl; now rewrite Ascii.eqb_refl.
Qed.

Lemma free_nil : partition sep [] = None.
Proof. reflexivity. Qed.

Lemma sep_not_nil : sep <> [].
Proof. discriminate. Qed.

Lemma free_without (x : str) : ~ In c0 x -> partition sep x = None.
Proof.
  intros Hx; rewrite <- (app_nil_r x).
  apply free_app_without; [assumption|reflexivity].
Qed.

(** A text without [c0] is cut at the separator that follows it. *)
Lemma partition_app_without (a b : str) :
  ~ In c0 a -> partition sep (a ++ sep ++ b) = Some (a, b).
Proof.
  induction a as [|c a IH]; intros Ha.
  - change ([] ++ sep ++ b) with (sep ++ b).
    rewrite partition_here by apply startswith_app.
    now rewrite skipn_app, skipn_all, Nat.sub_diag.
  - change ((c :: a) ++ sep ++ b) with (c :: (a ++ sep ++ b)).
    rewrite partition_cons, startswith_other, IH; [reflexivity| |].
    + intros Hin; apply Ha; now right.
    + intros E; apply Ha; now left.
Qed.

Lemma partition_cons_other (c : ascii) (y : str) :
  c <> c0 ->
  partition sep (c :: y) = match partition sep y with
                           | Some (a, b) => Some (c :: a, b)
                           | None => None
                           end.
Proof.
  intros Hc; rewrite partition_cons.
  replace (startswith sep (c :: y)) with false; [reflexivity|].
  symmetry; now apply startswith_other.
Qed.

Lemma partition_app_other (x y : str) :
  ~ In c0 x ->
  partition sep (x ++ y) = match partition sep y with
                           | Some (a, b) => Some (x ++ a, b)
                           | None => None
                           end.
Proof.
  induction x as [|c x IH]; intros Hx; cbn [app].
  - now destruct (partition sep y) as [[a b]|].
  - rewrite partition_cons_other by (intros E; apply Hx; now left).
    rewrite IH by (intros Hin; apply Hx; now right).
    now destruct (partition sep y) as [[a b]|].
Qed.

Lemma partition_c0_other (y : str) :
  startswith p y = false ->
  partition sep (c0 :: y) = match partition sep y with
                            | Some (a, b) => Some (c0 :: a, b)
                            | None => None
                            end.
Proof.
  intros Hp; rewrite partition_cons.
  unfold sep at 1; simpl; now rewrite Ascii.eqb_refl, Hp.
Qed.

End Head.

(** ** Separators that begin a line

    A separator [c0 :: p] whose first character does not occur again in
    it: an occurrence cannot begin in a text and end after a [c0] that
    follows the text. *)

Section FirstChar.

Variable c0 : ascii.
Variable p : str.
Hypothesis c0_once : ~ In c0 p.

Let sep := c0 :: p.

Lemma free_app_c0 (x y : str) :
  partition sep x = None -> partition sep (c0 :: y) = None ->
  partition sep (x ++ c0 :: y) = None.
Proof.
  induction x as [|c x IH]; intros Hx Hy; [assumption|].
  apply partition_None_cons in Hx as [Hc Hx].
  simpl app; apply partition_None_cons; split; [|now apply IH].
  unfold sep in *; simpl in Hc |- *.
  destruct (Ascii.eqb c0 c); [|reflexivity]; simpl in Hc |- *.
  now apply startswith_stop_false.
Qed.

(** A text without separator is cut at the separator that follows it. *)
Lemma partition_app_None (a b : str) :
  partition sep a = None -> partition sep (a ++ sep ++ b) = Some (a, b).
Proof.
  induction a as [|c a IHa]; intros P.
  - change ([] ++ sep ++ b) with (sep ++ b).
    rewrite partition_here by apply startswith_app.
    now rewrite skipn_app, skipn_all, Nat.sub_diag.
  - apply partition_None_cons in P as [Hc Pa].
    change ((c :: a) ++ sep ++ b) with (c :: (a ++ sep ++ b)).
    rewrite partition_cons.
    change (c :: a ++ sep ++ b) with ((c :: a) ++ c0 :: p ++ b).
    assert (E : startswith sep ((c :: a) ++ c0 :: p ++ b) = false).
    { unfold sep in *; simpl in Hc |- *.
      destruct (Ascii.eqb c0 c); [|reflexivity]; simpl in Hc |- *.
      now apply startswith_stop_false. }
    rewrite E.
    change (a ++ c0 :: p ++ b) with (a ++ sep ++ b).
    now rewrite (IHa Pa).
Qed.

(** The pieces of a text followed by a separator are the pieces of the
    text, then the pieces of what follows. *)
Lemma split_app (a b : str) :
  split sep (a ++ sep ++ b) = split sep a ++ split sep b.
Proof.
  remember (length a) as n eqn:Hn.
  revert a Hn; induction n as [n IH] using lt_wf_ind; intros a Hn.
  rewrite (split_eq sep (a ++ sep ++ b)), (split_eq sep a)
    by apply sep_not_nil.
  destruct (partition sep a) as [[x y]|] eqn:P.
  - rewrite (partition_app_Some _ _ _ _ (sep ++ b) P); simpl; f_equal.
    pose proof (partition_shorter _ _ _ _ (sep_not_nil c0 p) P).
    now apply (IH (length y)); [lia|].
  - now rewrite (partition_app_None a b P).
Qed.

End FirstChar.

(** ** White space *)

Lemma all_space_app (u v : str) :
  all_space (u ++ v) <-> all_space u /\ all_space v.
Proof. unfold all_space; rewrite forallb_app; apply andb_true_iff. Qed.

Lemma all_space_rev (w : str) : all_space w -> all_space (rev w).
Proof.
  unfold all_space; rewrite !forallb_forall.
  intros H c Hc; apply H; now apply in_rev.
Qed.

Lemma lstrip_decomp (s : str) :
  exists w, s = w ++ lstrip s /\ all_space w.
Proof.
  induction s as [|c s (w & Hs & Hw)]; simpl.
  - now exists [].
  - destruct (isspace c) eqn:E.
    + exists (c :: w); split; [simpl; now f_equal|].
      unfold all_space in *; simpl; now rewrite E.
    + now exists [].
Qed.

Lemma lstrip_head (s : str) (c : ascii) (t : str) :
  lstrip s = c :: t -> isspace c = false.
Proof.
  induction s as [|x s IH]; simpl; [discriminate|].
  destruct (isspace x) eqn:E; [assumption|].
  intros H; injection H as <- _; assumption.
Qed.

Lemma lstrip_all_space (w s : str) :
  all_space w -> lstrip (w ++ s) = lstrip s.
Proof.
  unfold all_space; induction w as [|c w IH]; simpl; [reflexivity|].
  intros H; apply andb_true_iff in H as [-> Hw]; now apply IH.
Qed.

Lemma lstrip_app (s w : str) :
  lstrip s <> [] -> lstrip (s ++ w) = lstrip s ++ w.
Proof.
  induction s as [|c s IH]; simpl; [contradiction|].
  destruct (isspace c); [assumption|reflexivity].
Qed.

Lemma lstrip_nil (s : str) : lstrip s = [] -> all_space s.
Proof.
  intros H; destruct (lstrip_decomp s) as (w & Hs & Hw).
  rewrite H, app_nil_r in Hs; now subst.
Qed.

Lemma rstrip_decomp (s : str) :
  exists w, s = rstrip s ++ w /\ all_space w.
Proof.
  unfold rstrip; destruct (lstrip_decomp (rev s)) as (w & Hs & Hw).
  exists (rev w); split; [|now apply all_space_rev].
  rewrite <- rev_app_distr, <- Hs; symmetry; apply rev_involutive.
Qed.

Lemma rstrip_all_space (s w : str) :
  all_space w -> rstrip (s ++ w) = rstrip s.
Proof.
  intros Hw; unfold rstrip; rewrite rev_app_distr.
  now rewrite lstrip_all_space by now apply all_space_rev.
Qed.

Lemma strip_decomp (s : str) :
  exists w1 w2, s = w1 ++ strip s ++ w2 /\ all_space w1 /\ all_space w2.
Proof.
  destruct (lstrip_decomp s) as (w1 & Hs & Hw1).
  destruct (rstrip_decomp (lstrip s)) as (w2 & Ht & Hw2).
  exists w1, w2; unfold strip; now rewrite <- Ht.
Qed.

Lemma strip_In (s : str) (c : ascii) : In c (strip s) -> In c s.
Proof.
  destruct (strip_decomp s) as (w1 & w2 & Hs & _); intros H.
  rewrite Hs, !in_app_iff; tauto.
Qed.

Lemma strip_free (sep s : str) :
  contains sep s = false -> contains sep (strip s) = false.
Proof.
  destruct (strip_decomp s) as (w1 & w2 & Hs & _); intros H.
  rewrite Hs in H; now apply contains_part in H.
Qed.

(** White space after the text is stripped with the rest. *)
Lemma strip_app_space (s w : str) : all_space w -> strip (s ++ w) = strip s.
Proof.
  intros Hw; unfold strip.
  destruct (lstrip s) as [|c t] eqn:E.
  - rewrite lstrip_all_space by now apply lstrip_nil.
    rewrite <- (app_nil_r w), lstrip_all_space by assumption.
    reflexivity.
  - rewrite lstrip_app by (rewrite E; discriminate).
    rewrite E; now apply rstrip_all_space.
Qed.

(** The first character of a stripped text is not white space. *)
Lemma strip_head (s : str) (c : ascii) (t : str) :
  strip s = c :: t -> isspace c = false.
Proof.
  unfold strip, rstrip.
  destruct (lstrip s) as [|x u] eqn:E; [discriminate|].
  pose proof (lstrip_head _ _ _ E) as Hx.
  simpl rev.
  assert (L : exists v, lstrip (rev u ++ [x]) = v ++ [x]).
  { generalize (rev u); intros r; induction r as [|y r (v & Hv)]; simpl.
    - rewrite Hx; now exists [].
    - destruct (isspace y); [now exists v|].
      now exists (y :: r). }
  destruct L as (v & ->); rewrite rev_app_distr; simpl.
  intros H; injection H as <- _; assumption.
Qed.

Lemma lstrip_fix (s : str) :
  match s with [] => True | c :: _ => isspace c = false end ->
  lstrip s = s.
Proof. destruct s as [|c s]; simpl; [reflexivity|]; now intros ->. Qed.

Lemma lstrip_idem (s : str) : lstrip (lstrip s) = lstrip s.
Proof.
  apply lstrip_fix; destruct (lstrip s) as [|c t] eqn:E; [exact I|].
  now apply (lstrip_head s c t).
Qed.

Lemma strip_idem (s : str) : strip (strip s) = strip s.
Proof.
  assert (L : lstrip (strip s) = strip s).
  { apply lstrip_fix; destruct (strip s) as [|c t] eqn:E; [exact I|].
    now apply (strip_head s c t). }
  unfold strip at 1; rewrite L.
  unfold strip, rstrip; now rewrite rev_involutive, lstrip_idem.
Qed.

(** ** Splitting on white space *)

Lemma split_ws_go_space (cur w : str) :
  all_space w ->
  split_ws_go cur w = match cur with [] => [] | _ => [rev cur] end.
Proof.
  revert cur; unfold all_space; induction w as [|c w IH]; intros cur;
    simpl; [reflexivity|].
  intros H; apply andb_true_iff in H as [-> Hw].
  destruct cur; rewrite (IH [] Hw); reflexivity.
Qed.

Lemma split_ws_go_app_space (cur s w : str) :
  all_space w -> split_ws_go cur (s ++ w) = split_ws_go cur s.
Proof.
  intros Hw; revert cur; induction s as [|c s IH]; intros cur; simpl.
  - now apply split_ws_go_space.
  - destruct (isspace c); [destruct cur|]; now rewrite IH.
Qed.

Lemma split_ws_space_app (w s : str) :
  all_space w -> split_ws (w ++ s) = split_ws s.
Proof.
  unfold split_ws, all_space; induction w as [|c w IH]; simpl;
    [reflexivity|].
  intros H; apply andb_true_iff in H as [-> Hw]; now apply IH.
Qed.

Lemma split_ws_strip (s : str) : split_ws (strip s) = split_ws s.
Proof.
  destruct (strip_decomp s) as (w1 & w2 & Hs & H1 & H2).
  rewrite Hs at 2.
  rewrite split_ws_space_app by assumption.
  unfold split_ws; now rewrite split_ws_go_app_space.
Qed.

Lemma no_space_rev (t : str) : no_space t -> no_space (rev t).
Proof.
  unfold no_space; rewrite !forallb_forall.
  intros H c Hc; apply H; now apply in_rev.
Qed.

Lemma split_ws_go_tokens (cur s : str) :
  no_space cur -> Forall token (split_ws_go cur s).
Proof.
  revert cur; induction s as [|c s IH]; intros cur Hcur; simpl.
  - destruct cur as [|x cur]; constructor; [|constructor].
    split; [|now apply no_space_rev].
    intros E; apply (f_equal (@length _)) in E.
    rewrite length_rev in E; discriminate.
  - destruct (isspace c) eqn:E.
    + destruct cur as [|x cur]; [now apply IH|].
      constructor; [|now apply IH].
      split; [|now apply no_space_rev].
      intros E'; apply (f_equal (@length _)) in E'.
      rewrite length_rev in E'; discriminate.
    + apply IH; unfold no_space in *; simpl; now rewrite E.
Qed.

Lemma split_ws_tokens (s : str) : Forall token (split_ws s).
Proof. now apply split_ws_go_tokens. Qed.

Lemma split_ws_go_run (cur t rest : str) :
  no_space t -> split_ws_go cur (t ++ rest) = split_ws_go (rev t ++ cur) rest.
Proof.
  revert cur; unfold no_space; induction t as [|c t IH]; intros cur;
    simpl; [reflexivity|].
  intros H; apply andb_true_iff in H as [Hc Ht].
  apply negb_true_iff in Hc; rewrite Hc, (IH _ Ht).
  now rewrite <- app_assoc.
Qed.

(** The tokens of a text are found again when they are joined with
    spaces. *)
Lemma split_ws_join (toks : list str) :
  Forall token toks -> split_ws (join `" " toks) = toks.
Proof.
  unfold split_ws; induction 1 as [|t toks [Hne Ht] Htoks IH];
    [reflexivity|].
  destruct toks as [|u toks].
  - simpl join.
    pose proof (split_ws_go_run [] t [] Ht) as R.
    rewrite !app_nil_r in R; rewrite R.
    destruct (rev t) eqn:E.
    + apply (f_equal (@rev _)) in E; rewrite rev_involutive in E.
      simpl in E; contradiction.
    + cbn [split_ws_go]; now rewrite <- E, rev_involutive.
  - change (join `" " (t :: u :: toks))
      with (t ++ " "%char :: join `" " (u :: toks)).
    rewrite split_ws_go_run by assumption; rewrite app_nil_r.
    change (split_ws_go (rev t) (" "%char :: join `" " (u :: toks)))
      with (match rev t with
            | [] => split_ws_go [] (join `" " (u :: toks))
            | _ => rev (rev t) :: split_ws_go [] (join `" " (u :: toks))
            end).
    destruct (rev t) eqn:E.
    + apply (f_equal (@rev _)) in E; rewrite rev_involutive in E.
      simpl in E; contradiction.
    + rewrite <- E, rev_involutive; now f_equal.
Qed.

Lemma filter_truthy_tokens (toks : list str) :
  Forall token toks -> filter truthy toks = toks.
Proof.
  induction 1 as [|t toks [Hne _] _ IH]; [reflexivity|]; simpl.
  destruct t; [contradiction|]; simpl; now f_equal.
Qed.

(** A token holds no line feed, nor does a line of tokens. *)
Lemma NL_isspace : isspace NL = true.
Proof. reflexivity. Qed.

Lemma no_space_NL (t : str) : no_space t -> ~ In NL t.
Proof.
  unfold no_space; rewrite forallb_forall; intros H Hin.
  apply H in Hin; now rewrite NL_isspace in Hin.
Qed.

Lemma join_space_NL (toks : list str) :
  Forall token toks -> ~ In NL (join `" " toks).
Proof.
  induction 1 as [|t toks [_ Ht] _ IH]; [intros []|].
  destruct toks as [|u toks]; [now apply no_space_NL|].
  change (join `" " (t :: u :: toks))
    with (t ++ " "%char :: join `" " (u :: toks)).
  rewrite in_app_iff; intros [H|[H|H]].
  - now apply (no_space_NL t).
  - discriminate.
  - now apply IH.
Qed.

(** Stripping the joined line loses no token. *)
Lemma split_ws_join_strip (toks : list str) :
  Forall token toks -> split_ws (strip (join `" " toks)) = toks.
Proof. intros H; rewrite split_ws_strip; now apply split_ws_join. Qed.

End PyStrFacts.

(** * Reading back a README written by the template *)

Section Rendered.

Import PyStr PyStrFacts.

Context {prompts : Prompts}.

Local Arguments partition : simpl never.
Local Arguments strip : simpl never.
Local Arguments split_ws : simpl never.

Lemma single_line_In (s : str) : single_line s = true <-> ~ In NL s.
Proof.
  unfold single_line; rewrite negb_true_iff; split.
  - intros H Hin.
    assert (X : existsb (Ascii.eqb NL) s = true); [|congruence].
    apply existsb_exists; exists NL; split; [assumption|apply Ascii.eqb_refl].
  - intros H; destruct (existsb (Ascii.eqb NL) s) eqn:E; [|reflexivity].
    apply existsb_exists in E as (c & Hc & Hn).
    apply Ascii.eqb_eq in Hn; subst c; contradiction.
Qed.

Lemma single_line_app (a b : str) :
  single_line (a ++ b) = single_line a && single_line b.
Proof.
  unfold single_line; rewrite existsb_app, negb_orb; reflexivity.
Qed.

Lemma heading_once : ~ In NL `"## ".
Proof. simpl; intuition discriminate. Qed.

Lemma metadata_heading_once : ~ In NL `"## Metadata".
Proof. simpl; intuition discriminate. Qed.

Ltac one_line :=
  match goal with
  | H : single_line ?s = true |- ~ In NL ?s => apply single_line_In, H
  end.

Ltac expose := cbn [app lit list_ascii_of_string].

Ltac free_step :=
  first
    [ assumption
    | apply (free_nil NL `"## ")
    | apply (free_c0 NL `"## "); [ try reflexivity | ]
    | apply (free_cons_other NL `"## "); [ unfold NL; discriminate | ]
    | apply (free_app_without NL `"## "); [ one_line | ] ].

Lemma bullets_head (items : list str) (rest : str) :
  startswith `"## " (bullet_list items ++ NL :: rest) = false.
Proof.
  destruct items as [|c [|d items]]; reflexivity.
Qed.

Lemma bullets_free (items : list str) (rest : str) :
  forallb single_line items = true ->
  partition section_sep (NL :: rest) = None ->
  partition section_sep (bullet_list items ++ NL :: rest) = None.
Proof.
  intros Hitems Hrest; induction items as [|c items IH]; [assumption|].
  simpl in Hitems; apply andb_true_iff in Hitems as [Hc Hitems].
  specialize (IH Hitems).
  destruct items as [|d items].
  - unfold bullet_list; cbn [join map]; expose; repeat free_step.
  - change (bullet_list (c :: d :: items))
      with (`"- " ++ c ++ NL :: bullet_list (d :: items)).
    rewrite <- !app_assoc; expose.
    repeat free_step.
    apply bullets_head.
Qed.


Lemma readme_content_sections (n pr : str) (md : Metadata) :
  readme_content n pr md =
    preamble_text n pr ++ section_sep
    ++ characteristics_section ++ section_sep
    ++ voice_section n ++ section_sep
    ++ metadata_section md.
Proof.
  unfold readme_content, preamble_text, characteristics_section,
    voice_section, metadata_section, section_sep.
  repeat (rewrite <- ?app_assoc; cbn [app lit list_ascii_of_string]).
  reflexivity.
Qed.

Lemma startswith_heading_nl (s t : str) :
  startswith `"## " s = false -> startswith `"## " (s ++ NL :: t) = false.
Proof. apply startswith_stop_false, heading_once. Qed.

Lemma plain_prompt_spec (pr : str) :
  plain_prompt pr = true <->
  startswith `"## " pr = false
  /\ partition (NL :: `"## Metadata") pr = None.
Proof.
  unfold plain_prompt; rewrite andb_true_iff, !negb_true_iff.
  now rewrite contains_false.
Qed.

(** A prompt without section break of any kind is plain. *)
Lemma plain_prompt_free (pr : str) :
  startswith `"## " pr = false -> contains section_sep pr = false ->
  plain_prompt pr = true.
Proof.
  intros Hh Hf; unfold plain_prompt; rewrite Hh; cbn [negb andb].
  apply negb_true_iff.
  destruct (contains (section_sep ++ `"Metadata") pr) eqn:E; [|reflexivity].
  apply contains_spec in E as (a & b & ->).
  assert (X : contains section_sep
                (a ++ (section_sep ++ `"Metadata") ++ b) = true);
    [|congruence].
  apply contains_spec; exists a, (`"Metadata" ++ b).
  now rewrite <- !app_assoc.
Qed.

(** The first section of the rendered text: the title, the blank line and
    the prompt up to its first section break. *)
Lemma preamble_head (n pr : str) :
  single_line n = true -> startswith `"## " pr = false ->
  hd [] (split section_sep (preamble_text n pr))
  = `"# " ++ n ++ [NL; NL] ++ hd [] (split section_sep (pr ++ [NL])).
Proof.
  intros Hn Hpr; rewrite !hd_split by discriminate.
  unfold preamble_text, section_sep.
  rewrite (app_assoc `"# " n).
  rewrite (partition_app_other NL `"## ")
    by (apply single_line_In; now rewrite single_line_app, Hn).
  cbn [app].
  rewrite (partition_c0_other NL `"## ") by reflexivity.
  rewrite (partition_c0_other NL `"## ")
    by now apply startswith_heading_nl.
  destruct (partition (NL :: `"## ") (pr ++ [NL])) as [[a b]|];
    now rewrite <- app_assoc.
Qed.

(** No section of the title and the prompt starts with Metadata. *)
Lemma preamble_sections (n pr : str) :
  single_line n = true -> plain_prompt pr = true ->
  Forall (fun t => startswith `"Metadata" t = false)
    (split section_sep (preamble_text n pr)).
Proof.
  intros Hn Hpr; apply plain_prompt_spec in Hpr as [Hh Hf].
  apply split_after; [discriminate| |reflexivity].
  apply contains_false.
  change (section_sep ++ `"Metadata") with (NL :: `"## Metadata").
  unfold preamble_text; rewrite (app_assoc `"# " n).
  apply (free_app_without NL `"## Metadata");
    [apply single_line_In; now rewrite single_line_app, Hn|].
  cbn [app].
  apply (free_c0 NL `"## Metadata"); [reflexivity|].
  apply (free_c0 NL `"## Metadata").
  - apply (startswith_stop_false NL); [apply metadata_heading_once|].
    destruct (startswith `"## Metadata" pr) eqn:E; [|reflexivity].
    change `"## Metadata" with (`"## " ++ `"Metadata") in E.
    apply startswith_prefix in E; congruence.
  - apply (free_app_c0 NL `"## Metadata" metadata_heading_once);
      [assumption|reflexivity].
Qed.

Lemma characteristics_free :
  forallb single_line DEFAULT_CHARACTERISTICS = true ->
  partition section_sep characteristics_section = None.
Proof.
  intros H; unfold characteristics_section; expose; repeat free_step.
  - apply bullets_head.
  - apply bullets_free; [assumption|reflexivity].
Qed.

Lemma metadata_free (md : Metadata) :
  single_line (md_image md) = true ->
  single_line (md_entry_message md) = true ->
  single_line (md_cartesia_voice_id md) = true ->
  single_line (md_gender md) = true ->
  single_line (join `" " (md_relevant_links md)) = true ->
  partition section_sep (metadata_section md) = None.
Proof.
  intros; unfold metadata_section; expose; repeat free_step.
Qed.



Lemma voice_sections (n : str) :
  single_line n = true -> startswith `"## " n = false ->
  forallb single_line DEFAULT_VOICE_CHARACTERISTICS = true ->
  Forall (fun t => startswith `"Metadata" t = false)
    (split section_sep (voice_section n)).
Proof.
  intros Hn Hh Hv.
  assert (T : forall t, single_line t = true ->
            partition section_sep
              (t ++ [NL] ++ bullet_list DEFAULT_VOICE_CHARACTERISTICS
               ++ [NL]) = None).
  { intros t Ht; expose; repeat free_step.
    - apply bullets_head.
    - apply bullets_free; [assumption|reflexivity]. }
  destruct (startswith `"## " (n ++ `" speaks with:")) eqn:E.
  - assert (n = `"##") as ->.
    { destruct n as [|a [|b [|c n]]];
        cbn [startswith app lit list_ascii_of_string] in E, Hh.
      - discriminate.
      - destruct (Ascii.eqb "#"%char a); discriminate.
      - apply andb_true_iff in E as [Ea E]; apply andb_true_iff in E as [Eb _].
        apply Ascii.eqb_eq in Ea, Eb; now subst.
      - rewrite Hh in E; discriminate. }
    change (voice_section `"##")
      with (`"Voice" ++ (NL :: `"## ")
            ++ (`"speaks with:" ++ [NL]
                ++ bullet_list DEFAULT_VOICE_CHARACTERISTICS ++ [NL])).
    rewrite (split_app NL `"## " heading_once).
    rewrite (split_None _ `"Voice") by (discriminate || reflexivity).
    rewrite split_None; [|discriminate|now apply (T `"speaks with:")].
    repeat constructor.
  - rewrite split_None; [repeat constructor|discriminate|].
    unfold voice_section.
    apply (free_app_without NL `"## ");
      [apply single_line_In; reflexivity|].
    rewrite (app_assoc n).
    apply (free_c0 NL `"## ").
    + apply (startswith_stop_false NL); [apply heading_once|exact E].
    + apply T; rewrite single_line_app, Hn; reflexivity.
Qed.

Lemma sections_of_readme (n pr : str) (md : Metadata) :
  partition section_sep characteristics_section = None ->
  partition section_sep (metadata_section md) = None ->
  split section_sep (readme_content n pr md) =
    split section_sep (preamble_text n pr)
    ++ characteristics_section
       :: split section_sep (voice_section n) ++ [metadata_section md].
Proof.
  intros H1 H3; rewrite readme_content_sections.
  change section_sep with (NL :: `"## ") in *.
  rewrite !(split_app NL `"## " heading_once).
  rewrite (split_None _ _ (sep_not_nil _ _) H1).
  rewrite (split_None _ _ (sep_not_nil _ _) H3).
  reflexivity.
Qed.

Lemma find_app_last {A : Type} (f : A -> bool) (l : list A) (x : A) :
  Forall (fun y => f y = false) l -> f x = true ->
  find f (l ++ [x]) = Some x.
Proof.
  induction 1 as [|y l Hy _ IH]; intros Hx; simpl.
  - now rewrite Hx.
  - rewrite Hy; now apply IH.
Qed.

Lemma title_of_preamble (n rest : str) :
  single_line n = true ->
  hd [] (split1 [NL] (`"# " ++ n ++ [NL; NL] ++ rest)) = `"# " ++ n.
Proof.
  intros Hn; unfold split1.
  replace (`"# " ++ n ++ [NL; NL] ++ rest)
    with ((`"# " ++ n) ++ [NL] ++ ([NL] ++ rest))
    by (now rewrite <- !app_assoc).
  rewrite (partition_app_without NL []); [reflexivity|].
  apply single_line_In; now rewrite single_line_app, Hn.
Qed.

Lemma body_of_preamble (n rest : str) :
  single_line n = true ->
  split1 [NL; NL] (`"# " ++ n ++ [NL; NL] ++ rest) = [ `"# " ++ n; rest ].
Proof.
  intros Hn; unfold split1.
  replace (`"# " ++ n ++ [NL; NL] ++ rest)
    with ((`"# " ++ n) ++ [NL; NL] ++ rest)
    by (now rewrite <- !app_assoc).
  rewrite (partition_app_without NL [NL]); [reflexivity|].
  apply single_line_In; now rewrite single_line_app, Hn.
Qed.

Lemma split_line (a b : str) :
  single_line a = true -> split [NL] (a ++ NL :: b) = a :: split [NL] b.
Proof.
  intros Ha; rewrite split_eq by discriminate.
  change (a ++ NL :: b) with (a ++ [NL] ++ b).
  rewrite (partition_app_without NL []); [reflexivity|].
  now apply single_line_In.
Qed.

Lemma lines_of_metadata (md : Metadata) :
  single_line (md_image md) = true ->
  single_line (md_entry_message md) = true ->
  single_line (md_cartesia_voice_id md) = true ->
  single_line (md_gender md) = true ->
  single_line (join `" " (md_relevant_links md)) = true ->
  split [NL] (metadata_section md) =
    [ `"Metadata";
      `"- image: " ++ md_image md;
      `"- entry_message: " ++ md_entry_message md;
      `"- cartesia_voice_id: " ++ md_cartesia_voice_id md;
      `"- gender: " ++ md_gender md;
      `"- relevant_links: " ++ join `" " (md_relevant_links md);
      [] ].
Proof.
  intros Hi He Hv Hg Hl.
  replace (metadata_section md)
    with (`"Metadata" ++ NL ::
          (`"- image: " ++ md_image md) ++ NL ::
          (`"- entry_message: " ++ md_entry_message md) ++ NL ::
          (`"- cartesia_voice_id: " ++ md_cartesia_voice_id md) ++ NL ::
          (`"- gender: " ++ md_gender md) ++ NL ::
          (`"- relevant_links: " ++ join `" " (md_relevant_links md)) ++ NL ::
          [])
    by (unfold metadata_section; now rewrite <- !app_assoc).
  rewrite !split_line
    by (rewrite ?single_line_app, ?Hi, ?He, ?Hv, ?Hg, ?Hl; reflexivity).
  reflexivity.
Qed.

Lemma metadata_of_lines (i e v g l : str) :
  fold_left parse_metadata_line
    [ `"Metadata"; `"- image: " ++ i; `"- entry_message: " ++ e;
      `"- cartesia_voice_id: " ++ v; `"- gender: " ++ g;
      `"- relevant_links: " ++ l; [] ]
    default_metadata
  = mkMetadata (strip i) (strip e) (strip v) (strip g)
      (filter truthy (split_ws (strip l))).
Proof. reflexivity. Qed.

(** A prompt without section break is one section with its line end. *)
Lemma prompt_section (pr : str) :
  contains section_sep pr = false ->
  hd [] (split section_sep (pr ++ [NL])) = pr ++ [NL].
Proof.
  intros H; apply contains_false in H.
  rewrite split_None; [reflexivity|discriminate|].
  apply (free_app_c0 NL `"## " heading_once); [assumption|reflexivity].
Qed.

(** The record read back from a README written by the template. *)
Lemma parse_readme_content (n pr : str) (md : Metadata) :
  forallb single_line DEFAULT_CHARACTERISTICS = true ->
  forallb single_line DEFAULT_VOICE_CHARACTERISTICS = true ->
  single_line n = true -> startswith `"## " n = false ->
  plain_prompt pr = true ->
  single_line (md_image md) = true ->
  single_line (md_entry_message md) = true ->
  single_line (md_cartesia_voice_id md) = true ->
  single_line (md_gender md) = true ->
  single_line (join `" " (md_relevant_links md)) = true ->
  parse_readme (readme_content n pr md) =
    Ok (mkPersona
          (Some (strip (replace `"# " [] (`"# " ++ n))))
          (Some (strip (hd [] (split section_sep (pr ++ [NL])))))
          (Some (strip (md_image md)))
          (Some (strip (md_entry_message md)))
          (Some (strip (md_cartesia_voice_id md)))
          (Some (strip (md_gender md)))
          (Some (filter truthy
                   (split_ws (strip (join `" " (md_relevant_links md))))))
          None None).
Proof.
  intros Hc Hv Hn Hh Hpr Hi He Hvo Hg Hl.
  pose proof (characteristics_free Hc) as F1.
  pose proof (metadata_free md Hi He Hvo Hg Hl) as F3.
  pose proof (preamble_sections n pr Hn Hpr) as M0.
  apply plain_prompt_spec in Hpr as [Hprh _].
  unfold parse_readme.
  rewrite (sections_of_readme n pr md F1 F3).
  assert (H0 : hd [] (split section_sep (preamble_text n pr)
                      ++ characteristics_section
                         :: split section_sep (voice_section n)
                            ++ [metadata_section md])
               = hd [] (split section_sep (preamble_text n pr))).
  { pose proof (split_not_nil section_sep (preamble_text n pr)) as Hne.
    now destruct (split section_sep (preamble_text n pr)). }
  rewrite H0, (preamble_head n pr Hn Hprh).
  rewrite (title_of_preamble n _ Hn), (body_of_preamble n _ Hn).
  unfold parse_metadata.
  change (characteristics_section
          :: split section_sep (voice_section n) ++ [metadata_section md])
    with ((characteristics_section :: split section_sep (voice_section n))
          ++ [metadata_section md]).
  rewrite app_assoc, (find_app_last _ _ (metadata_section md)).
  - rewrite (lines_of_metadata md Hi He Hvo Hg Hl), metadata_of_lines.
    reflexivity.
  - apply Forall_app; split; [assumption|].
    constructor; [reflexivity|now apply voice_sections].
  - reflexivity.
Qed.

Lemma metadata_heading_speaks (n : str) :
  startswith `"## Metadata" n = false ->
  startswith `"## Metadata" (n ++ `" speaks with:") = false.
Proof.
  intros H.
  destruct (startswith `"## Metadata" (n ++ `" speaks with:")) eqn:E;
    [|reflexivity].
  apply startswith_spec in E as [t E].
  assert (X : startswith `"## Metadata" n = true); [|congruence].
  do 11 (destruct n as [|? n]; [discriminate E|]).
  cbn [app lit list_ascii_of_string] in E.
  injection E as -> -> -> -> -> -> -> -> -> -> -> _.
  reflexivity.
Qed.

(** The sections of the Voice part, for a name that may itself begin a
    section. *)
Lemma voice_sections_metadata (n : str) :
  single_line n = true -> startswith `"## Metadata" n = false ->
  forallb single_line DEFAULT_VOICE_CHARACTERISTICS = true ->
  Forall (fun t => startswith `"Metadata" t = false)
    (split section_sep (voice_section n)).
Proof.
  intros Hn Hh Hv.
  assert (T : forall t, single_line t = true ->
            partition section_sep
              (t ++ [NL] ++ bullet_list DEFAULT_VOICE_CHARACTERISTICS
               ++ [NL]) = None).
  { intros t Ht; expose; repeat free_step.
    - apply bullets_head.
    - apply bullets_free; [assumption|reflexivity]. }
  pose proof (metadata_heading_speaks n Hh) as Hm.
  assert (Hs : single_line (n ++ `" speaks with:") = true)
    by (rewrite single_line_app, Hn; reflexivity).
  destruct (startswith `"## " (n ++ `" speaks with:")) eqn:E.
  - apply startswith_spec in E as [t E].
    assert (V : voice_section n
                = `"Voice" ++ (NL :: `"## ")
                  ++ (t ++ [NL]
                      ++ bullet_list DEFAULT_VOICE_CHARACTERISTICS ++ [NL])).
    { unfold voice_section; rewrite (app_assoc n), E.
      now rewrite <- !app_assoc. }
    rewrite E in Hm, Hs.
    rewrite V, (split_app NL `"## " heading_once).
    rewrite (split_None _ `"Voice") by (discriminate || reflexivity).
    rewrite split_None; [|discriminate|now apply (T t)].
    constructor; [reflexivity|]; constructor; [|constructor].
    apply (startswith_stop_false NL); [simpl; intuition discriminate|].
    exact Hm.
  - rewrite split_None; [repeat constructor|discriminate|].
    unfold voice_section.
    apply (free_app_without NL `"## ");
      [apply single_line_In; reflexivity|].
    rewrite (app_assoc n).
    apply (free_c0 NL `"## ").
    + apply (startswith_stop_false NL); [apply heading_once|exact E].
    + now apply T.
Qed.

(** The record read back from a README written by the template, for every
    name that is not itself a Metadata heading. *)
Lemma parse_readme_content_metadata (n pr : str) (md : Metadata) :
  forallb single_line DEFAULT_CHARACTERISTICS = true ->
  forallb single_line DEFAULT_VOICE_CHARACTERISTICS = true ->
  single_line n = true -> startswith `"## Metadata" n = false ->
  plain_prompt pr = true ->
  single_line (md_image md) = true ->
  single_line (md_entry_message md) = true ->
  single_line (md_cartesia_voice_id md) = true ->
  single_line (md_gender md) = true ->
  single_line (join `" " (md_relevant_links md)) = true ->
  parse_readme (readme_content n pr md) =
    Ok (mkPersona
          (Some (strip (replace `"# " [] (`"# " ++ n))))
          (Some (strip (hd [] (split section_sep (pr ++ [NL])))))
          (Some (strip (md_image md)))
          (Some (strip (md_entry_message md)))
          (Some (strip (md_cartesia_voice_id md)))
          (Some (strip (md_gender md)))
          (Some (filter truthy
                   (split_ws (strip (join `" " (md_relevant_links md))))))
          None None).
Proof.
  intros Hc Hv Hn Hh Hpr Hi He Hvo Hg Hl.
  pose proof (characteristics_free Hc) as F1.
  pose proof (metadata_free md Hi He Hvo Hg Hl) as F3.
  pose proof (preamble_sections n pr Hn Hpr) as M0.
  apply plain_prompt_spec in Hpr as [Hprh _].
  unfold parse_readme.
  rewrite (sections_of_readme n pr md F1 F3).
  assert (H0 : hd [] (split section_sep (preamble_text n pr)
                      ++ characteristics_section
                         :: split section_sep (voice_section n)
                            ++ [metadata_section md])
               = hd [] (split section_sep (preamble_text n pr))).
  { pose proof (split_not_nil section_sep (preamble_text n pr)) as Hne.
    now destruct (split section_sep (preamble_text n pr)). }
  rewrite H0, (preamble_head n pr Hn Hprh).
  rewrite (title_of_preamble n _ Hn), (body_of_preamble n _ Hn).
  unfold parse_metadata.
  change (characteristics_section
          :: split section_sep (voice_section n) ++ [metadata_section md])
    with ((characteristics_section :: split section_sep (voice_section n))
          ++ [metadata_section md]).
  rewrite app_assoc, (find_app_last _ _ (metadata_section md)).
  - rewrite (lines_of_metadata md Hi He Hvo Hg Hl), metadata_of_lines.
    reflexivity.
  - apply Forall_app; split; [assumption|].
    constructor; [reflexivity|now apply voice_sections_metadata].
  - reflexivity.
Qed.

End Rendered.

(** * What the parser yields *)

Section Parsed.

Import PyStr PyStrFacts.

Lemma single_line_incl (s t : str) :
  (forall c, In c s -> In c t) -> single_line t = true -> single_line s = true.
Proof.
  intros Hincl Ht; apply single_line_In; intros Hin.
  apply single_line_In in Ht; apply Ht, Hincl, Hin.
Qed.

Lemma clean_strip (v : str) : single_line v = true -> clean (strip v).
Proof.
  intros Hv; split; [|apply strip_idem].
  apply (single_line_incl _ v); [apply strip_In|assumption].
Qed.

Lemma clean_nil : clean [].
Proof. split; reflexivity. Qed.

Lemma metadata_set_clean (key v : str) (md : Metadata) :
  clean v -> clean_metadata md -> clean_metadata (metadata_set key v md).
Proof.
  intros Hv (Hi & He & Hc & Hg & Hl); unfold metadata_set.
  repeat match goal with
         | |- context [if ?b then _ else _] => destruct b
         end; unfold clean_metadata; simpl; tauto.
Qed.

Lemma skipn_In {A : Type} (n : nat) (l : list A) (x : A) :
  In x (skipn n l) -> In x l.
Proof.
  intros H; rewrite <- (firstn_skipn n l); apply in_or_app; now right.
Qed.

Lemma filter_tokens (f : str -> bool) (l : list str) :
  Forall token l -> Forall token (filter f l).
Proof.
  intros H; apply Forall_forall; intros x Hx.
  apply filter_In in Hx as [Hx _].
  now apply (proj1 (Forall_forall _ _) H).
Qed.

Lemma parse_metadata_line_clean (md : Metadata) (line : str) :
  single_line line = true -> clean_metadata md ->
  clean_metadata (parse_metadata_line md line).
Proof.
  intros Hline Hmd; unfold parse_metadata_line.
  destruct (startswith `"- " line); [|assumption].
  unfold split1.
  destruct (partition `": " (skipn 2 line)) as [[key value]|] eqn:P;
    [|assumption].
  destruct (eqb key `"relevant_links").
  - destruct Hmd as (Hi & He & Hc & Hg & Hl).
    unfold clean_metadata; simpl; repeat (split; [assumption|]).
    apply filter_tokens, split_ws_tokens.
  - apply metadata_set_clean; [|assumption].
    apply clean_strip, (single_line_incl _ line); [|assumption].
    intros c Hc; apply (skipn_In 2).
    apply (partition_In _ _ _ _ _ P); now right.
Qed.

Lemma free_single (c : ascii) (s : str) :
  partition [c] s = None -> ~ In c s.
Proof.
  induction s as [|x s IH]; intros P; [intros []|].
  apply partition_None_cons in P as [Hx P].
  intros [->|Hin]; [|now apply IH].
  simpl in Hx; now rewrite Ascii.eqb_refl in Hx.
Qed.

Lemma split_pieces_free (sep s piece : str) :
  sep <> [] -> In piece (split sep s) -> partition sep piece = None.
Proof.
  intros Hsep.
  remember (length s) as n eqn:Hn.
  revert s Hn; induction n as [n IH] using lt_wf_ind; intros s Hn.
  rewrite split_eq by assumption.
  destruct (partition sep s) as [[a b]|] eqn:P.
  - intros [<-|Hin]; [now apply (partition_first sep s a b)|].
    pose proof (partition_shorter _ _ _ _ Hsep P).
    now apply (IH (length b)) with (s := b); [lia| |].
  - now intros [<-|[]].
Qed.

Lemma lines_single (s : str) :
  Forall (fun line => single_line line = true) (split [NL] s).
Proof.
  apply Forall_forall; intros line Hline.
  apply single_line_In, free_single.
  apply (split_pieces_free [NL] s); [discriminate|assumption].
Qed.

Lemma fold_metadata_clean (lines : list str) (md : Metadata) :
  Forall (fun line => single_line line = true) lines ->
  clean_metadata md ->
  clean_metadata (fold_left parse_metadata_line lines md).
Proof.
  intros H; revert md; induction H as [|line lines Hline _ IH]; intros md Hmd;
    [assumption|].
  simpl; apply IH; now apply parse_metadata_line_clean.
Qed.

Lemma default_metadata_clean : clean_metadata default_metadata.
Proof. repeat split; constructor. Qed.

Lemma parse_metadata_clean (sections : list str) :
  clean_metadata (parse_metadata sections).
Proof.
  unfold parse_metadata.
  destruct (find (startswith `"Metadata") sections);
    [|apply default_metadata_clean].
  apply fold_metadata_clean; [apply lines_single|apply default_metadata_clean].
Qed.

(** The shape of every record the parser returns. *)
Lemma parse_readme_shape (content : str) (r : Persona) :
  parse_readme content = Ok r ->
  exists n pr md,
    r = mkPersona (Some n) (Some pr) (Some (md_image md))
          (Some (md_entry_message md)) (Some (md_cartesia_voice_id md))
          (Some (md_gender md)) (Some (md_relevant_links md)) None None
    /\ clean n /\ strip pr = pr /\ contains section_sep pr = false
    /\ clean_metadata md.
Proof.
  unfold parse_readme; cbv zeta.
  set (pre := hd [] (split section_sep content)).
  assert (Hpre : partition section_sep pre = None)
    by (apply hd_split_free; discriminate).
  destruct (split1 [NL; NL] pre) as [|x [|after rest]] eqn:S1;
    try discriminate.
  unfold split1 in S1.
  destruct (partition [NL; NL] pre) as [[a b]|] eqn:P; [|discriminate].
  injection S1 as <- <- <-.
  intros H; injection H as <-.
  eexists _, _, (parse_metadata (split section_sep content)).
  split; [reflexivity|].
  split; [|split; [apply strip_idem|split; [|apply parse_metadata_clean]]].
  - apply clean_strip, single_line_In; intros Hin.
    apply replace_nil_In in Hin; [|discriminate].
    revert Hin; unfold split1.
    destruct (partition [NL] pre) as [[x y]|] eqn:Q; simpl.
    + apply free_single, (partition_first [NL] pre x y); [discriminate|].
      assumption.
    + now apply free_single.
  - apply strip_free.
    apply partition_sound in P.
    apply contains_false in Hpre; rewrite P in Hpre.
    apply (contains_part section_sep (a ++ [NL; NL]) b []).
    now rewrite app_nil_r, <- app_assoc.
Qed.

End Parsed.

(** * Reading a text back from a file *)

Section Newlines.

Import PyStr PyStrFacts.

Context {prompts : Prompts}.

Lemma no_cr_In (s : str) : no_cr s = true <-> ~ In CR s.
Proof.
  unfold no_cr; rewrite negb_true_iff; split.
  - intros H Hin.
    assert (X : existsb (Ascii.eqb CR) s = true); [|congruence].
    apply existsb_exists; exists CR; split; [assumption|apply Ascii.eqb_refl].
  - intros H; destruct (existsb (Ascii.eqb CR) s) eqn:E; [|reflexivity].
    apply existsb_exists in E as (c & Hc & Hn).
    apply Ascii.eqb_eq in Hn; subst c; contradiction.
Qed.

Lemma no_cr_app (a b : str) : no_cr (a ++ b) = no_cr a && no_cr b.
Proof. unfold no_cr; rewrite existsb_app, negb_orb; reflexivity. Qed.

Lemma no_cr_cons (c : ascii) (s : str) :
  no_cr (c :: s) = negb (Ascii.eqb c CR) && no_cr s.
Proof.
  unfold no_cr; cbn [existsb]; rewrite negb_orb.
  now rewrite (Ascii.eqb_sym CR c).
Qed.

Lemma no_cr_incl (s t : str) :
  (forall c, In c s -> In c t) -> no_cr t = true -> no_cr s = true.
Proof.
  intros Hincl Ht; apply no_cr_In; intros Hin.
  apply no_cr_In in Ht; apply Ht, Hincl, Hin.
Qed.

Lemma plain_line_spec (s : str) :
  plain_line s = true <-> single_line s = true /\ no_cr s = true.
Proof. apply andb_true_iff. Qed.

Lemma plain_lines (l : list str) :
  forallb plain_line l = true ->
  forallb single_line l = true /\ forallb no_cr l = true.
Proof.
  induction l as [|x l IH]; [now split|]; cbn [forallb].
  rewrite !andb_true_iff, plain_line_spec; tauto.
Qed.

Lemma no_cr_join (sep : str) (parts : list str) :
  no_cr sep = true -> forallb no_cr parts = true ->
  no_cr (join sep parts) = true.
Proof.
  intros Hsep; induction parts as [|x [|y parts] IH]; cbn [forallb join].
  - reflexivity.
  - now rewrite andb_true_r.
  - intros H; apply andb_true_iff in H as [Hx H].
    rewrite !no_cr_app, Hx, Hsep; apply IH, H.
Qed.

Lemma no_cr_bullets (items : list str) :
  forallb no_cr items = true -> no_cr (bullet_list items) = true.
Proof.
  intros H; apply no_cr_join; [reflexivity|].
  induction items as [|x items IH]; [reflexivity|].
  cbn [forallb map] in *; apply andb_true_iff in H as [Hx H].
  rewrite no_cr_app, Hx; now apply IH.
Qed.

(** ** Universal newlines *)

(** Induction along the cases of [universal_newlines]. *)
Lemma universal_newlines_ind (P : str -> Prop) :
  P [] ->
  (forall c s, Ascii.eqb c CR = false -> P s -> P (c :: s)) ->
  P [CR] ->
  (forall s, P s -> P (CR :: NL :: s)) ->
  (forall c s, Ascii.eqb c NL = false -> P (c :: s) -> P (CR :: c :: s)) ->
  forall s, P s.
Proof.
  intros H0 H1 H2 H3 H4 s.
  remember (length s) as k eqn:Hk.
  revert s Hk; induction k as [k IH] using lt_wf_ind; intros s Hk.
  destruct s as [|c s]; [exact H0|].
  destruct (Ascii.eqb c CR) eqn:E.
  - apply Ascii.eqb_eq in E as ->.
    destruct s as [|c' s]; [exact H2|].
    destruct (Ascii.eqb c' NL) eqn:E'.
    + apply Ascii.eqb_eq in E' as ->.
      apply H3, (IH (length s)); [cbn [length] in Hk; lia|reflexivity].
    + apply H4; [assumption|].
      apply (IH (length (c' :: s))); [cbn [length] in *; lia|reflexivity].
  - apply H1; [assumption|].
    apply (IH (length s)); [cbn [length] in Hk; lia|reflexivity].
Qed.

Lemma universal_newlines_cons (c : ascii) (s : str) :
  Ascii.eqb c CR = false ->
  universal_newlines (c :: s) = c :: universal_newlines s.
Proof. intros E; cbn [universal_newlines]; now rewrite E. Qed.

Lemma universal_newlines_break (c : ascii) (s : str) :
  Ascii.eqb c NL = false ->
  universal_newlines (CR :: c :: s) = NL :: universal_newlines (c :: s).
Proof.
  intros E; change (universal_newlines (CR :: c :: s))
    with (if Ascii.eqb c NL then NL :: universal_newlines s
          else NL :: universal_newlines (c :: s)).
  now rewrite E.
Qed.

(** A text without carriage return is read back as it was written. *)
Lemma universal_newlines_id (s : str) :
  no_cr s = true -> universal_newlines s = s.
Proof.
  induction s as [|c s IH]; [reflexivity|].
  rewrite no_cr_cons, andb_true_iff, negb_true_iff; intros [Hc Hs].
  rewrite universal_newlines_cons by assumption; now rewrite IH.
Qed.

Lemma universal_newlines_app (a b : str) :
  no_cr a = true ->
  universal_newlines (a ++ b) = a ++ universal_newlines b.
Proof.
  induction a as [|c a IH]; [reflexivity|].
  rewrite no_cr_cons, andb_true_iff, negb_true_iff; intros [Hc Ha].
  cbn [app]; rewrite universal_newlines_cons by assumption; now rewrite IH.
Qed.

(** What follows a line feed does not change how the text before it is
    read. *)
Lemma universal_newlines_line (s rest : str) :
  no_cr rest = true ->
  universal_newlines (s ++ NL :: rest)
  = universal_newlines (s ++ [NL]) ++ rest.
Proof.
  intros Hr; induction s as [|c s E IH| |s IH|c s E IH]
    using universal_newlines_ind.
  - cbn [app]; rewrite !universal_newlines_cons by reflexivity.
    now rewrite (universal_newlines_id rest Hr).
  - cbn [app]; rewrite !universal_newlines_cons by assumption.
    now rewrite IH.
  - cbn; now rewrite (universal_newlines_id rest Hr).
  - change (universal_newlines ((CR :: NL :: s) ++ NL :: rest))
      with (NL :: universal_newlines (s ++ NL :: rest)).
    change (universal_newlines ((CR :: NL :: s) ++ [NL]))
      with (NL :: universal_newlines (s ++ [NL])).
    now rewrite IH.
  - cbn [app] in *; rewrite !universal_newlines_break by assumption.
    now rewrite IH.
Qed.

Lemma universal_newlines_last (s : str) :
  exists q, universal_newlines (s ++ [NL]) = q ++ [NL].
Proof.
  induction s as [|c s E IH| |s IH|c s E IH] using universal_newlines_ind.
  - now exists [].
  - destruct IH as (q & IH); exists (c :: q).
    cbn [app]; rewrite universal_newlines_cons by assumption; now rewrite IH.
  - now exists [].
  - destruct IH as (q & IH); exists (NL :: q).
    change (universal_newlines ((CR :: NL :: s) ++ [NL]))
      with (NL :: universal_newlines (s ++ [NL])).
    now rewrite IH.
  - destruct IH as (q & IH); exists (NL :: q).
    cbn [app] in *; rewrite universal_newlines_break by assumption.
    now rewrite IH.
Qed.

Lemma prompt_as_read_line (pr : str) :
  universal_newlines (pr ++ [NL]) = prompt_as_read pr ++ [NL].
Proof.
  unfold prompt_as_read.
  destruct (universal_newlines_last pr) as (q & ->).
  now rewrite removelast_last.
Qed.

(** A prompt without carriage return is read back as it was written. *)
Lemma prompt_as_read_id (pr : str) :
  no_cr pr = true -> prompt_as_read pr = pr.
Proof.
  intros H; unfold prompt_as_read.
  rewrite universal_newlines_id by (now rewrite no_cr_app, H).
  apply removelast_last.
Qed.

(** The README as it is read back: the template filled with the prompt
    as read. *)
Lemma readme_content_read (n pr : str) (md : Metadata) :
  forallb no_cr DEFAULT_CHARACTERISTICS = true ->
  forallb no_cr DEFAULT_VOICE_CHARACTERISTICS = true ->
  no_cr n = true ->
  no_cr (md_image md) = true ->
  no_cr (md_entry_message md) = true ->
  no_cr (md_cartesia_voice_id md) = true ->
  no_cr (md_gender md) = true ->
  no_cr (join `" " (md_relevant_links md)) = true ->
  universal_newlines (readme_content n pr md)
  = readme_content n (prompt_as_read pr) md.
Proof.
  intros Hc Hv Hn Hi He Hvo Hg Hl.
  apply no_cr_bullets in Hc, Hv.
  assert (X : exists tail,
             (forall q, readme_content n q md
                        = (`"# " ++ n ++ [NL; NL]) ++ q ++ NL :: tail)
             /\ no_cr tail = true).
  { eexists; split.
    - intros q; unfold readme_content.
      repeat rewrite <- app_assoc; reflexivity.
    - rewrite no_cr_cons; repeat rewrite no_cr_app.
      now rewrite Hc, Hv, Hn, Hi, He, Hvo, Hg, Hl. }
  destruct X as (tail & E & Ht).
  rewrite !E, universal_newlines_app
    by (rewrite !no_cr_app, Hn; reflexivity).
  rewrite (universal_newlines_line pr tail Ht).
  rewrite prompt_as_read_line.
  repeat rewrite <- app_assoc; reflexivity.
Qed.

(** ** What is parsed from a text without carriage return *)

Lemma token_no_cr (t : str) : no_space t -> no_cr t = true.
Proof.
  intros H; apply no_cr_In; intros Hin.
  unfold no_space in H; rewrite forallb_forall in H.
  specialize (H CR Hin); discriminate.
Qed.

Lemma tokens_no_cr (l : list str) :
  Forall token l -> forallb no_cr l = true.
Proof.
  induction 1 as [|t l [_ Ht] _ IH]; [reflexivity|].
  cbn [forallb]; now rewrite (token_no_cr t Ht).
Qed.

Lemma no_cr_metadata_spec (md : Metadata) :
  no_cr_metadata md = true <->
  no_cr (md_image md) = true /\ no_cr (md_entry_message md) = true
  /\ no_cr (md_cartesia_voice_id md) = true /\ no_cr (md_gender md) = true
  /\ forallb no_cr (md_relevant_links md) = true.
Proof. unfold no_cr_metadata; rewrite !andb_true_iff; tauto. Qed.

Lemma metadata_set_no_cr (key v : str) (md : Metadata) :
  no_cr v = true -> no_cr_metadata md = true ->
  no_cr_metadata (metadata_set key v md) = true.
Proof.
  intros Hv Hmd; apply no_cr_metadata_spec in Hmd.
  destruct Hmd as (Hi & He & Hc & Hg & Hl); unfold metadata_set.
  repeat match goal with
         | |- context [if ?b then _ else _] => destruct b
         end; apply no_cr_metadata_spec; simpl; tauto.
Qed.

Lemma parse_metadata_line_no_cr (md : Metadata) (line : str) :
  no_cr line = true -> no_cr_metadata md = true ->
  no_cr_metadata (parse_metadata_line md line) = true.
Proof.
  intros Hline Hmd; unfold parse_metadata_line.
  destruct (startswith `"- " line); [|assumption].
  unfold split1.
  destruct (partition `": " (skipn 2 line)) as [[key value]|] eqn:P;
    [|assumption].
  destruct (eqb key `"relevant_links").
  - apply no_cr_metadata_spec in Hmd.
    destruct Hmd as (Hi & He & Hc & Hg & Hl).
    apply no_cr_metadata_spec; simpl; repeat (split; [assumption|]).
    apply tokens_no_cr, filter_tokens, split_ws_tokens.
  - apply metadata_set_no_cr; [|assumption].
    apply (no_cr_incl _ line); [|assumption].
    intros c Hc; apply strip_In in Hc; apply (skipn_In 2).
    apply (partition_In _ _ _ _ _ P); now right.
Qed.

Lemma fold_metadata_no_cr (lines : list str) (md : Metadata) :
  Forall (fun line => no_cr line = true) lines ->
  no_cr_metadata md = true ->
  no_cr_metadata (fold_left parse_metadata_line lines md) = true.
Proof.
  intros H; revert md; induction H as [|line lines Hline _ IH]; intros md Hmd;
    [assumption|].
  simpl; apply IH; now apply parse_metadata_line_no_cr.
Qed.

Lemma parse_metadata_no_cr (content : str) :
  no_cr content = true ->
  no_cr_metadata (parse_metadata (split section_sep content)) = true.
Proof.
  intros H; unfold parse_metadata.
  destruct (find (startswith `"Metadata") (split section_sep content))
    as [section|] eqn:F; [|reflexivity].
  apply find_some in F as [F _].
  apply fold_metadata_no_cr; [|reflexivity].
  apply Forall_forall; intros line Hline.
  apply (no_cr_incl _ content); [|assumption].
  intros c Hc; apply (split_In section_sep content c section);
    [discriminate|assumption|].
  now apply (split_In [NL] section c line); [discriminate| |].
Qed.

(** The record parsed from a text without carriage return holds none. *)
Lemma parse_readme_no_cr (content : str) (r : Persona) :
  parse_readme content = Ok r -> no_cr content = true ->
  no_cr (get (name r) []) = true /\ no_cr (get (prompt r) []) = true
  /\ no_cr (get (image r) []) = true
  /\ no_cr (get (entry_message r) []) = true
  /\ no_cr (get (cartesia_voice_id r) []) = true
  /\ no_cr (get (gender r) []) = true
  /\ forallb no_cr (get (relevant_links r) []) = true.
Proof.
  unfold parse_readme; cbv zeta; intros H Hc.
  pose proof (parse_metadata_no_cr content Hc) as M.
  apply no_cr_metadata_spec in M.
  assert (Hpre : forall c, In c (hd [] (split section_sep content)) ->
                           In c content).
  { intros c; apply (split_In section_sep content); [discriminate|].
    pose proof (split_not_nil section_sep content) as N.
    destruct (split section_sep content); [contradiction|now left]. }
  set (pre := hd [] (split section_sep content)) in *.
  destruct (split1 [NL; NL] pre) as [|x [|after rest]] eqn:S1;
    try discriminate.
  injection H as <-.
  cbn [get name prompt image entry_message cartesia_voice_id gender
       relevant_links].
  split; [|split; [|exact M]].
  - apply (no_cr_incl _ content); [|assumption].
    intros c Hin; apply strip_In, replace_nil_In in Hin; [|discriminate].
    apply Hpre; revert Hin; unfold split1.
    destruct (partition [NL] pre) as [[u v]|] eqn:Q; cbn [hd]; [|auto].
    intros Hin; apply (partition_In _ _ _ _ _ Q); now left.
  - apply (no_cr_incl _ content); [|assumption].
    intros c Hin; apply strip_In in Hin; apply Hpre.
    unfold split1 in S1.
    destruct (partition [NL; NL] pre) as [[u v]|] eqn:Q; [|discriminate].
    injection S1 as <- <- <-.
    apply (partition_In _ _ _ _ _ Q); now right.
Qed.

End Newlines.

(** * Saving a persona *)

Section Saving.

Import PyStr PyStrFacts.

Context {prompts : Prompts}.

Lemma lookup_dict_set {A : Type} (k : str) (v : A) (d : dict A) :
  lookup k (dict_set k v d) = Some v.
Proof.
  induction d as [|[k' v'] d IH]; simpl.
  - now rewrite eqb_refl.
  - destruct (eqb k k') eqn:E; simpl.
    + now rewrite eqb_refl.
    + now rewrite E.
Qed.

Lemma replace_title (n : str) :
  contains `"# " n = false -> replace `"# " [] (`"# " ++ n) = n.
Proof.
  intros H; apply contains_false in H; unfold replace.
  rewrite split_eq by discriminate.
  rewrite partition_here by apply startswith_app.
  rewrite skipn_app, skipn_all, Nat.sub_diag; simpl skipn; simpl app.
  now rewrite split_None by (discriminate || assumption).
Qed.

Lemma title_not_heading (n : str) :
  contains `"# " n = false -> startswith `"## " n = false.
Proof.
  intros H; destruct (startswith `"## " n) eqn:E; [|reflexivity].
  apply startswith_spec in E as [t ->].
  assert (X : contains `"# " (`"## " ++ t) = true); [|congruence].
  apply contains_spec; now exists `"#", t.
Qed.

Lemma random_gender (rnd : nat) :
  exists g, random_choice rnd [ `"MALE"; `"FEMALE" ] = Ok g
            /\ (g = `"MALE" \/ g = `"FEMALE").
Proof.
  unfold random_choice; simpl length.
  pose proof (Nat.mod_upper_bound rnd 2) as B.
  destruct (rnd mod 2) as [|[|k]]; [| |lia].
  - exists `"MALE"; split; [reflexivity|now left].
  - exists `"FEMALE"; split; [reflexivity|now right].
Qed.

(** The text [save_persona] writes for a record with a name and a prompt,
    next to a README that parses or next to none. *)
Lemma render_persona_ok (existing : option file) (existing_metadata p : Persona)
    (n pr : str) (rnd : nat) :
  match existing with
  | None => existing_metadata = no_keys
  | Some (Readable text) =>
      exists e, parse_readme text = Ok e
                /\ existing_metadata = existing_metadata_of e
  | Some Unreadable => False
  end ->
  name p = Some n -> prompt p = Some pr ->
  exists g, (g = `"MALE" \/ g = `"FEMALE")
    /\ render_persona existing p rnd =
         Ok (readme_content n pr (merge_metadata p existing_metadata g)).
Proof.
  intros Hex Hn Hpr; destruct (random_gender rnd) as (g & Hg & Hmf).
  exists g; split; [assumption|]; unfold render_persona.
  destruct existing as [[text|]|].
  - destruct Hex as (e & -> & ->); cbn [bind]; rewrite Hg; cbn [bind].
    now rewrite Hn, Hpr.
  - contradiction.
  - subst existing_metadata; cbn [bind]; rewrite Hg; cbn [bind].
    now rewrite Hn, Hpr.
Qed.


Ltac fields :=
  cbn [get name prompt image entry_message cartesia_voice_id gender
       relevant_links additional_content path md_image md_entry_message
       md_cartesia_voice_id md_gender md_relevant_links] in *.

Lemma render_persona_inv (existing : option file) (p : Persona) (n pr : str)
    (rnd : nat) (doc : str) :
  render_persona existing p rnd = Ok doc ->
  name p = Some n -> prompt p = Some pr ->
  exists existing_metadata g,
    doc = readme_content n pr (merge_metadata p existing_metadata g).
Proof.
  unfold render_persona; intros H Hn Hpr.
  match type of H with
  | bind ?x _ = _ => destruct x as [em|]; [|discriminate]
  end.
  cbn [bind] in H.
  destruct (random_choice rnd [ `"MALE"; `"FEMALE" ]) as [g|]; [|discriminate].
  cbn [bind] in H; rewrite Hn, Hpr in H; cbn [bind getitem] in H.
  injection H as <-; now exists em, g.
Qed.

Lemma stripped_line (pr : str) : strip pr = pr -> strip (pr ++ [NL]) = pr.
Proof.
  intros H; rewrite strip_app_space; [assumption|reflexivity].
Qed.

(** C4, amended.  Take a README that parses to a record whose name holds
    no ["# "] and whose prompt does not begin with ["## "], and template
    phrases of one line each.  The text that the save template renders from
    the record parses to the same record: same name, prompt, image,
    entry_message, cartesia_voice_id, gender and relevant_links.  Rendering
    succeeds where there is no README yet. *)
Theorem readme_round_trip (content : str) (r : Persona) (rnd : nat) :
  forallb single_line DEFAULT_CHARACTERISTICS = true ->
  forallb single_line DEFAULT_VOICE_CHARACTERISTICS = true ->
  parse_readme content = Ok r ->
  contains `"# " (get (name r) []) = false ->
  startswith `"## " (get (prompt r) []) = false ->
  (exists doc, render_persona None r rnd = Ok doc)
  /\ (forall existing doc,
        render_persona existing r rnd = Ok doc -> parse_readme doc = Ok r).
Proof.
  intros Hc Hv Hparse Hname Hprompt.
  destruct (parse_readme_shape content r Hparse)
    as (n & pr & md & -> & [Hn Hns] & Hprs & Hprf & Hmd).
  fields.
  split.
  - match goal with
    | |- exists doc, render_persona None ?p rnd = _ =>
        destruct (render_persona_ok None no_keys p n pr rnd
                    eq_refl eq_refl eq_refl) as (g & _ & ->)
    end.
    now eexists.
  - intros existing doc Hdoc.
    destruct (render_persona_inv _ _ n pr _ _ Hdoc eq_refl eq_refl)
      as (em & g & ->).
    destruct md as [i e v g' l]; destruct Hmd as ([Hi His] & [He Hes]
      & [Hvo Hvs] & [Hg Hgs] & Hl); fields.
    unfold merge_metadata; fields.
    rewrite parse_readme_content; fields; try assumption.
    + rewrite (replace_title n Hname), Hns.
      rewrite (prompt_section pr Hprf), (stripped_line pr Hprs).
      rewrite His, Hes, Hvs, Hgs.
      rewrite (split_ws_join_strip l Hl), (filter_truthy_tokens l Hl).
      reflexivity.
    + now apply title_not_heading.
    + now apply plain_prompt_free.
    + apply single_line_In, join_space_NL, Hl.
Qed.


(** C7, amended.  The key has a README that parses; [old] is its text as
    read, which holds no carriage return.  The record saved sets name,
    prompt and image and leaves entry_message, cartesia_voice_id, gender
    and relevant_links out.  Its name and image hold neither line feed nor
    carriage return, and the name does not begin with ["## Metadata"]; its
    prompt, as it is read back from the file (every carriage return a line
    break), does not begin with ["## "] and has no line that begins with
    ["## Metadata"]; the template phrases hold neither line feed nor
    carriage return.  Then the save succeeds, and the README it writes,
    read back, parses to a record with the entry_message,
    cartesia_voice_id, gender and relevant_links of the README that was
    there. *)
Theorem save_persona_keeps_metadata (entries : dict node) (key : str)
    (d : persona_dir) (old : str) (e p : Persona) (n pr i : str)
    (rnd : nat) :
  forallb plain_line DEFAULT_CHARACTERISTICS = true ->
  forallb plain_line DEFAULT_VOICE_CHARACTERISTICS = true ->
  lookup key entries = Some (Dir d) ->
  readme d = Some (Readable old) ->
  no_cr old = true ->
  parse_readme old = Ok e ->
  name p = Some n -> prompt p = Some pr -> image p = Some i ->
  entry_message p = None -> cartesia_voice_id p = None ->
  gender p = None -> relevant_links p = None ->
  plain_line n = true -> startswith `"## Metadata" n = false ->
  plain_prompt (prompt_as_read pr) = true -> plain_line i = true ->
  exists fs' doc r',
    save_persona (Some entries) key p rnd = (true, fs')
    /\ readme_of fs' key = Some doc
    /\ parse_readme (universal_newlines doc) = Ok r'
    /\ entry_message r' = entry_message e
    /\ cartesia_voice_id r' = cartesia_voice_id e
    /\ gender r' = gender e
    /\ relevant_links r' = relevant_links e.
Proof.
  intros Hc Hv Hkey Hreadme Hcr Hold Hn Hpr Hi Hem Hvo Hg Hl Hn1 Hn2 Hpr1
    Hi1.
  apply plain_lines in Hc as [Hc Hc'], Hv as [Hv Hv'].
  apply plain_line_spec in Hn1 as [Hn1 Hn1'], Hi1 as [Hi1 Hi1'].
  pose proof (parse_readme_no_cr old e Hold Hcr)
    as (_ & _ & _ & Ne & Nv & Ng & Nl).
  destruct (parse_readme_shape old e Hold)
    as (n0 & pr0 & md & -> & _ & _ & _ & Hmd).
  destruct md as [i0 e0 v0 g0 l0];
    destruct Hmd as (_ & [He Hes] & [Hvo0 Hvs] & [Hg0 Hgs] & Hl0); fields.
  destruct (render_persona_ok (Some (Readable old)) _ p n pr rnd
              (ex_intro _ _ (conj Hold eq_refl)) Hn Hpr) as (g & _ & Hdoc).
  unfold save_persona; rewrite Hkey, Hreadme, Hdoc.
  eexists _, _, _; split; [reflexivity|].
  split; [unfold readme_of; now rewrite lookup_dict_set|].
  unfold merge_metadata, existing_metadata_of; rewrite Hi, Hem, Hvo, Hg, Hl.
  fields.
  assert (Nj : no_cr (join `" " l0) = true) by now apply no_cr_join.
  rewrite readme_content_read by (fields; assumption).
  rewrite parse_readme_content_metadata; fields; try assumption.
  - split; [reflexivity|]; fields.
    rewrite Hes, Hvs, Hgs.
    now rewrite (split_ws_join_strip l0 Hl0), (filter_truthy_tokens l0 Hl0).
  - apply single_line_In, join_space_NL, Hl0.
Qed.

(** C8, amended.  The key names an entry of the personas directory and
    has no README (no directory, or a directory without one).  The record
    saved has a name and a prompt and no gender.  Its name holds neither
    line feed nor carriage return and does not begin with
    ["## Metadata"]; its prompt, as it is read back from the file (every
    carriage return a line break), does not begin with ["## "] and has no
    line that begins with ["## Metadata"]; the metadata values written
    (those of the record, the defaults for the others) and the template
    phrases hold neither line feed nor carriage return.  Then, whatever
    is drawn, the save succeeds with a gender that is MALE or FEMALE, the
    README written holds it, and that README, read back, parses to a
    record with that gender. *)
Theorem save_persona_draws_gender (entries : dict node) (key : str)
    (p : Persona) (n pr : str) (rnd : nat) :
  forallb plain_line DEFAULT_CHARACTERISTICS = true ->
  forallb plain_line DEFAULT_VOICE_CHARACTERISTICS = true ->
  entry_name key = true ->
  lookup key entries = None
  \/ (exists d, lookup key entries = Some (Dir d) /\ readme d = None) ->
  name p = Some n -> prompt p = Some pr -> gender p = None ->
  plain_line n = true -> startswith `"## Metadata" n = false ->
  plain_prompt (prompt_as_read pr) = true ->
  plain_line (get (image p) []) = true ->
  plain_line (get (entry_message p) DEFAULT_ENTRY_MESSAGE) = true ->
  plain_line (get (cartesia_voice_id p) []) = true ->
  plain_line (join `" " (get (relevant_links p) [])) = true ->
  exists g fs' r',
    (g = `"MALE" \/ g = `"FEMALE")
    /\ save_persona (Some entries) key p rnd = (true, fs')
    /\ readme_of fs' key
       = Some (readme_content n pr (merge_metadata p no_keys g))
    /\ md_gender (merge_metadata p no_keys g) = g
    /\ parse_readme
         (universal_newlines
            (readme_content n pr (merge_metadata p no_keys g)))
       = Ok r'
    /\ gender r' = Some g.
Proof.
  intros Hc Hv _ Hkey Hn Hpr Hg Hn1 Hn2 Hpr1 Hi He Hvo Hl.
  apply plain_lines in Hc as [Hc Hc'], Hv as [Hv Hv'].
  apply plain_line_spec in Hn1 as [Hn1 Hn1'], Hi as [Hi Hi'],
    He as [He He'], Hvo as [Hvo Hvo'], Hl as [Hl Hl'].
  destruct (render_persona_ok None no_keys p n pr rnd eq_refl Hn Hpr)
    as (g & Hmf & Hdoc).
  assert (Hsave : exists fs',
             save_persona (Some entries) key p rnd = (true, fs')
             /\ readme_of fs' key
                = Some (readme_content n pr (merge_metadata p no_keys g))).
  { unfold save_persona.
    destruct Hkey as [Hkey|(d & Hkey & Hreadme)]; rewrite Hkey.
    - cbn [readme]; rewrite Hdoc; eexists; split; [reflexivity|].
      unfold readme_of; now rewrite lookup_dict_set.
    - rewrite Hreadme, Hdoc; eexists; split; [reflexivity|].
      unfold readme_of; now rewrite lookup_dict_set. }
  destruct Hsave as (fs' & Hsave & Hfile).
  assert (Hgender : md_gender (merge_metadata p no_keys g) = g)
    by (unfold merge_metadata; fields; now rewrite Hg).
  assert (G : single_line g = true /\ no_cr g = true)
    by (destruct Hmf as [->| ->]; now split).
  destruct G as [G G'].
  exists g, fs'; eexists; split; [assumption|].
  split; [assumption|]; split; [assumption|]; split; [assumption|].
  rewrite readme_content_read by (rewrite ?Hgender; assumption).
  rewrite parse_readme_content_metadata by (rewrite ?Hgender; assumption).
  split; [reflexivity|]; fields; rewrite Hgender.
  destruct Hmf as [->| ->]; reflexivity.
Qed.

End Saving.

(** * Loading the catalog *)

Section Loading.

Import PyStr PyStrFacts.

Lemma lookup_dict_set_other {A : Type} (k k' : str) (v : A) (d : dict A) :
  k <> k' -> lookup k (dict_set k' v d) = lookup k d.
Proof.
  intros Hk; apply eqb_neq in Hk.
  induction d as [|[k0 v0] d IH]; simpl.
  - now rewrite Hk.
  - destruct (eqb k' k0) eqn:E; simpl.
    + apply eqb_eq in E; subst k0; now rewrite Hk.
    + destruct (eqb k k0); [reflexivity|assumption].
Qed.

Lemma dict_set_In {A : Type} (k k' : str) (v v' : A) (d : dict A) :
  In (k, v) (dict_set k' v' d) -> (k = k' /\ v = v') \/ In (k, v) d.
Proof.
  induction d as [|[k0 v0] d IH]; simpl.
  - intros [H|[]]; injection H as <- <-; now left.
  - destruct (eqb k' k0); simpl.
    + intros [H|H]; [injection H as <- <-; now left|now right; right].
    + intros [H|H]; [now right; left|].
      destruct (IH H) as [?|?]; [now left|now right; right].
Qed.

(** A README without blank-line gap in its preamble does not parse. *)
Lemma parse_readme_no_gap (content : str) :
  contains [NL; NL] (preamble content) = false ->
  parse_readme content = Raise IndexError.
Proof.
  unfold preamble, parse_readme; cbv zeta; intros H.
  apply contains_false in H; unfold split1; now rewrite H.
Qed.

Lemma parse_readme_gap (content : str) :
  contains [NL; NL] (preamble content) = true ->
  exists r, parse_readme content = Ok r.
Proof.
  unfold preamble, parse_readme, contains, split1; cbv zeta; intros H.
  destruct (partition [NL; NL] (hd [] (split section_sep content)))
    as [[a b]|]; [|discriminate].
  now eexists.
Qed.

Lemma load_loop_raise (entries : dict node) (entry : str * node) :
  In entry entries ->
  (forall personas, exists e, load_entry personas entry = Raise e) ->
  forall personas, exists e, load_loop entries personas = Raise e.
Proof.
  intros Hin Hbad; induction entries as [|x entries IH]; [destruct Hin|].
  intros personas; simpl.
  destruct Hin as [->|Hin].
  - destruct (Hbad personas) as (e & ->); now exists e.
  - destruct (load_entry personas x) as [personas'|e]; simpl.
    + now apply IH.
    + now exists e.
Qed.

Lemma load_entry_lookup (personas personas' : dict Persona)
    (entry : str * node) :
  load_entry personas entry = Ok personas' ->
  lookup (fst entry) personas' = loaded personas entry
  /\ forall k, k <> fst entry -> lookup k personas' = lookup k personas.
Proof.
  unfold load_entry, loaded; destruct entry as [k0 [|d]]; simpl.
  - intros H; injection H as <-; now split.
  - destruct (readme d) as [[content|]|].
    + destruct (parse_readme content) as [r|]; simpl; [|discriminate].
      intros H; injection H as <-; split; [apply lookup_dict_set|].
      intros k Hk; now apply lookup_dict_set_other.
    + discriminate.
    + intros H; injection H as <-; now split.
Qed.

Lemma load_loop_lookup (entries : dict node) :
  NoDup (keys entries) ->
  forall personas catalog,
    load_loop entries personas = Ok catalog ->
    (forall entry, In entry entries ->
       lookup (fst entry) catalog = loaded personas entry)
    /\ (forall k, ~ In k (keys entries) ->
          lookup k catalog = lookup k personas).
Proof.
  induction entries as [|x entries IH]; intros Hnd personas catalog.
  - simpl; intros H; injection H as <-; split; [intros ? []|reflexivity].
  - simpl; inversion Hnd as [|? ? Hx Hnd']; subst.
    destruct (load_entry personas x) as [personas'|] eqn:E; [|discriminate].
    simpl; intros H.
    destruct (load_entry_lookup _ _ _ E) as [Hhere Hother].
    destruct (IH Hnd' _ _ H) as [Hin Hout].
    split.
    + intros entry [->|Hentry].
      * now rewrite (Hout _ Hx).
      * rewrite (Hin _ Hentry).
        assert (Hne : fst entry <> fst x).
        { intros Heq; apply Hx; rewrite <- Heq.
          now apply (in_map fst). }
        unfold loaded; rewrite (Hother _ Hne); reflexivity.
    + intros k Hk; rewrite Hout by (intros Hin'; apply Hk; now right).
      apply Hother; intros ->; apply Hk; now left.
Qed.


Lemma load_entry_In (personas personas' : dict Persona) (entry : str * node)
    (k : str) (r : Persona) :
  load_entry personas entry = Ok personas' -> In (k, r) personas' ->
  In (k, r) personas
  \/ exists d content r0,
       entry = (k, Dir d) /\ readme d = Some (Readable content)
       /\ parse_readme content = Ok r0 /\ r = with_additional_content d r0.
Proof.
  unfold load_entry; destruct entry as [k0 [|d]]; simpl.
  - intros H; injection H as <-; now left.
  - destruct (readme d) as [[content|]|] eqn:R.
    + destruct (parse_readme content) as [r0|] eqn:P; simpl; [|discriminate].
      intros H Hin; injection H as <-.
      apply dict_set_In in Hin as [[-> ->]|Hin]; [|now left].
      right; now exists d, content, r0.
    + discriminate.
    + intros H; injection H as <-; now left.
Qed.

Lemma load_loop_In (entries : dict node) (personas catalog : dict Persona)
    (k : str) (r : Persona) :
  load_loop entries personas = Ok catalog -> In (k, r) catalog ->
  In (k, r) personas
  \/ exists d content r0,
       In (k, Dir d) entries /\ readme d = Some (Readable content)
       /\ parse_readme content = Ok r0 /\ r = with_additional_content d r0.
Proof.
  revert personas; induction entries as [|x entries IH]; intros personas.
  - simpl; intros H; injection H as <-; now left.
  - simpl.
    destruct (load_entry personas x) as [personas'|] eqn:E; [|discriminate].
    simpl; intros H Hin.
    destruct (IH _ H Hin) as [Hin'|(d & content & r0 & Hd & Hrest)].
    + destruct (load_entry_In _ _ _ _ _ E Hin')
        as [?|(d & content & r0 & -> & Hrest)]; [now left|].
      right; exists d, content, r0; split; [now left|assumption].
    + right; exists d, content, r0; split; [now right|assumption].
Qed.

Lemma with_additional_content_name (d : persona_dir) (r : Persona) :
  name (with_additional_content d r) = name r
  /\ prompt (with_additional_content d r) = prompt r.
Proof.
  unfold with_additional_content; cbv zeta.
  destruct (truthy (load_additional_content d)); now split.
Qed.

(** C1, amended.  The loop of [load_personas] has no handler of its own.
    A README with no blank line in its preamble (a title and no prompt
    paragraph) makes the parser raise, and the exception leaves
    [load_personas], whatever the other directories hold; so does a
    personas directory that cannot be listed.  When the load does complete,
    the names in the directory being distinct, no README was unreadable,
    what is not a directory and the directories without README have no key,
    and every other directory has the record parsed from its README under
    its name. *)
Theorem load_personas_malformed_readme :
  (forall entries k d content,
     In (k, Dir d) entries -> readme d = Some (Readable content) ->
     contains [NL; NL] (preamble content) = false ->
     exists e, load_personas (Some entries) = Raise e)
  /\ load_personas None = Raise OSError
  /\ (forall entries catalog,
        NoDup (keys entries) -> load_personas (Some entries) = Ok catalog ->
        forall k nd, In (k, nd) entries ->
          match nd with
          | File => lookup k catalog = None
          | Dir d =>
              match readme d with
              | None => lookup k catalog = None
              | Some Unreadable => False
              | Some (Readable content) =>
                  exists r, parse_readme content = Ok r
                    /\ lookup k catalog = Some (with_additional_content d r)
              end
          end).
Proof.
  split; [|split; [reflexivity|]].
  - intros entries k d content Hin Hreadme Hgap; simpl.
    apply (load_loop_raise entries (k, Dir d) Hin).
    intros personas; exists IndexError.
    unfold load_entry; simpl; rewrite Hreadme.
    now rewrite (parse_readme_no_gap content Hgap).
  - intros entries catalog Hnd Hload k nd Hin; simpl in Hload.
    destruct (load_loop_lookup entries Hnd _ _ Hload) as [Hlook _].
    specialize (Hlook _ Hin); unfold loaded in Hlook.
    destruct nd as [|d]; simpl in Hlook; [assumption|].
    destruct (readme d) as [[content|]|] eqn:R; simpl in Hlook.
    3: assumption.
    + destruct (parse_readme content) as [r|e] eqn:P; [now exists r|].
      exfalso.
      destruct (load_loop_raise entries (k, Dir d) Hin)
        with (personas := @nil (str * Persona))
        as (e' & He'); [|congruence].
      intros personas; exists e; unfold load_entry; simpl.
      now rewrite R, P.
    + destruct (load_loop_raise entries (k, Dir d) Hin)
        with (personas := @nil (str * Persona))
        as (e' & He'); [|congruence].
      intros personas; exists OSError; unfold load_entry; simpl.
      now rewrite R.
Qed.

(** C2, amended.  Every record stored by a load that completes was parsed
    from the README of the directory named by its key; it has a name and a
    prompt, each without white space at its ends.  Neither is checked for
    being empty. *)
Theorem load_personas_records (fs : FS) (catalog : dict Persona) (k : str)
    (r : Persona) :
  load_personas fs = Ok catalog -> In (k, r) catalog ->
  exists entries d content r0 n pr,
    fs = Some entries /\ In (k, Dir d) entries
    /\ readme d = Some (Readable content)
    /\ parse_readme content = Ok r0
    /\ r = with_additional_content d r0
    /\ name r = Some n /\ prompt r = Some pr
    /\ strip n = n /\ strip pr = pr.
Proof.
  destruct fs as [entries|]; [|discriminate]; simpl; intros Hload Hin.
  destruct (load_loop_In _ _ _ _ _ Hload Hin)
    as [[]|(d & content & r0 & Hd & Hreadme & Hparse & ->)].
  destruct (parse_readme_shape content r0 Hparse)
    as (n & pr & md & Hr0 & [_ Hn] & Hpr & _ & _).
  destruct (with_additional_content_name d r0) as [-> ->].
  subst r0; eexists entries, d, content, _, n, pr.
  repeat (split; [eassumption || reflexivity|]); assumption.
Qed.

End Loading.

(** * The manager after [__init__] *)

Section Init.

Import PyStr PyStrFacts.

Lemma lookup_combine_seq {A : Type} (d : dict A) (n : nat) (k : str)
    (a : nat) :
  lookup k (combine (keys d) (seq n (length d))) = Some a ->
  exists i v,
    a = n + i /\ lookup k d = Some v /\ nth_error (values d) i = Some v.
Proof.
  revert n; induction d as [|[k' v] d IH]; intros n; simpl; [discriminate|].
  destruct (eqb k k').
  - intros H; injection H as <-; exists 0, v; repeat split; lia.
  - intros H; destruct (IH _ H) as (i & v' & -> & Hv' & Hnth).
    exists (S i), v'; repeat split; [lia|assumption|assumption].
Qed.

Lemma lookup_In_pair {A : Type} (k : str) (d : dict A) (v : A) :
  lookup k d = Some v -> In (k, v) d.
Proof.
  induction d as [|[k' v'] d IH]; simpl; [discriminate|].
  destruct (eqb k k') eqn:E; [|intros H; right; now apply IH].
  apply eqb_eq in E; subst k'; intros H; injection H as ->; now left.
Qed.

(** Every key of a manager built by [__init__] is the name of a directory
    with a README, and the object it points to is the record parsed from
    that README: it has a name and a prompt. *)
Lemma init_records (dir : str) (fs : FS) (m : PersonaManager) (k : str)
    (a : addr) :
  init dir fs = Ok m -> lookup k (personas m) = Some a ->
  exists entries d n p,
    fs = Some entries /\ In (k, Dir d) entries
    /\ name (deref (objects m) a) = Some n
    /\ prompt (deref (objects m) a) = Some p.
Proof.
  unfold init; destruct (load_personas fs) as [catalog|] eqn:L;
    [|discriminate].
  cbn [bind]; intros H; injection H as <-; cbn [personas objects].
  intros Hk; apply lookup_combine_seq in Hk as (i & r & -> & Hr & Hnth).
  unfold deref; rewrite (nth_error_nth _ _ _ Hnth).
  destruct fs as [entries|]; [|discriminate].
  destruct (load_loop_In _ _ _ _ _ L (lookup_In_pair _ _ _ Hr))
    as [[]|(d & content & r0 & Hd & _ & Hparse & ->)].
  destruct (parse_readme_shape content r0 Hparse)
    as (n & p & md & -> & _).
  destruct (with_additional_content_name d
              (mkPersona (Some n) (Some p) (Some (md_image md))
                 (Some (md_entry_message md))
                 (Some (md_cartesia_voice_id md)) (Some (md_gender md))
                 (Some (md_relevant_links md)) None None)) as [-> ->].
  now exists entries, d, n, p.
Qed.

End Init.

(** * Looking a persona up *)

Section Lookup.

Import PyStr PyStrFacts.

Context {prompts : Prompts}.

(** ** The store *)

Lemma deref_last (h : store) (x : Persona) : deref (h ++ [x]) (length h) = x.
Proof. unfold deref; now rewrite nth_middle. Qed.

Lemma deref_old (h : store) (x : Persona) (a : addr) :
  a < length h -> deref (h ++ [x]) a = deref h a.
Proof. intros H; unfold deref; now rewrite app_nth1. Qed.

Lemma store_set_last (h : store) (x y : Persona) :
  store_set (length h) y (h ++ [x]) = h ++ [y].
Proof. induction h as [|z h IH]; simpl; [reflexivity|now f_equal]. Qed.

Lemma setitem_last (f : Persona -> Persona) (h : store) (x : Persona) :
  setitem f (length h) (h ++ [x]) = h ++ [f x].
Proof. unfold setitem; now rewrite deref_last, store_set_last. Qed.

(** An address that holds a prompt is an address of the store. *)
Lemma deref_valid (h : store) (a : addr) (p : str) :
  prompt (deref h a) = Some p -> a < length h.
Proof.
  intros H; destruct (Nat.lt_ge_cases a (length h)) as [L|L]; [assumption|].
  unfold deref in H; rewrite nth_overflow in H by assumption; discriminate.
Qed.

(** ** The returned dict, once the stored one is chosen *)

Lemma get_persona_selected (m : PersonaManager) (query : option str)
    (rnd : nat) (a : addr) (p key : str) :
  select_persona m query rnd = Ok a ->
  prompt (deref (objects m) a) = Some p ->
  match given query with
  | Some s => key = folder_name_of s
  | None => exists n, name (deref (objects m) a) = Some n
                      /\ key = folder_name_of n
  end ->
  get_persona m query rnd =
    Ok (length (objects m),
        mkManager (personas_dir m)
          (objects m
           ++ [delivered (deref (objects m) a) p
                 (path_join (personas_dir m) key)])
          (personas m)).
Proof.
  intros Hsel Hp Hkey; unfold get_persona; rewrite Hsel; cbn [bind].
  unfold copy; cbv iota beta.
  set (r := deref (objects m) a) in *.
  rewrite deref_last.
  assert (E : (if negb (truthy (get (image r) []))
               then setitem (set_image []) (length (objects m))
                      (objects m ++ [r])
               else objects m ++ [r])
              = objects m ++ [set_image (get (image r) []) r]).
  { destruct r as [n0 p0 [i0|] e0 v0 g0 l0 a0 pa0]; cbn [image get].
    - destruct i0; cbn [truthy negb]; [now rewrite setitem_last|reflexivity].
    - cbn [truthy negb]; now rewrite setitem_last. }
  rewrite E, deref_last.
  cbn [set_image prompt]; rewrite Hp; cbn [bind getitem].
  rewrite setitem_last.
  destruct (given query) as [s|].
  - subst key; cbn [bind]; rewrite setitem_last; reflexivity.
  - destruct Hkey as (n & Hn & ->); rewrite deref_last.
    cbn [set_prompt set_image name]; rewrite Hn; cbn [bind getitem].
    rewrite setitem_last; reflexivity.
Qed.


(** ** Sets of words *)

Lemma to_set_In (x : str) (l : list str) : In x (to_set l) <-> In x l.
Proof.
  induction l as [|y l IH]; simpl; [tauto|].
  rewrite filter_In, IH; split.
  - intros [H|[H _]]; [now left|now right].
  - intros [H|H]; [now left|].
    destruct (eqb y x) eqn:E.
    + apply eqb_eq in E; now left.
    + right; split; [assumption|reflexivity].
Qed.

Lemma to_set_NoDup (l : list str) : NoDup (to_set l).
Proof.
  induction l as [|y l IH]; simpl; constructor.
  - rewrite filter_In; intros [_ H]; cbv beta in H.
    now rewrite eqb_refl in H.
  - now apply NoDup_filter.
Qed.

Lemma inter_size_0 (a b : list str) :
  (forall w, In w a -> ~ In w b) -> inter_size a b = 0.
Proof.
  unfold inter_size; induction a as [|x a IH]; intros H; [reflexivity|].
  simpl; destruct (mem x b) eqn:E.
  - apply mem_In in E; exfalso; apply (H x); [now left|assumption].
  - apply IH; intros w Hw; apply H; now right.
Qed.

(** White-space tokens are not empty, so the empty key shares no word
    with a query. *)
Lemma overlap_empty_key (s : str) : overlap_of (query_words s) [] = 0.
Proof.
  apply inter_size_0; intros w Hw Hin.
  unfold query_words in Hw; apply (proj1 (to_set_In _ _)) in Hw.
  apply (proj1 (to_set_In _ _)) in Hin; destruct Hin as [<-|[]].
  pose proof (split_ws_tokens (lower s)) as T.
  apply (proj1 (Forall_forall _ _) T) in Hw as [Hne _]; now apply Hne.
Qed.

(** ** The scan for the closest key *)

Lemma closest_keep (words : list str) (l : list str) (best : option str * nat) :
  (forall k, In k l -> overlap_of words k <= snd best) ->
  fold_left (closest_step words) l best = best.
Proof.
  induction l as [|k l IH]; intros H; [reflexivity|]; simpl.
  unfold closest_step at 2.
  assert (E : (snd best <? overlap_of words k) = false)
    by (apply Nat.ltb_ge, H; now left).
  rewrite E; apply IH; intros k' Hk'; apply H; now right.
Qed.

Lemma closest_below (words : list str) (l : list str)
    (best : option str * nat) (bound : nat) :
  snd best < bound ->
  (forall k, In k l -> overlap_of words k < bound) ->
  snd (fold_left (closest_step words) l best) < bound.
Proof.
  revert best; induction l as [|k l IH]; intros best Hb H; [assumption|].
  simpl; apply IH; [|intros k' Hk'; apply H; now right].
  unfold closest_step.
  destruct (snd best <? overlap_of words k); [|assumption].
  simpl; apply H; now left.
Qed.

(** The scan returns the first key among those of largest overlap. *)
Lemma closest_first (words : list str) (l1 : list str) (k : str)
    (l2 : list str) :
  (forall k', In k' l1 -> overlap_of words k' < overlap_of words k) ->
  (forall k', In k' l2 -> overlap_of words k' <= overlap_of words k) ->
  1 <= overlap_of words k ->
  closest words (l1 ++ k :: l2) = (Some k, overlap_of words k).
Proof.
  intros H1 H2 Hk; unfold closest; rewrite fold_left_app; simpl.
  assert (B : snd (fold_left (closest_step words) l1 (None, 0))
              < overlap_of words k)
    by (apply closest_below; [simpl; lia|assumption]).
  unfold closest_step at 2.
  apply Nat.ltb_lt in B; rewrite B.
  now apply closest_keep.
Qed.

Lemma closest_none (words : list str) (l : list str) :
  (forall k, In k l -> overlap_of words k = 0) ->
  closest words l = (None, 0).
Proof.
  intros H; apply closest_keep; intros k Hk; simpl; rewrite (H k Hk); lia.
Qed.

Lemma lookup_In {A : Type} (k : str) (d : dict A) (v : A) :
  lookup k d = Some v -> In k (keys d).
Proof.
  induction d as [|[k' v'] d IH]; simpl; [discriminate|].
  destruct (eqb k k') eqn:E; [|intros H; right; now apply IH].
  apply eqb_eq in E; now left.
Qed.

Lemma lookup_middle {A : Type} (k : str) (d1 d2 : dict A) (v : A) :
  ~ In k (keys d1) -> lookup k (d1 ++ (k, v) :: d2) = Some v.
Proof.
  induction d1 as [|[k' v'] d1 IH]; simpl; intros H.
  - now rewrite eqb_refl.
  - destruct (eqb k k') eqn:E.
    + apply eqb_eq in E; exfalso; apply H; now left.
    + apply IH; intros Hin; apply H; now right.
Qed.

Lemma given_Some (s : str) : s <> [] -> given (Some s) = Some s.
Proof. destruct s; [contradiction|reflexivity]. Qed.

Lemma query_words_nil : query_words [] = [].
Proof. reflexivity. Qed.


Lemma substring_of_join (sep k : str) (ks : list str) :
  In k ks -> exists x y, join sep ks = x ++ k ++ y.
Proof.
  induction ks as [|k' ks IH]; [intros []|].
  intros [->|Hin].
  - destruct ks as [|k'' ks].
    + exists [], []; simpl; now rewrite app_nil_r.
    + exists [], (sep ++ join sep (k'' :: ks)); reflexivity.
  - destruct (IH Hin) as (x & y & E).
    destruct ks as [|k'' ks]; [destruct Hin|].
    exists (k' ++ sep ++ x), y.
    change (join sep (k' :: k'' :: ks))
      with (k' ++ sep ++ join sep (k'' :: ks)).
    now rewrite E, <- !app_assoc.
Qed.

(** C5.  The folder name of the query is not a key, and the key [k]
    shares at least one word with the query, more words than every key
    enumerated before it and no fewer than every key enumerated after it.
    Then [get_persona] hands out the record stored under [k]: a copy with
    the instructions after its prompt.  With the keys a_b and a_c, in that
    order, the query a is answered with the record of a_b. *)
Theorem get_persona_closest_match :
  (forall (m : PersonaManager) (q : str) (d1 : dict addr) (k : str)
          (a : addr) (d2 : dict addr) (p : str) (rnd : nat),
     lookup (folder_name_of q) (personas m) = None ->
     personas m = d1 ++ (k, a) :: d2 ->
     (forall k', In k' (keys d1) ->
        overlap_of (query_words q) k' < overlap_of (query_words q) k) ->
     (forall k', In k' (keys d2) ->
        overlap_of (query_words q) k' <= overlap_of (query_words q) k) ->
     1 <= overlap_of (query_words q) k ->
     prompt (deref (objects m) a) = Some p ->
     get_persona m (Some q) rnd =
       Ok (length (objects m),
           mkManager (personas_dir m)
             (objects m
              ++ [delivered (deref (objects m) a) p
                    (path_join (personas_dir m) (folder_name_of q))])
             (personas m)))
  /\ (forall (dir : str) (ra rb : Persona) (p : str) (rnd : nat),
        prompt ra = Some p ->
        get_persona
          (mkManager dir [ra; rb] [ (`"a_b", 0); (`"a_c", 1) ])
          (Some `"a") rnd =
          Ok (2,
              mkManager dir
                [ra; rb; delivered ra p (path_join dir `"a")]
                [ (`"a_b", 0); (`"a_c", 1) ])).
Proof.
  assert (G : forall (m : PersonaManager) (q : str) (d1 : dict addr) (k : str)
          (a : addr) (d2 : dict addr) (p : str) (rnd : nat),
     lookup (folder_name_of q) (personas m) = None ->
     personas m = d1 ++ (k, a) :: d2 ->
     (forall k', In k' (keys d1) ->
        overlap_of (query_words q) k' < overlap_of (query_words q) k) ->
     (forall k', In k' (keys d2) ->
        overlap_of (query_words q) k' <= overlap_of (query_words q) k) ->
     1 <= overlap_of (query_words q) k ->
     prompt (deref (objects m) a) = Some p ->
     get_persona m (Some q) rnd =
       Ok (length (objects m),
           mkManager (personas_dir m)
             (objects m
              ++ [delivered (deref (objects m) a) p
                    (path_join (personas_dir m) (folder_name_of q))])
             (personas m))).
  { intros m q d1 k a d2 p rnd Hexact Hm H1 H2 Hk Hp.
    assert (Hq : q <> []).
    { intros ->; rewrite query_words_nil in Hk.
      change (overlap_of [] k) with 0 in Hk; lia. }
    assert (Hkne : k <> []).
    { intros ->; rewrite overlap_empty_key in Hk; lia. }
    apply get_persona_selected; [|assumption|now rewrite given_Some].
    unfold select_persona; rewrite (given_Some q Hq), Hexact.
    rewrite Hm.
    replace (keys (d1 ++ (k, a) :: d2)) with (keys d1 ++ k :: keys d2)
      by (unfold keys; now rewrite map_app).
    rewrite (closest_first _ _ _ _ H1 H2 Hk).
    apply Nat.leb_le in Hk; rewrite Hk.
    destruct k; [contradiction|]; cbn [truthy andb].
    rewrite lookup_middle; [reflexivity|].
    intros Hin; specialize (H1 _ Hin); lia. }
  split; [exact G|].
  intros dir ra rb p rnd Hp.
  apply (G (mkManager dir [ra; rb] [ (`"a_b", 0); (`"a_c", 1) ]) `"a"
           [] `"a_b" 0 [ (`"a_c", 1) ] p rnd); try reflexivity.
  - intros k' [].
  - intros k' [<-|[]]; vm_compute; lia.
  - exact Hp.
Qed.


Lemma folder_name_nil : folder_name_of [] = [].
Proof. reflexivity. Qed.

Lemma get_persona_exact (m : PersonaManager) (q : str) (a : addr) (p : str)
    (rnd : nat) :
  ~ In [] (keys (personas m)) ->
  lookup (folder_name_of q) (personas m) = Some a ->
  prompt (deref (objects m) a) = Some p ->
  get_persona m (Some q) rnd =
    Ok (length (objects m),
        mkManager (personas_dir m)
          (objects m
           ++ [delivered (deref (objects m) a) p
                 (path_join (personas_dir m) (folder_name_of q))])
          (personas m)).
Proof.
  intros Hkeys Hexact Hp.
  assert (Hq : q <> []).
  { intros ->; rewrite folder_name_nil in Hexact.
    apply Hkeys, (lookup_In _ _ _ Hexact). }
  apply get_persona_selected; [|assumption|now rewrite given_Some].
  unfold select_persona; now rewrite (given_Some q Hq), Hexact.
Qed.

(** C6.  The folder name of the query is a key of the catalog (keys are
    directory names: none is empty), and the record stored under it has a
    prompt.  Then [get_persona] hands out a dict with the name of the
    stored record and with its prompt followed by the instructions, once;
    the catalog and the stored record are as before, and a second call
    returns the same prompt again. *)
Theorem get_persona_existing_key (m : PersonaManager) (q : str) (a : addr)
    (r : Persona) (p : str) (rnd rnd' : nat) :
  ~ In [] (keys (personas m)) ->
  lookup (folder_name_of q) (personas m) = Some a ->
  deref (objects m) a = r ->
  prompt r = Some p ->
  exists a' m',
    get_persona m (Some q) rnd = Ok (a', m')
    /\ name (deref (objects m') a') = name r
    /\ prompt (deref (objects m') a')
       = Some (p ++ PERSONA_INTERACTION_INSTRUCTIONS)
    /\ personas m' = personas m
    /\ deref (objects m') a = r
    /\ exists a'' m'',
         get_persona m' (Some q) rnd' = Ok (a'', m'')
         /\ prompt (deref (objects m'') a'')
            = Some (p ++ PERSONA_INTERACTION_INSTRUCTIONS)
         /\ deref (objects m'') a = r.
Proof.
  intros Hkeys Hexact Hr Hp; subst r.
  pose proof (deref_valid _ _ _ Hp) as Ha.
  eexists _, _; split; [exact (get_persona_exact m q a p rnd Hkeys Hexact Hp)|].
  cbn [objects personas]; rewrite deref_last.
  split; [reflexivity|]; split; [reflexivity|]; split; [reflexivity|].
  split; [now apply deref_old|].
  set (m' := mkManager _ _ _).
  assert (Hold : deref (objects m') a = deref (objects m) a)
    by now apply deref_old.
  eexists _, _; split.
  - apply (get_persona_exact m' q a p rnd'); [assumption|assumption|].
    rewrite Hold; exact Hp.
  - cbn [objects]; rewrite deref_last; split; [reflexivity|].
    rewrite deref_old; [assumption|].
    subst m'; cbn [objects]; rewrite length_app; simpl; lia.
Qed.

(** C9, amended.  The query is not empty, its folder name is not a key,
    and none of its words is a word of a key.  Then [get_persona] raises
    KeyError, with a message in which every key of the catalog occurs. *)
Theorem get_persona_not_found (m : PersonaManager) (q : str) (rnd : nat) :
  q <> [] ->
  lookup (folder_name_of q) (personas m) = None ->
  (forall k w, In k (keys (personas m)) ->
     In w (split_ws (lower q)) -> In w (split `"_" k) -> False) ->
  get_persona m (Some q) rnd
  = Raise (KeyError (not_found_message q (keys (personas m))))
  /\ forall k, In k (keys (personas m)) ->
       exists x y, not_found_message q (keys (personas m)) = x ++ k ++ y.
Proof.
  intros Hq Hexact Hdisjoint; split.
  - unfold get_persona, select_persona.
    rewrite (given_Some q Hq), Hexact, closest_none; [reflexivity|].
    intros k Hk; apply inter_size_0; intros w Hw Hin.
    apply (Hdisjoint k w Hk).
    + now apply (proj1 (to_set_In _ _)) in Hw.
    + now apply (proj1 (to_set_In _ _)) in Hin.
  - intros k Hk; destruct (substring_of_join `", " k _ Hk) as (x & y & E).
    unfold not_found_message; rewrite E.
    exists (`"Persona '" ++ q ++ `"' not found. Valid options: " ++ x), y.
    now rewrite <- !app_assoc.
Qed.

(** C10.  [needs_image_upload] is false for a key that is not in the
    catalog; for a key that is, it is true exactly when the stored image is
    empty (or missing) or does not hold the domain. *)
Theorem needs_image_upload_spec (m : PersonaManager) (key domain : str) :
  (lookup key (personas m) = None ->
   needs_image_upload m key domain = false)
  /\ (forall a, lookup key (personas m) = Some a ->
        let current_url := get (image (deref (objects m) a)) [] in
        needs_image_upload m key domain = true
        <-> (current_url = []
             \/ ~ exists x y, current_url = x ++ domain ++ y)).
Proof.
  unfold needs_image_upload; split.
  - now intros ->.
  - intros a ->; cbv zeta.
    set (url := get (image (deref (objects m) a)) []).
    rewrite negb_true_iff, andb_false_iff; split.
    + intros [H|H].
      * left; destruct url; [reflexivity|discriminate].
      * right; intros Hsub; apply contains_spec in Hsub; congruence.
    + intros [->|H]; [now left|right].
      destruct (contains domain url) eqn:E; [|reflexivity].
      exfalso; apply H; now apply contains_spec.
Qed.

End Lookup.

(** * Further properties of the manager *)

Ltac fields :=
  cbn [get name prompt image entry_message cartesia_voice_id gender
       relevant_links additional_content path md_image md_entry_message
       md_cartesia_voice_id md_gender md_relevant_links] in *.

(** * The outcomes of the parser *)

Section ParseOutcome.

Import PyStr PyStrFacts.

(** X1.  The two outcomes of [parse_readme].  It raises, and then
    IndexError, exactly when the text before the first section heading has
    no blank line.  Otherwise it returns a record with the seven keys name,
    prompt, image, entry_message, cartesia_voice_id, gender and
    relevant_links and no other: the name and the four metadata strings are
    single lines without white space at their ends, the prompt has no white
    space at its ends and no section heading, and every link is a word that
    is not empty and holds no white space. *)
Theorem parse_readme_outcome (content : str) :
  match parse_readme content with
  | Ok r =>
      contains [NL; NL] (preamble content) = true
      /\ exists n pr i e v g links,
           r = mkPersona (Some n) (Some pr) (Some i) (Some e) (Some v)
                 (Some g) (Some links) None None
           /\ clean n /\ strip pr = pr /\ contains section_sep pr = false
           /\ clean i /\ clean e /\ clean v /\ clean g
           /\ Forall token links
  | Raise e =>
      e = IndexError /\ contains [NL; NL] (preamble content) = false
  end.
Proof.
  destruct (contains [NL; NL] (preamble content)) eqn:G.
  - destruct (parse_readme_gap content G) as (r & P); rewrite P.
    split; [reflexivity|].
    destruct (parse_readme_shape content r P)
      as (n & pr & [i e v g l] & -> & Hn & Hpr & Hfree & Hmd).
    destruct Hmd as (Hi & He & Hv & Hg & Hl); fields.
    now exists n, pr, i, e, v, g, l.
  - rewrite (parse_readme_no_gap content G); now split.
Qed.

End ParseOutcome.

(** * The additional content of a persona *)

Section AdditionalContent.

Import PyStr PyStrFacts.

Lemma additional_blocks_unreadable (before after : list (str * file))
    (fname : str) :
  mem fname skip_files = false ->
  additional_blocks (before ++ (fname, Unreadable) :: after)
  = additional_blocks before.
Proof.
  intros Hskip; induction before as [|[f x] before IH];
    cbn [app additional_blocks].
  - now rewrite Hskip.
  - destruct (mem f skip_files); [assumption|].
    destruct x as [text|]; [|reflexivity].
    destruct (truthy (strip text)); [now rewrite IH|assumption].
Qed.

Lemma additional_blocks_head (files : list (str * file)) :
  Forall (fun b => startswith `"# Content from " b = true)
    (additional_blocks files).
Proof.
  induction files as [|[f x] files IH]; cbn [additional_blocks];
    [constructor|].
  destruct (mem f skip_files); [assumption|].
  destruct x as [text|]; [|constructor].
  destruct (truthy (strip text)); [|assumption].
  constructor; [|assumption].
  apply (startswith_app `"# Content from ").
Qed.

Lemma join_head (sep p b : str) (rest : list str) :
  startswith p b = true -> startswith p (join sep (b :: rest)) = true.
Proof.
  intros H; destruct rest; simpl; [assumption|].
  now apply startswith_weaken.
Qed.

Lemma load_additional_content_head (d : persona_dir) :
  load_additional_content d = []
  \/ startswith `"# Content from " (load_additional_content d) = true.
Proof.
  unfold load_additional_content.
  pose proof (additional_blocks_head (md_files d)) as H.
  destruct (additional_blocks (md_files d)) as [|b rest]; [now left|right].
  apply join_head; now inversion H.
Qed.

(** X2.  A markdown file that cannot be read ends the collection of
    additional content without an error: the blocks of the files listed
    before it are kept, the files listed after it are not read. *)
Theorem load_additional_content_unreadable (r : option file)
    (before after : list (str * file)) (fname : str) :
  mem fname skip_files = false ->
  load_additional_content (mkDir r (before ++ (fname, Unreadable) :: after))
  = load_additional_content (mkDir r before).
Proof.
  intros H; unfold load_additional_content; cbn [md_files].
  now rewrite additional_blocks_unreadable.
Qed.

(** X3.  A record of a loaded catalog has no path, and its
    additional_content is never the empty string: the key is missing when
    the directory yields no block; otherwise the value is what
    [load_additional_content] returns for the directory, and it starts with
    ["# Content from "]. *)
Theorem load_personas_additional_content (fs : FS) (catalog : dict Persona)
    (k : str) (r : Persona) :
  load_personas fs = Ok catalog -> In (k, r) catalog ->
  exists entries d,
    fs = Some entries /\ In (k, Dir d) entries
    /\ path r = None
    /\ match additional_content r with
       | None => load_additional_content d = []
       | Some c =>
           c = load_additional_content d /\ c <> []
           /\ startswith `"# Content from " c = true
       end.
Proof.
  intros Hload Hin; destruct fs as [entries|]; [|discriminate].
  simpl in Hload.
  destruct (load_loop_In entries [] catalog k r Hload Hin)
    as [[]|(d & content & r0 & Hd & Hreadme & Hparse & ->)].
  exists entries, d; split; [reflexivity|]; split; [assumption|].
  destruct (parse_readme_shape content r0 Hparse)
    as (n & pr & md & -> & _).
  unfold with_additional_content.
  destruct (load_additional_content_head d) as [E|E].
  - rewrite E; simpl; now split.
  - destruct (load_additional_content d) as [|c s] eqn:L; [discriminate|].
    simpl; split; [reflexivity|]; split; [reflexivity|].
    split; [discriminate|assumption].
Qed.

End AdditionalContent.

(** * Images and display names *)

Section Catalog.

Import PyStr PyStrFacts.

Context {prompts : Prompts}.

Lemma lookup_map_snd {A B : Type} (f : A -> B) (k : str) (d : dict A) :
  lookup k (map (fun item => (fst item, f (snd item))) d)
  = option_map f (lookup k d).
Proof.
  induction d as [|[k' v] d IH]; simpl; [reflexivity|].
  now destruct (eqb k k').
Qed.

Lemma deref_store_set (h : store) (a : addr) (v : Persona) :
  a < length h -> deref (store_set a v h) a = v.
Proof.
  revert a; induction h as [|x h IH]; intros [|a] L; simpl in *;
    try lia; [reflexivity|].
  apply IH; lia.
Qed.

Lemma deref_store_set_other (h : store) (a a' : addr) (v : Persona) :
  a' <> a -> deref (store_set a v h) a' = deref h a'.
Proof.
  revert a a'; induction h as [|x h IH]; intros [|a] [|a'] N;
    try reflexivity; try contradiction.
  apply (IH a a'); congruence.
Qed.

Lemma store_set_length (h : store) (a : addr) (v : Persona) :
  length (store_set a v h) = length h.
Proof.
  revert a; induction h as [|x h IH]; intros [|a]; simpl; auto.
Qed.

(** X4.  [get_image_urls] has the keys of the catalog, in its order, and
    [needs_image_upload] decides on the image that [get_image_urls] gives
    for the key: False for a key without entry, otherwise true exactly when
    that image is empty or does not hold the domain. *)
Theorem needs_image_upload_get_image_urls (m : PersonaManager)
    (key domain : str) :
  keys (get_image_urls m) = keys (personas m)
  /\ needs_image_upload m key domain
     = match lookup key (get_image_urls m) with
       | Some url => negb (truthy url && contains domain url)
       | None => false
       end.
Proof.
  split.
  - unfold get_image_urls, keys; rewrite map_map; reflexivity.
  - unfold needs_image_upload, get_image_urls.
    rewrite (lookup_map_snd (fun a => get (image (deref (objects m) a)) [])).
    now destruct (lookup key (personas m)).
Qed.

(** X5.  [update_persona_image] for a key of the catalog changes the
    stored record before it saves, and keeps the change whatever the save
    returns: afterwards the image of the key is the new one in
    [get_image_urls], [needs_image_upload] answers for the new image, the
    catalog has the same keys and the other objects are as before.  With a
    personas directory that is missing the call returns False all the
    same. *)
Theorem update_persona_image_in_memory (m : PersonaManager) (fs : FS)
    (key url : str) (rnd : nat) (a : addr) :
  lookup key (personas m) = Some a -> a < length (objects m) ->
  exists saved m' fs',
    update_persona_image m fs key url rnd = (saved, m', fs')
    /\ personas m' = personas m
    /\ image (deref (objects m') a) = Some url
    /\ lookup key (get_image_urls m') = Some url
    /\ (forall domain,
          needs_image_upload m' key domain
          = negb (truthy url && contains domain url))
    /\ (forall a', a' <> a -> deref (objects m') a' = deref (objects m) a')
    /\ (fs = None -> saved = false /\ fs' = None).
Proof.
  intros Hkey Ha; unfold update_persona_image; rewrite Hkey.
  destruct (save_persona fs key
              (deref (setitem (set_image url) a (objects m)) a) rnd)
    as [saved fs'] eqn:S.
  exists saved; eexists; exists fs'; split; [reflexivity|].
  cbn [personas objects].
  assert (I : image (deref (setitem (set_image url) a (objects m)) a)
              = Some url).
  { unfold setitem; now rewrite deref_store_set. }
  split; [reflexivity|]; split; [assumption|].
  split; [|split; [|split]].
  - unfold get_image_urls; cbn [personas objects].
    rewrite (lookup_map_snd
               (fun a0 => get (image (deref
                    (setitem (set_image url) a (objects m)) a0)) [])).
    now rewrite Hkey; cbn [option_map]; rewrite I.
  - intros domain; unfold needs_image_upload; cbn [personas objects].
    now rewrite Hkey, I.
  - intros a' N; unfold setitem; now apply deref_store_set_other.
  - intros ->; simpl in S; now injection S as <- <-.
Qed.

(** ** get_persona_by_name *)

Lemma find_by_name_first (h : store) (l1 : list addr) (a : addr)
    (l2 : list addr) (n : str) :
  (forall a', In a' l1 ->
     exists n', name (deref h a') = Some n' /\ n' <> n) ->
  name (deref h a) = Some n ->
  find_by_name h (l1 ++ a :: l2) n = Ok (Some a).
Proof.
  intros H1 Ha; induction l1 as [|a1 l1 IH]; cbn [app find_by_name].
  - rewrite Ha; cbn [getitem bind]; now rewrite eqb_refl.
  - destruct (H1 a1 (or_introl eq_refl)) as (n' & -> & N).
    cbn [getitem bind].
    apply eqb_neq in N; rewrite N.
    apply IH; intros a' Hin; apply H1; now right.
Qed.

(** X6.  [get_persona_by_name] returns a copy of the first record, in
    the order of the catalog, whose name is the one asked for: a new object
    equal to the stored one (no instructions appended, no path set); the
    catalog and the stored objects are as before. *)
Theorem get_persona_by_name_first (m : PersonaManager) (n : str)
    (d1 : dict addr) (k : str) (a : addr) (d2 : dict addr) :
  personas m = d1 ++ (k, a) :: d2 ->
  (forall a', In a' (values d1) ->
     exists n', name (deref (objects m) a') = Some n' /\ n' <> n) ->
  name (deref (objects m) a) = Some n ->
  get_persona_by_name m n
  = Ok (length (objects m),
        mkManager (personas_dir m) (objects m ++ [deref (objects m) a])
          (personas m)).
Proof.
  intros Hm H1 Ha; unfold get_persona_by_name.
  rewrite Hm at 1; unfold values; rewrite map_app; cbn [map snd].
  rewrite (find_by_name_first _ _ _ _ n H1 Ha); reflexivity.
Qed.

Lemma find_by_name_none (h : store) (objs : list addr) (names : list str)
    (n : str) :
  Forall2 (fun a n' => name (deref h a) = Some n') objs names ->
  ~ In n names ->
  find_by_name h objs n = Ok None /\ display_names h objs = Ok names.
Proof.
  intros F; induction F as [|a n' objs names Ha F IH]; intros N;
    cbn [find_by_name display_names]; [now split|].
  rewrite Ha; cbn [getitem bind].
  assert (E : eqb n' n = false).
  { apply eqb_neq; intros ->; apply N; now left. }
  rewrite E.
  destruct IH as [-> ->]; [intros X; apply N; now right|].
  now split.
Qed.

(** X7.  When every record has a name and none is the one asked for,
    [get_persona_by_name] raises KeyError, with a message in which every
    display name of the catalog occurs. *)
Theorem get_persona_by_name_not_found (m : PersonaManager) (n : str)
    (names : list str) :
  Forall2 (fun a n' => name (deref (objects m) a) = Some n')
    (values (personas m)) names ->
  ~ In n names ->
  get_persona_by_name m n = Raise (KeyError (not_found_message n names))
  /\ forall n', In n' names ->
       exists x y, not_found_message n names = x ++ n' ++ y.
Proof.
  intros F N; split.
  - unfold get_persona_by_name.
    destruct (find_by_name_none _ _ _ _ F N) as [-> ->]; reflexivity.
  - intros n' Hin; unfold not_found_message.
    destruct (substring_of_join `", " n' names Hin) as (x & y & ->).
    exists ((`"Persona '" ++ n ++ `"' not found. " ++ `"Valid options: ")
            ++ x), y.
    rewrite <- !app_assoc; reflexivity.
Qed.

End Catalog.

(** * What [get_persona] selects *)

Section Resolve.

Import PyStr PyStrFacts.

Context {prompts : Prompts}.

(** The state of the scan: no key yet, or a key already met together
    with its overlap, which is at least one. *)
Lemma closest_fold_inv (words : list str) (l : list str)
    (best : option str * nat) (seen : list str) :
  match best with
  | (None, n) => n = 0
  | (Some k, n) => In k seen /\ n = overlap_of words k /\ 1 <= n
  end ->
  match fold_left (closest_step words) l best with
  | (None, n) => n = 0
  | (Some k, n) => In k (seen ++ l) /\ n = overlap_of words k /\ 1 <= n
  end.
Proof.
  revert best seen; induction l as [|x l IH]; intros best seen Hb;
    cbn [fold_left].
  - rewrite app_nil_r; assumption.
  - replace (seen ++ x :: l) with ((seen ++ [x]) ++ l)
      by (rewrite <- app_assoc; reflexivity).
    apply IH; unfold closest_step.
    destruct best as [[k|] n]; cbn [snd].
    + destruct Hb as (Hk & Hn & H1).
      destruct (n <? overlap_of words x) eqn:E.
      * apply Nat.ltb_lt in E.
        split; [apply in_or_app; right; now left|]; split; [reflexivity|lia].
      * split; [apply in_or_app; now left|now split].
    + subst n; destruct (0 <? overlap_of words x) eqn:E; [|reflexivity].
      apply Nat.ltb_lt in E.
      split; [apply in_or_app; right; now left|]; split; [reflexivity|lia].
Qed.

Lemma closest_Some (words : list str) (l : list str) (k : str) (n : nat) :
  closest words l = (Some k, n) ->
  In k l /\ n = overlap_of words k /\ 1 <= n.
Proof.
  intros H; pose proof (closest_fold_inv words l (None, 0) [] eq_refl) as I.
  unfold closest in H; rewrite H in I; exact I.
Qed.

Lemma In_values {A : Type} (d : dict A) (v : A) :
  In v (values d) -> exists k, In (k, v) d.
Proof.
  unfold values; intros H; apply in_map_iff in H as ([k v'] & E & H).
  simpl in E; subst v'; now exists k.
Qed.

Lemma random_choice_In {A : Type} (rnd : nat) (xs : list A) (x : A) :
  random_choice rnd xs = Ok x -> In x xs.
Proof.
  unfold random_choice; destruct (nth_error xs (rnd mod length xs)) eqn:E;
    [|discriminate].
  intros [= ->]; eapply nth_error_In, E.
Qed.

(** What [select_persona] returns is the object of some key. *)
Lemma select_persona_In (m : PersonaManager) (query : option str)
    (rnd : nat) (a : addr) :
  select_persona m query rnd = Ok a -> exists k, In (k, a) (personas m).
Proof.
  unfold select_persona; destruct (given query) as [s|].
  - destruct (lookup (folder_name_of s) (personas m)) as [a0|] eqn:L.
    + intros [= ->]; exists (folder_name_of s); now apply lookup_In_pair.
    + destruct (closest (query_words s) (keys (personas m)))
        as [[k|] n]; [|discriminate].
      destruct (truthy k && (1 <=? n)); [|discriminate].
      destruct (lookup k (personas m)) as [a0|] eqn:L'; [|discriminate].
      intros [= ->]; exists k; now apply lookup_In_pair.
  - destruct (random_choice rnd (values (personas m))) as [a0|] eqn:R;
      [|discriminate].
    cbn [bind].
    destruct (name (deref (objects m) a0)); [|discriminate].
    intros [= ->]; apply In_values; eapply random_choice_In, R.
Qed.

Lemma select_persona_name (m : PersonaManager) (query : option str)
    (rnd : nat) (a : addr) :
  select_persona m query rnd = Ok a -> given query = None ->
  exists n, name (deref (objects m) a) = Some n.
Proof.
  unfold select_persona; intros H G; rewrite G in H.
  destruct (random_choice rnd (values (personas m))) as [a0|]; [|discriminate].
  cbn [bind] in H.
  destruct (name (deref (objects m) a0)) as [n|] eqn:N; [|discriminate].
  injection H as <-; now exists n.
Qed.

Lemma get_persona_no_prompt (m : PersonaManager) (query : option str)
    (rnd : nat) (a : addr) :
  select_persona m query rnd = Ok a ->
  prompt (deref (objects m) a) = None ->
  get_persona m query rnd = Raise (KeyError `"prompt").
Proof.
  intros S P; unfold get_persona; rewrite S; cbn [bind]; unfold copy.
  rewrite deref_last.
  destruct (negb (truthy (get (image (deref (objects m) a)) []))).
  - rewrite setitem_last, deref_last; cbn [set_image prompt].
    now rewrite P.
  - rewrite deref_last, P; reflexivity.
Qed.

(** X8.  Whatever the branch taken, a [get_persona] that returns leaves
    the catalog, the personas directory and every stored object as they
    were; what it returns is one new object, the record of some key of the
    catalog with the instructions after its prompt, an image and a path. *)
Theorem get_persona_frame (m : PersonaManager) (query : option str)
    (rnd : nat) (a' : addr) (m' : PersonaManager) :
  get_persona m query rnd = Ok (a', m') ->
  personas m' = personas m /\ personas_dir m' = personas_dir m
  /\ a' = length (objects m)
  /\ exists k a p pth,
       In (k, a) (personas m)
       /\ prompt (deref (objects m) a) = Some p
       /\ objects m'
          = objects m ++ [delivered (deref (objects m) a) p pth].
Proof.
  intros H.
  destruct (select_persona m query rnd) as [a|e] eqn:S.
  2: { unfold get_persona in H; rewrite S in H; discriminate. }
  destruct (prompt (deref (objects m) a)) as [p|] eqn:P.
  2: { rewrite (get_persona_no_prompt m query rnd a S P) in H; discriminate. }
  destruct (select_persona_In m query rnd a S) as (k & Hk).
  assert (K : exists key,
             match given query with
             | Some s => key = folder_name_of s
             | None => exists n, name (deref (objects m) a) = Some n
                                 /\ key = folder_name_of n
             end).
  { destruct (given query) as [s|] eqn:G; [now eexists|].
    destruct (select_persona_name m query rnd a S G) as (n & N).
    exists (folder_name_of n), n; now split. }
  destruct K as (key & K).
  rewrite (get_persona_selected m query rnd a p key S P K) in H.
  injection H as <- <-; cbn [personas personas_dir objects].
  repeat (split; [reflexivity|]).
  now exists k, a, p, (path_join (personas_dir m) key).
Qed.


(** ** The random branch *)

Lemma random_choice_nth {A : Type} (i : nat) (xs : list A) (x : A) :
  nth_error xs i = Some x -> random_choice i xs = Ok x.
Proof.
  intros H; unfold random_choice.
  assert (L : i < length xs) by (apply nth_error_Some; congruence).
  now rewrite Nat.mod_small, H.
Qed.

(** X9.  Without a name, [get_persona] returns the record the draw
    selects: every record of the catalog that has a name and a prompt is
    returned for the draw of its position, with the path built from its
    display name.  The empty string is treated as no name. *)
Theorem get_persona_random (m : PersonaManager) (i : nat) (k : str)
    (a : addr) (n p : str) :
  nth_error (personas m) i = Some (k, a) ->
  name (deref (objects m) a) = Some n ->
  prompt (deref (objects m) a) = Some p ->
  get_persona m None i
  = Ok (length (objects m),
        mkManager (personas_dir m)
          (objects m
           ++ [delivered (deref (objects m) a) p
                 (path_join (personas_dir m) (folder_name_of n))])
          (personas m))
  /\ get_persona m (Some []) i = get_persona m None i.
Proof.
  intros Hi Hn Hp; split; [|reflexivity].
  apply get_persona_selected; [|assumption|].
  - unfold select_persona; cbn [given].
    rewrite (random_choice_nth i (values (personas m)) a).
    + cbn [bind]; now rewrite Hn.
    + unfold values; now rewrite (map_nth_error snd i (personas m) Hi).
  - cbn [given]; now exists n.
Qed.

Lemma random_choice_nil {A : Type} (rnd : nat) :
  random_choice rnd (@nil A) = Raise IndexError.
Proof.
  unfold random_choice; now destruct (rnd mod length (@nil A)).
Qed.

(** X10.  On an empty catalog [get_persona] without a name (or with the
    empty string) raises IndexError, and with any other name KeyError, with
    a message that lists no option. *)
Theorem get_persona_empty_catalog (m : PersonaManager) (rnd : nat) :
  personas m = [] ->
  get_persona m None rnd = Raise IndexError
  /\ get_persona m (Some []) rnd = Raise IndexError
  /\ forall s : str, s <> [] ->
       get_persona m (Some s) rnd
       = Raise (KeyError (`"Persona '" ++ s
                          ++ `"' not found. Valid options: ")).
Proof.
  intros E.
  assert (R : get_persona m None rnd = Raise IndexError).
  { unfold get_persona, select_persona; rewrite E.
    cbn [given values map]; now rewrite random_choice_nil. }
  split; [exact R|]; split; [exact R|].
  intros s Hs; unfold get_persona, select_persona; rewrite E.
  rewrite (given_Some s Hs);
    cbn [lookup keys map closest fold_left].
  cbn [bind]; unfold not_found_message; cbn [join].
  now rewrite app_nil_r.
Qed.

(** ** Folder names *)

Lemma lower_char_idem (c : ascii) : lower_char (lower_char c) = lower_char c.
Proof.
  destruct c as [[] [] [] [] [] [] [] []]; reflexivity.
Qed.

Lemma join_In (sep : str) (parts : list str) (c : ascii) :
  In c (join sep parts) ->
  In c sep \/ exists piece, In piece parts /\ In c piece.
Proof.
  induction parts as [|p [|q rest] IH]; cbn [join]; intros H.
  - destruct H.
  - right; exists p; split; [now left|assumption].
  - apply in_app_or in H as [H|H].
    + right; exists p; split; [now left|assumption].
    + apply in_app_or in H as [H|H]; [now left|].
      destruct (IH H) as [S|(piece & Hp & Hc)]; [now left|].
      right; exists piece; split; [now right|assumption].
Qed.

Lemma replace_In (old new s : str) (c : ascii) :
  old <> [] -> In c (replace old new s) -> In c new \/ In c s.
Proof.
  intros Hold H; unfold replace in H.
  apply join_In in H as [H|(piece & Hp & Hc)]; [now left|right].
  eapply split_In; eassumption.
Qed.

Lemma lower_In (s : str) (c : ascii) : In c (lower s) -> lower_char c = c.
Proof.
  unfold lower; intros H; apply in_map_iff in H as (x & <- & _).
  apply lower_char_idem.
Qed.

Lemma folder_name_lower (s : str) (c : ascii) :
  In c (folder_name_of s) -> lower_char c = c.
Proof.
  unfold folder_name_of; intros H.
  apply replace_In in H; [|discriminate].
  destruct H as [H|H].
  - destruct H as [<-|[]]; reflexivity.
  - eapply lower_In, H.
Qed.

Lemma split_ws_go_In (cur s w : str) (c : ascii) :
  In w (split_ws_go cur s) -> In c w -> In c cur \/ In c s.
Proof.
  revert cur; induction s as [|x s IH]; intros cur Hw Hc;
    cbn [split_ws_go] in Hw.
  - destruct cur as [|y cur]; [destruct Hw|].
    destruct Hw as [<-|[]]; left; now apply in_rev.
  - destruct (isspace x).
    + destruct cur as [|y cur].
      * destruct (IH [] Hw Hc) as [[]|H]; right; now right.
      * destruct Hw as [<-|Hw]; [left; now apply in_rev|].
        destruct (IH [] Hw Hc) as [[]|H]; right; now right.
    + destruct (IH (x :: cur) Hw Hc) as [[<-|H]|H].
      * right; now left.
      * now left.
      * right; now right.
Qed.

Lemma split_ws_In (s w : str) (c : ascii) :
  In w (split_ws s) -> In c w -> In c s.
Proof.
  intros Hw Hc; destruct (split_ws_go_In [] s w c Hw Hc) as [[]|H]; exact H.
Qed.

Lemma inter_size_pos (a b : list str) :
  1 <= inter_size a b -> exists w, In w a /\ In w b.
Proof.
  unfold inter_size; intros H.
  destruct (filter (fun x => mem x b) a) as [|w l] eqn:F; [simpl in H; lia|].
  assert (I : In w (filter (fun x => mem x b) a)) by (rewrite F; now left).
  apply filter_In in I as [Ia Ib]; exists w; split; [assumption|].
  now apply mem_In.
Qed.

(** A word shared by a query and a key holds no capital letter. *)
Lemma overlap_word (q k : str) :
  1 <= overlap_of (query_words q) k ->
  exists w, In w (split `"_" k) /\ forall c, In c w -> lower_char c = c.
Proof.
  unfold overlap_of, query_words; intros H.
  apply inter_size_pos in H as (w & Hq & Hk).
  apply (proj1 (to_set_In _ _)) in Hq; apply (proj1 (to_set_In _ _)) in Hk.
  exists w; split; [assumption|].
  intros c Hc; eapply lower_In, split_ws_In; eassumption.
Qed.

(** X11.  A key of which every word (between underscores) holds a
    character that [lower] changes is never found by name: a [get_persona]
    with a name that is not empty, when it returns, returns the record of
    another key. *)
Theorem get_persona_capital_key (m : PersonaManager) (q : str) (rnd : nat)
    (k : str) (a' : addr) (m' : PersonaManager) :
  (forall w, In w (split `"_" k) -> exists c, In c w /\ lower_char c <> c) ->
  q <> [] ->
  get_persona m (Some q) rnd = Ok (a', m') ->
  exists k' a p pth,
    k' <> k /\ lookup k' (personas m) = Some a
    /\ prompt (deref (objects m) a) = Some p
    /\ objects m' = objects m ++ [delivered (deref (objects m) a) p pth].
Proof.
  intros Hk Hq H.
  destruct (select_persona m (Some q) rnd) as [a|e] eqn:S.
  2: { unfold get_persona in H; rewrite S in H; discriminate. }
  destruct (prompt (deref (objects m) a)) as [p|] eqn:P.
  2: { rewrite (get_persona_no_prompt m _ rnd a S P) in H; discriminate. }
  rewrite (get_persona_selected m (Some q) rnd a p (folder_name_of q) S P)
    in H by (now rewrite (given_Some q Hq)).
  injection H as <- <-; cbn [objects].
  assert (K : exists k', k' <> k /\ lookup k' (personas m) = Some a).
  { unfold select_persona in S; rewrite (given_Some q Hq) in S.
    destruct (lookup (folder_name_of q) (personas m)) as [a0|] eqn:L.
    - injection S as ->; exists (folder_name_of q); split; [|assumption].
      intros E.
      assert (W : exists w, In w (split `"_" k)).
      { destruct (split `"_" k) as [|w ws] eqn:W;
          [now apply split_not_nil in W|exists w; now left]. }
      destruct W as (w & W).
      destruct (Hk w W) as (c & Hc & Hlow).
      apply Hlow, (folder_name_lower q); rewrite E.
      apply (split_In `"_" k c w); [discriminate|assumption|assumption].
    - destruct (closest (query_words q) (keys (personas m)))
        as [[k0|] n] eqn:C; [|discriminate].
      destruct (closest_Some _ _ _ _ C) as (_ & -> & H1).
      destruct (truthy k0 && _); [|discriminate].
      destruct (lookup k0 (personas m)) as [a0|] eqn:L0; [|discriminate].
      injection S as ->; exists k0; split; [|assumption].
      intros ->.
      destruct (overlap_word q k H1) as (w & Hw & Hlow).
      destruct (Hk w Hw) as (c & Hc & N); now apply N, Hlow. }
  destruct K as (k' & N & L).
  now exists k', a, p, (path_join (personas_dir m) (folder_name_of q)).
Qed.


Lemma replace_no_old (c : ascii) (new s : str) :
  ~ In c new -> ~ In c (replace [c] new s).
Proof.
  intros Hnew H; unfold replace in H.
  apply join_In in H as [H|(piece & Hp & Hc)]; [now apply Hnew|].
  apply (free_single c piece); [|assumption].
  apply (split_pieces_free [c] s piece); [discriminate|assumption].
Qed.

Lemma replace_absent (c : ascii) (new s : str) :
  ~ In c s -> replace [c] new s = s.
Proof.
  intros H; unfold replace.
  rewrite split_None; [reflexivity|discriminate|].
  now apply (free_without c []).
Qed.

Lemma lower_fixed (s : str) :
  (forall c, In c s -> lower_char c = c) -> lower s = s.
Proof.
  intros H; unfold lower; rewrite <- (map_id s) at 2.
  now apply map_ext_in.
Qed.

(** X12.  The folder name of a query holds no space and no character
    that [lower] changes, and it is its own folder name. *)
Theorem folder_name_of_normal (s : str) :
  ~ In " "%char (folder_name_of s)
  /\ (forall c, In c (folder_name_of s) -> lower_char c = c)
  /\ folder_name_of (folder_name_of s) = folder_name_of s.
Proof.
  assert (S : ~ In " "%char (folder_name_of s)).
  { unfold folder_name_of; apply replace_no_old.
    intros [H|[]]; discriminate. }
  split; [exact S|]; split; [apply folder_name_lower|].
  unfold folder_name_of at 1.
  rewrite (lower_fixed _ (folder_name_lower s)).
  now apply replace_absent.
Qed.

Lemma replace_cons_other (c x : ascii) (new s : str) :
  x <> c -> replace [c] new (x :: s) = x :: replace [c] new s.
Proof.
  intros N; unfold replace.
  rewrite (split_eq [c] (x :: s)), (split_eq [c] s) by discriminate.
  rewrite (partition_cons_other c [] x s N).
  destruct (partition [c] s) as [[a b]|]; [|reflexivity].
  cbn [join]. destruct (split [c] b) eqn:E; [now apply split_not_nil in E|].
  reflexivity.
Qed.

Lemma folder_name_absolute (q : str) :
  startswith `"/" q = true -> startswith `"/" (folder_name_of q) = true.
Proof.
  intros H; apply startswith_spec in H as (t & ->).
  unfold folder_name_of; cbn [app lit list_ascii_of_string lower map].
  change (lower_char "/"%char) with "/"%char.
  rewrite replace_cons_other by discriminate.
  apply (startswith_app `"/").
Qed.

(** X13.  For a name that starts with a slash, the path of the record
    returned is the folder name of the query itself, an absolute path: the
    personas directory is not part of it. *)
Theorem get_persona_absolute_query (m : PersonaManager) (q : str)
    (rnd : nat) (a' : addr) (m' : PersonaManager) :
  startswith `"/" q = true ->
  get_persona m (Some q) rnd = Ok (a', m') ->
  path (deref (objects m') a') = Some (folder_name_of q)
  /\ startswith `"/" (folder_name_of q) = true.
Proof.
  intros Hq H; pose proof (folder_name_absolute q Hq) as Habs.
  split; [|assumption].
  assert (Q : q <> []) by (intros ->; discriminate).
  destruct (select_persona m (Some q) rnd) as [a|e] eqn:S.
  2: { unfold get_persona in H; rewrite S in H; discriminate. }
  destruct (prompt (deref (objects m) a)) as [p|] eqn:P.
  2: { rewrite (get_persona_no_prompt m _ rnd a S P) in H; discriminate. }
  rewrite (get_persona_selected m (Some q) rnd a p (folder_name_of q) S P)
    in H by (now rewrite (given_Some q Q)).
  injection H as <- <-; cbn [objects].
  rewrite deref_last; cbn [delivered path]; unfold path_join.
  now rewrite Habs.
Qed.

End Resolve.

(** * The words of a query *)

Section Words.

Import PyStr PyStrFacts.

Context {prompts : Prompts}.

Lemma inter_size_same (a a' b : list str) :
  NoDup a -> NoDup a' -> (forall w, In w a <-> In w a') ->
  inter_size a b = inter_size a' b.
Proof.
  intros N N' H; unfold inter_size; apply Permutation_length.
  apply NoDup_Permutation; try (now apply NoDup_filter).
  intros w; rewrite !filter_In, H; reflexivity.
Qed.

Lemma overlap_same (q1 q2 k : str) :
  (forall w, In w (split_ws (lower q1)) <-> In w (split_ws (lower q2))) ->
  overlap_of (query_words q1) k = overlap_of (query_words q2) k.
Proof.
  intros H; unfold overlap_of, query_words.
  apply inter_size_same; try apply to_set_NoDup.
  intros w; rewrite !to_set_In; apply H.
Qed.

Lemma closest_same (w1 w2 : list str) (ks : list str) :
  (forall k, overlap_of w1 k = overlap_of w2 k) ->
  closest w1 ks = closest w2 ks.
Proof.
  intros H; unfold closest; generalize (@None str, 0).
  induction ks as [|k ks IH]; intros best; [reflexivity|].
  cbn [fold_left]; unfold closest_step at 2 4; rewrite H; apply IH.
Qed.

Lemma get_persona_Ok_selected (m : PersonaManager) (query : option str)
    (rnd : nat) (a' : addr) (m' : PersonaManager) :
  get_persona m query rnd = Ok (a', m') ->
  exists a p,
    select_persona m query rnd = Ok a
    /\ prompt (deref (objects m) a) = Some p.
Proof.
  intros H.
  destruct (select_persona m query rnd) as [a|e] eqn:S.
  2: { unfold get_persona in H; rewrite S in H; discriminate. }
  destruct (prompt (deref (objects m) a)) as [p|] eqn:P.
  2: { rewrite (get_persona_no_prompt m query rnd a S P) in H; discriminate. }
  now exists a, p.
Qed.

(** X14.  The closest match depends on the set of lower-cased words of
    the query only.  Two queries that are not empty, whose folder names are
    not keys, and that have the same words (in any order, any case, any
    number of times) get the same record, for every draw: if [get_persona]
    returns for the first, it returns for the second at the same address,
    and the two dicts differ in their path only. *)
Theorem get_persona_word_set (m : PersonaManager) (q1 q2 : str)
    (rnd rnd' : nat) (a1 : addr) (m1 : PersonaManager) :
  (forall w, In w (split_ws (lower q1)) <-> In w (split_ws (lower q2))) ->
  q1 <> [] -> q2 <> [] ->
  lookup (folder_name_of q1) (personas m) = None ->
  lookup (folder_name_of q2) (personas m) = None ->
  get_persona m (Some q1) rnd = Ok (a1, m1) ->
  exists m2,
    get_persona m (Some q2) rnd' = Ok (a1, m2)
    /\ deref (objects m2) a1
       = set_path (path_join (personas_dir m) (folder_name_of q2))
           (deref (objects m1) a1).
Proof.
  intros Hw Hq1 Hq2 L1 L2 H.
  destruct (get_persona_Ok_selected m (Some q1) rnd a1 m1 H)
    as (a & p & S & P).
  rewrite (get_persona_selected m (Some q1) rnd a p (folder_name_of q1) S P)
    in H by (now rewrite (given_Some q1 Hq1)).
  injection H as <- <-.
  assert (S2 : select_persona m (Some q2) rnd' = Ok a).
  { unfold select_persona in *.
    rewrite (given_Some q1 Hq1), L1 in S; rewrite (given_Some q2 Hq2), L2.
    rewrite <- (closest_same (query_words q1) (query_words q2))
      by (intros k; now apply overlap_same).
    destruct (closest (query_words q1) (keys (personas m))) as [[k|] n];
      [|discriminate].
    destruct (truthy k && (1 <=? n)); [assumption|discriminate]. }
  rewrite (get_persona_selected m (Some q2) rnd' a p (folder_name_of q2) S2 P)
    by (now rewrite (given_Some q2 Hq2)).
  eexists; split; [reflexivity|].
  cbn [objects]; now rewrite !deref_last.
Qed.

End Words.

(** * The sorted list of keys *)

Section Listing.

Import PyStr PyStrFacts.

Lemma ascii_eqb_nat (x y : ascii) :
  Ascii.eqb x y = (nat_of_ascii x =? nat_of_ascii y).
Proof.
  destruct (Ascii.eqb x y) eqn:E.
  - apply Ascii.eqb_eq in E as ->; now rewrite Nat.eqb_refl.
  - symmetry; apply Nat.eqb_neq; intros N; apply Ascii.eqb_neq in E.
    apply E; rewrite <- (ascii_nat_embedding x), <- (ascii_nat_embedding y).
    now rewrite N.
Qed.

Lemma ltb_cons (x y : ascii) (a b : str) :
  ltb (x :: a) (y :: b)
  = (nat_of_ascii x <? nat_of_ascii y)
    || ((nat_of_ascii x =? nat_of_ascii y) && ltb a b).
Proof. cbn [ltb]; now rewrite ascii_eqb_nat. Qed.

(** [a <= b] and [b <= c] give [a <= c]. *)
Lemma leb_trans (a b c : str) :
  ltb b a = false -> ltb c b = false -> ltb c a = false.
Proof.
  revert b c; induction a as [|x a IH]; intros [|y b] [|z c];
    try reflexivity; try discriminate.
  rewrite !ltb_cons; intros H1 H2.
  apply orb_false_iff in H1 as [H1 H1']; apply Nat.ltb_ge in H1.
  apply orb_false_iff in H2 as [H2 H2']; apply Nat.ltb_ge in H2.
  apply orb_false_iff; split; [apply Nat.ltb_ge; lia|].
  destruct (nat_of_ascii z =? nat_of_ascii x) eqn:E; [|reflexivity].
  apply Nat.eqb_eq in E; cbn [andb].
  assert (Ey : nat_of_ascii y = nat_of_ascii x) by lia.
  rewrite Ey, Nat.eqb_refl in H1'; rewrite E, <- Ey, Nat.eqb_refl in H2'.
  apply (IH b c); assumption.
Qed.

Lemma ltb_asym (a b : str) : ltb a b = true -> ltb b a = false.
Proof.
  revert b; induction a as [|x a IH]; intros [|y b]; try reflexivity;
    try discriminate.
  rewrite !ltb_cons; intros H.
  apply orb_true_iff in H as [H|H].
  - apply Nat.ltb_lt in H; apply orb_false_iff; split.
    + apply Nat.ltb_ge; lia.
    + replace (nat_of_ascii y =? nat_of_ascii x) with false; [reflexivity|].
      symmetry; apply Nat.eqb_neq; lia.
  - apply andb_true_iff in H as [E H]; apply Nat.eqb_eq in E.
    rewrite E, Nat.ltb_irrefl, Nat.eqb_refl; cbn [orb andb].
    now apply IH.
Qed.

Lemma leb_antisym (a b : str) :
  ltb a b = false -> ltb b a = false -> a = b.
Proof.
  revert b; induction a as [|x a IH]; intros [|y b]; try reflexivity;
    try discriminate.
  rewrite !ltb_cons; intros H1 H2.
  apply orb_false_iff in H1 as [H1 H1']; apply Nat.ltb_ge in H1.
  apply orb_false_iff in H2 as [H2 H2']; apply Nat.ltb_ge in H2.
  assert (E : nat_of_ascii x = nat_of_ascii y) by lia.
  rewrite E, Nat.eqb_refl in H1'; rewrite E, Nat.eqb_refl in H2'.
  f_equal; [|now apply IH].
  rewrite <- (ascii_nat_embedding x), <- (ascii_nat_embedding y).
  now rewrite E.
Qed.

Lemma insort_In (x y : str) (l : list str) :
  In y (insort x l) <-> y = x \/ In y l.
Proof.
  induction l as [|z l IH]; cbn [insort].
  - split; [intros [<-|[]]; now left|intros [->|[]]; now left].
  - destruct (ltb z x); cbn [In]; [rewrite IH|]; intuition congruence.
Qed.

Lemma sorted_In (y : str) (l : list str) : In y (sorted l) <-> In y l.
Proof.
  induction l as [|x l IH]; [reflexivity|].
  cbn [sorted fold_right]; fold (sorted l); rewrite insort_In, IH.
  cbn [In]; intuition congruence.
Qed.

Lemma insort_sorted (x : str) (l : list str) :
  ~ In x l ->
  StronglySorted (fun a b => ltb a b = true) l ->
  StronglySorted (fun a b => ltb a b = true) (insort x l).
Proof.
  intros N S; induction S as [|z l S IH F]; cbn [insort].
  - constructor; constructor.
  - assert (Nz : x <> z) by (intros ->; apply N; now left).
    assert (Nl : ~ In x l) by (intros H; apply N; now right).
    destruct (ltb z x) eqn:E.
    + constructor; [now apply IH|].
      apply Forall_forall; intros y Hy; apply insort_In in Hy as [->|Hy];
        [assumption|].
      eapply Forall_forall in F; eassumption.
    + assert (X : ltb x z = true).
      { destruct (ltb x z) eqn:E'; [reflexivity|].
        exfalso; apply Nz, leb_antisym; assumption. }
      constructor; [now constructor|].
      constructor; [assumption|].
      apply Forall_forall; intros y Hy.
      eapply Forall_forall in F; [|eassumption].
      destruct (ltb x y) eqn:Y; [reflexivity|exfalso].
      (* y <= x and x < z, while z < y *)
      pose proof (ltb_asym _ _ F) as Fz.
      pose proof (leb_trans _ _ _ Fz Y) as T.
      congruence.
Qed.

Lemma sorted_sorted (l : list str) :
  NoDup l -> StronglySorted (fun a b => ltb a b = true) (sorted l).
Proof.
  induction 1 as [|x l N D IH]; [constructor|].
  cbn [sorted fold_right]; fold (sorted l).
  apply insort_sorted; [|assumption].
  now rewrite sorted_In.
Qed.

Lemma dict_set_keys_In {A : Type} (k k' : str) (v : A) (d : dict A) :
  In k' (keys (dict_set k v d)) <-> k' = k \/ In k' (keys d).
Proof.
  induction d as [|[k0 v0] d IH]; cbn [dict_set].
  - cbn; intuition congruence.
  - destruct (eqb k k0) eqn:E; cbn [keys map fst In] in *.
    + apply eqb_eq in E as <-; intuition congruence.
    + rewrite IH; intuition congruence.
Qed.

Lemma dict_set_NoDup {A : Type} (k : str) (v : A) (d : dict A) :
  NoDup (keys d) -> NoDup (keys (dict_set k v d)).
Proof.
  induction d as [|[k0 v0] d IH]; cbn [dict_set]; intros N.
  - repeat constructor; intros [].
  - inversion N as [|? ? N0 N1]; subst.
    destruct (eqb k k0) eqn:E.
    + apply eqb_eq in E as <-; now constructor.
    + cbn [keys map fst]; constructor; [|now apply IH].
      intros H; apply dict_set_keys_In in H as [->|H].
      * now rewrite eqb_refl in E.
      * contradiction.
Qed.

Lemma load_loop_NoDup (entries : dict node) (personas catalog : dict Persona) :
  NoDup (keys personas) -> load_loop entries personas = Ok catalog ->
  NoDup (keys catalog).
Proof.
  revert personas; induction entries as [|[k nd] entries IH];
    intros personas N H; cbn [load_loop] in H.
  - now injection H as <-.
  - destruct (load_entry personas (k, nd)) as [personas'|] eqn:E;
      [|discriminate].
    cbn [bind] in H; apply (IH personas'); [|assumption].
    unfold load_entry in E; cbn [snd fst] in E.
    destruct nd as [|d]; [now injection E as <-|].
    destruct (readme d) as [[content|]|]; try discriminate.
    + destruct (parse_readme content) as [r|]; [|discriminate].
      cbn [bind] in E; injection E as <-; now apply dict_set_NoDup.
    + now injection E as <-.
Qed.

Lemma keys_combine {A : Type} (d : dict A) (n : nat) :
  keys (combine (keys d) (seq n (length d))) = keys d.
Proof.
  revert n; induction d as [|[k v] d IH]; intros n; [reflexivity|].
  cbn [keys map fst length seq combine]; f_equal; apply IH.
Qed.

(** A load that completes has read and parsed every README. *)
Lemma load_loop_readme (entries : dict node) (catalog : dict Persona)
    (k : str) (d : persona_dir) :
  load_loop entries [] = Ok catalog -> In (k, Dir d) entries ->
  readme d <> None ->
  exists content r,
    readme d = Some (Readable content) /\ parse_readme content = Ok r.
Proof.
  intros H Hin R.
  destruct (readme d) as [[content|]|] eqn:E; [| |contradiction].
  - destruct (parse_readme content) as [r|e] eqn:P; [now exists content, r|].
    exfalso.
    destruct (load_loop_raise entries (k, Dir d) Hin)
      with (personas := @nil (str * Persona)) as (e' & He'); [|congruence].
    intros personas; exists e; unfold load_entry; cbn [snd fst].
    now rewrite E, P.
  - exfalso.
    destruct (load_loop_raise entries (k, Dir d) Hin)
      with (personas := @nil (str * Persona)) as (e' & He'); [|congruence].
    intros personas; exists OSError; unfold load_entry; cbn [snd fst].
    now rewrite E.
Qed.

Lemma In_keys_lookup {A : Type} (k : str) (d : dict A) :
  In k (keys d) -> exists v, lookup k d = Some v.
Proof.
  induction d as [|[k0 v0] d IH]; cbn [keys map fst In lookup]; [intros []|].
  intros [->|H].
  - rewrite eqb_refl; now eexists.
  - destruct (eqb k k0); [now eexists|now apply IH].
Qed.

(** X15.  For a manager built from a directory with distinct names,
    [list_personas] is strictly increasing in the order of the code points,
    and its elements are exactly the names of the directories that have a
    README. *)
Theorem list_personas_init (dir : str) (entries : dict node)
    (m : PersonaManager) :
  NoDup (keys entries) -> init dir (Some entries) = Ok m ->
  StronglySorted (fun a b => ltb a b = true) (list_personas m)
  /\ forall k, In k (list_personas m)
       <-> exists d, In (k, Dir d) entries /\ readme d <> None.
Proof.
  intros N H; unfold init in H; cbn [load_personas] in H.
  destruct (load_loop entries []) as [catalog|] eqn:L; [|discriminate].
  cbn [bind] in H; injection H as <-.
  unfold list_personas; cbn [personas]; rewrite keys_combine.
  split.
  - apply sorted_sorted, (load_loop_NoDup entries [] catalog); [constructor|].
    assumption.
  - intros k; rewrite sorted_In; split.
    + intros Hk; apply In_keys_lookup in Hk as (r & Hr).
      apply lookup_In_pair in Hr.
      destruct (load_loop_In entries [] catalog k r L Hr)
        as [[]|(d & content & r0 & Hd & R & _)].
      exists d; split; [assumption|]; rewrite R; discriminate.
    + intros (d & Hd & R).
      destruct (load_loop_readme entries catalog k d L Hd R)
        as (content & r & Hc & P).
      destruct (load_loop_lookup entries N [] catalog L) as [Hl _].
      specialize (Hl (k, Dir d) Hd); unfold loaded in Hl; cbn [snd fst] in Hl.
      rewrite Hc, P in Hl; eapply lookup_In, Hl.
Qed.

End Listing.

(** * What a save changes *)

Section SavingAgain.

Import PyStr PyStrFacts.

Context {prompts : Prompts}.

Lemma dict_set_dict_set {A : Type} (k : str) (v v' : A) (d : dict A) :
  dict_set k v (dict_set k v' d) = dict_set k v d.
Proof.
  induction d as [|[k0 v0] d IH]; cbn [dict_set].
  - now rewrite eqb_refl.
  - destruct (eqb k k0) eqn:E; cbn [dict_set].
    + now rewrite eqb_refl.
    + now rewrite E, IH.
Qed.

Lemma dict_set_same {A : Type} (k : str) (v : A) (d : dict A) :
  lookup k d = Some v -> lookup k (dict_set k v d) = lookup k d.
Proof. intros ->; apply lookup_dict_set. Qed.

(** ** What a save leaves alone *)

(** X16.  What [save_persona] leaves alone, for a key that names an entry
    of the personas directory.  The entries of all other keys are as
    before.  A key that names a file gives False and changes nothing.  In
    a directory of the key that was there, the markdown files other than
    README.md are as before, and a save that returns False leaves the
    whole directory as it was, README included.  For a key without entry
    the save leaves a directory behind even when it returns False, an
    empty one in that case.  After a save that returns True the README of
    the key can be read. *)
Theorem save_persona_frame (entries : dict node) (key : str) (p : Persona)
    (rnd : nat) (saved : bool) (fs' : FS) :
  entry_name key = true ->
  save_persona (Some entries) key p rnd = (saved, fs') ->
  exists entries',
    fs' = Some entries'
    /\ (forall k, k <> key -> lookup k entries' = lookup k entries)
    /\ (lookup key entries = Some File -> saved = false /\ entries' = entries)
    /\ (forall d, lookup key entries = Some (Dir d) ->
          exists d', lookup key entries' = Some (Dir d')
            /\ (forall f, f <> `"README.md" ->
                  lookup f (md_files d') = lookup f (md_files d))
            /\ (saved = false -> d' = d))
    /\ (lookup key entries = None ->
          exists d', lookup key entries' = Some (Dir d')
            /\ (forall f, f <> `"README.md" -> lookup f (md_files d') = None)
            /\ (saved = false -> d' = mkDir None []))
    /\ (saved = true -> exists doc, readme_of fs' key = Some doc).
Proof.
  intros _; unfold save_persona; intros H.
  destruct (lookup key entries) as [[|d]|] eqn:L.
  - injection H as <- <-; exists entries.
    split; [reflexivity|]; split; [reflexivity|]; split; [now split|].
    repeat split; discriminate.
  - destruct (render_persona (readme d) p rnd) as [doc|e] eqn:R;
      injection H as <- <-; eexists; (split; [reflexivity|]);
      (split; [intros k N; now apply lookup_dict_set_other|]);
      (split; [discriminate|]); (split; [|split; [discriminate|]]).
    + intros d0 E; injection E as <-; eexists.
      split; [apply lookup_dict_set|]; split; [|discriminate].
      intros f N; now apply lookup_dict_set_other.
    + intros _; exists doc; unfold readme_of; now rewrite lookup_dict_set.
    + intros d0 E; injection E as <-; exists d.
      split; [apply lookup_dict_set|]; now split.
    + discriminate.
  - cbn [readme] in H.
    destruct (render_persona None p rnd) as [doc|e] eqn:R;
      injection H as <- <-; eexists; (split; [reflexivity|]);
      (split; [intros k N; now apply lookup_dict_set_other|]);
      (split; [discriminate|]); (split; [discriminate|]); split.
    + intros _; eexists; split; [apply lookup_dict_set|].
      split; [|discriminate].
      intros f N.
      exact (lookup_dict_set_other f `"README.md" (Readable doc) [] N).
    + intros _; exists doc; unfold readme_of; now rewrite lookup_dict_set.
    + intros _; eexists; split; [apply lookup_dict_set|]; now split.
    + discriminate.
Qed.


(** ** A prompt that starts with a heading *)

Local Arguments partition : simpl never.

Lemma title_line_free (n : str) :
  single_line n = true ->
  partition section_sep (`"# " ++ n ++ [NL]) = None
  /\ partition [NL; NL] (`"# " ++ n ++ [NL]) = None.
Proof.
  intros H; apply single_line_In in H.
  assert (N : ~ In NL (`"# " ++ n)).
  { intros X; apply in_app_or in X as [X|X]; [|contradiction].
    revert X; unfold NL; cbn; intuition discriminate. }
  rewrite app_assoc; split.
  - apply (free_app_without NL `"## "); [assumption|reflexivity].
  - apply (free_app_without NL [NL]); [assumption|reflexivity].
Qed.

Lemma parse_heading_prompt (n rest : str) (md : Metadata) :
  single_line n = true ->
  parse_readme (readme_content n (`"## " ++ rest) md) = Raise IndexError.
Proof.
  intros H; destruct (title_line_free n H) as [F G].
  apply parse_readme_no_gap; unfold preamble.
  rewrite hd_split by discriminate.
  assert (E : exists tail,
             readme_content n (`"## " ++ rest) md
             = (`"# " ++ n ++ [NL]) ++ section_sep ++ tail).
  { eexists; unfold readme_content, section_sep.
    repeat rewrite <- app_assoc; reflexivity. }
  destruct E as (tail & ->).
  rewrite (partition_app_None NL `"## "); [|intros X; revert X; unfold NL; cbn;
                                             intuition discriminate|assumption].
  now apply contains_false.
Qed.

Lemma parse_heading_text (n tail : str) :
  single_line n = true ->
  parse_readme ((`"# " ++ n ++ [NL]) ++ section_sep ++ tail)
  = Raise IndexError.
Proof.
  intros H; destruct (title_line_free n H) as [F G].
  apply parse_readme_no_gap; unfold preamble.
  rewrite hd_split by discriminate.
  rewrite (partition_app_None NL `"## "); [|intros X; revert X; unfold NL; cbn;
                                             intuition discriminate|assumption].
  now apply contains_false.
Qed.

Lemma parse_heading_read (n rest : str) (md : Metadata) :
  plain_line n = true ->
  parse_readme (universal_newlines (readme_content n (`"## " ++ rest) md))
  = Raise IndexError.
Proof.
  intros H; apply plain_line_spec in H as [H1 H2].
  assert (E : exists tail,
             readme_content n (`"## " ++ rest) md
             = ((`"# " ++ n ++ [NL]) ++ section_sep) ++ tail).
  { eexists; unfold readme_content, section_sep.
    repeat rewrite <- app_assoc; reflexivity. }
  destruct E as (tail & ->).
  rewrite universal_newlines_app by (rewrite !no_cr_app, H2; reflexivity).
  rewrite <- app_assoc; now apply parse_heading_text.
Qed.

(** X17.  A save that succeeds for a key that names an entry of the
    personas directory and a record whose name holds neither line feed nor
    carriage return and whose prompt starts with ["## "] leaves a README
    that [parse_readme] rejects with IndexError, as written and as read
    back with its carriage returns turned into line breaks.  From then on
    every [save_persona] for that key returns False, whatever the record,
    and [load_personas] raises. *)
Theorem save_persona_heading_prompt (entries : dict node) (key : str)
    (p : Persona) (n rest : str) (rnd : nat) (fs' : FS) :
  entry_name key = true ->
  name p = Some n -> prompt p = Some (`"## " ++ rest) ->
  plain_line n = true ->
  save_persona (Some entries) key p rnd = (true, fs') ->
  (exists doc, readme_of fs' key = Some doc
               /\ parse_readme doc = Raise IndexError
               /\ parse_readme (universal_newlines doc) = Raise IndexError)
  /\ (forall p' rnd', fst (save_persona fs' key p' rnd') = false)
  /\ (exists e, load_personas fs' = Raise e).
Proof.
  intros _ Hn Hpr H0 H.
  assert (H1 : single_line n = true) by now apply plain_line_spec in H0.
  assert (X : exists d em g,
             fs' = Some (dict_set key
                           (Dir (mkDir
                                   (Some (Readable
                                      (readme_content n (`"## " ++ rest)
                                         (merge_metadata p em g))))
                                   (dict_set `"README.md"
                                      (Readable
                                         (readme_content n (`"## " ++ rest)
                                            (merge_metadata p em g)))
                                      (md_files d))))
                           entries)).
  { unfold save_persona in H.
    destruct (lookup key entries) as [[|d]|] eqn:L; [discriminate| |].
    - destruct (render_persona (readme d) p rnd) as [doc|e] eqn:R;
        [|discriminate].
      injection H as <-.
      destruct (render_persona_inv _ _ n _ _ _ R Hn Hpr) as (em & g & ->).
      now exists d, em, g.
    - cbn [readme] in H.
      destruct (render_persona None p rnd) as [doc|e] eqn:R; [|discriminate].
      injection H as <-.
      destruct (render_persona_inv _ _ n _ _ _ R Hn Hpr) as (em & g & ->).
      now exists (mkDir None []), em, g. }
  destruct X as (d & em & g & ->).
  pose proof (parse_heading_prompt n rest (merge_metadata p em g) H1) as P.
  split; [|split].
  - eexists; split; [unfold readme_of; now rewrite lookup_dict_set|].
    split; [exact P|now apply parse_heading_read].
  - intros p' rnd'; unfold save_persona.
    rewrite lookup_dict_set; cbn [readme]; unfold render_persona.
    now rewrite P.
  - cbn [load_personas].
    eapply load_loop_raise.
    + eapply lookup_In_pair, lookup_dict_set.
    + intros personas; exists IndexError; unfold load_entry.
      cbn [snd fst readme]; now rewrite P.
Qed.


(** ** Saving twice *)

Lemma render_persona_inv_full (existing : option file) (p : Persona)
    (n pr : str) (rnd : nat) (doc : str) :
  render_persona existing p rnd = Ok doc ->
  name p = Some n -> prompt p = Some pr ->
  exists em g,
    (g = `"MALE" \/ g = `"FEMALE")
    /\ match existing with
       | None => em = no_keys
       | Some (Readable text) =>
           exists e, parse_readme text = Ok e /\ em = existing_metadata_of e
       | Some Unreadable => False
       end
    /\ doc = readme_content n pr (merge_metadata p em g).
Proof.
  intros H Hn Hpr.
  assert (X : exists em,
             match existing with
             | None => em = no_keys
             | Some (Readable text) =>
                 exists e, parse_readme text = Ok e
                           /\ em = existing_metadata_of e
             | Some Unreadable => False
             end).
  { unfold render_persona in H; destruct existing as [[text|]|].
    - destruct (parse_readme text) as [e|]; [|discriminate].
      exists (existing_metadata_of e), e; now split.
    - discriminate.
    - now exists no_keys. }
  destruct X as (em & X).
  destruct (render_persona_ok existing em p n pr rnd X Hn Hpr)
    as (g & Hg & E).
  rewrite E in H; injection H as <-; now exists em, g.
Qed.

Lemma get_strip (fp : option str) (y : str) :
  strip y = y -> get fp (strip (get fp y)) = get fp y.
Proof. now destruct fp. Qed.

Lemma get_single_line (fp : option str) (y : str) :
  single_line (get fp []) = true -> single_line y = true ->
  single_line (get fp y) = true.
Proof. now destruct fp. Qed.

Lemma settled_values (em : Persona) :
  settled em ->
  clean (get (image em) []) /\ clean (get (cartesia_voice_id em) [])
  /\ (clean DEFAULT_ENTRY_MESSAGE ->
      clean (get (entry_message em) DEFAULT_ENTRY_MESSAGE))
  /\ (forall g, clean g -> clean (get (gender em) g))
  /\ Forall token (get (relevant_links em) []).
Proof.
  intros [->|(text & e & P & ->)].
  - cbn [no_keys get image cartesia_voice_id entry_message gender
         relevant_links].
    split; [apply clean_nil|]; split; [apply clean_nil|].
    split; [auto|]; split; [auto|constructor].
  - destruct (parse_readme_shape text e P)
      as (n & pr & [i e0 v g l] & -> & _ & _ & _ & Hmd).
    destruct Hmd as (Hi & He & Hv & Hg & Hl).
    unfold existing_metadata_of; fields.
    repeat split; try apply Hi; try apply He; try apply Hv; try apply Hg;
      auto.
Qed.

Lemma merge_settled (p em : Persona) (g g' : str) :
  settled em -> clean DEFAULT_ENTRY_MESSAGE ->
  g = `"MALE" \/ g = `"FEMALE" ->
  single_line (get (image p) []) = true ->
  single_line (get (entry_message p) []) = true ->
  single_line (get (cartesia_voice_id p) []) = true ->
  single_line (get (gender p) []) = true ->
  single_line (join `" " (get (relevant_links p) [])) = true ->
  let md := merge_metadata p em g in
  single_line (md_image md) = true
  /\ single_line (md_entry_message md) = true
  /\ single_line (md_cartesia_voice_id md) = true
  /\ single_line (md_gender md) = true
  /\ single_line (join `" " (md_relevant_links md)) = true
  /\ merge_metadata p
       (existing_metadata_of
          (mkPersona None None (Some (strip (md_image md)))
             (Some (strip (md_entry_message md)))
             (Some (strip (md_cartesia_voice_id md)))
             (Some (strip (md_gender md)))
             (Some (filter truthy
                      (split_ws (strip (join `" " (md_relevant_links md))))))
             None None)) g'
     = md.
Proof.
  intros Hem Hd Hg Hi He Hv Hge Hl md.
  destruct (settled_values em Hem) as ([Ci Si] & [Cv Sv] & Ce & Cg & Tl).
  destruct (Ce Hd) as [Ce1 Ce2].
  assert (G : clean g) by (destruct Hg as [->| ->]; now split).
  destruct (Cg g G) as [Cg1 Cg2].
  subst md; unfold merge_metadata, existing_metadata_of; fields.
  repeat split.
  - now apply get_single_line.
  - now apply get_single_line.
  - now apply get_single_line.
  - now apply get_single_line.
  - destruct (relevant_links p); [assumption|].
    apply single_line_In, join_space_NL, Tl.
  - f_equal; try (now apply get_strip).
    destruct (relevant_links p) as [l|]; [reflexivity|]; fields.
    now rewrite (split_ws_join_strip _ Tl), (filter_truthy_tokens _ Tl).
Qed.

(** The values of the merge hold no carriage return when neither the
    record nor the README found holds one. *)
Lemma merge_no_cr (existing : option file) (p em : Persona) (g : str) :
  match existing with
  | None => em = no_keys
  | Some (Readable text) =>
      no_cr text = true
      /\ exists e, parse_readme text = Ok e /\ em = existing_metadata_of e
  | Some Unreadable => False
  end ->
  no_cr DEFAULT_ENTRY_MESSAGE = true ->
  g = `"MALE" \/ g = `"FEMALE" ->
  no_cr (get (image p) []) = true ->
  no_cr (get (entry_message p) []) = true ->
  no_cr (get (cartesia_voice_id p) []) = true ->
  no_cr (get (gender p) []) = true ->
  no_cr (join `" " (get (relevant_links p) [])) = true ->
  let md := merge_metadata p em g in
  no_cr (md_image md) = true
  /\ no_cr (md_entry_message md) = true
  /\ no_cr (md_cartesia_voice_id md) = true
  /\ no_cr (md_gender md) = true
  /\ no_cr (join `" " (md_relevant_links md)) = true.
Proof.
  intros Hex Hd Hg Hi He Hv Hge Hl md; subst md.
  unfold merge_metadata; fields.
  assert (G : no_cr g = true) by (destruct Hg as [->| ->]; reflexivity).
  assert (K : forall (fp : option str) (y : str),
             no_cr (get fp []) = true -> no_cr y = true ->
             no_cr (get fp y) = true) by (intros [x|] y; auto).
  destruct existing as [[text|]|]; [|contradiction|].
  - destruct Hex as (Ht & e & P & ->).
    destruct (parse_readme_no_cr text e P Ht)
      as (_ & _ & Ni & Ne & Nv & Ng & Nl).
    destruct (parse_readme_shape text e P)
      as (n & pr & [i e0 v g0 l] & -> & _).
    unfold existing_metadata_of; fields.
    repeat split; try (now apply K).
    destruct (relevant_links p); [assumption|].
    now apply no_cr_join.
  - subst em; cbn [no_keys get image entry_message cartesia_voice_id gender
                   relevant_links].
    repeat split; try (now apply K).
    now destruct (relevant_links p).
Qed.

(** X18.  Saving the same record a second time changes nothing.  The
    key names an entry of the personas directory, and a README found
    under it holds no carriage return, as every text that was read from a
    file.  The record has a name that does not start with
    ["## Metadata"] and a prompt that neither starts with ["## "] nor has a
    line starting with ["## Metadata"].  The name, the metadata values the
    record sets, the template phrases and the default entry message hold
    neither line feed nor carriage return, the prompt holds no carriage
    return, and the default entry message has no white space at its ends.
    If the first save succeeds, it writes a README without carriage
    return, which is read back as written; the second save succeeds and
    leaves the directory exactly as the first did, whatever is drawn: a
    gender drawn by the first save is kept. *)
Theorem save_persona_twice (entries : dict node) (key : str) (p : Persona)
    (n pr : str) (rnd rnd' : nat) (fs1 : FS) :
  forallb plain_line DEFAULT_CHARACTERISTICS = true ->
  forallb plain_line DEFAULT_VOICE_CHARACTERISTICS = true ->
  clean DEFAULT_ENTRY_MESSAGE -> no_cr DEFAULT_ENTRY_MESSAGE = true ->
  entry_name key = true ->
  (forall d old, lookup key entries = Some (Dir d) ->
     readme d = Some (Readable old) -> no_cr old = true) ->
  name p = Some n -> prompt p = Some pr ->
  plain_line n = true -> startswith `"## Metadata" n = false ->
  plain_prompt pr = true -> no_cr pr = true ->
  plain_line (get (image p) []) = true ->
  plain_line (get (entry_message p) []) = true ->
  plain_line (get (cartesia_voice_id p) []) = true ->
  plain_line (get (gender p) []) = true ->
  plain_line (join `" " (get (relevant_links p) [])) = true ->
  save_persona (Some entries) key p rnd = (true, fs1) ->
  save_persona fs1 key p rnd' = (true, fs1)
  /\ exists doc, readme_of fs1 key = Some doc
                 /\ universal_newlines doc = doc.
Proof.
  intros Hc Hvc Hd Hd' _ Hold Hn Hpr Hn1 Hn2 Hpr1 Hpr2 Hi He Hv Hg Hl H.
  apply plain_lines in Hc as [Hc Hc'], Hvc as [Hvc Hvc'].
  apply plain_line_spec in Hn1 as [Hn1 Hn1'], Hi as [Hi Hi'],
    He as [He He'], Hv as [Hv Hv'], Hg as [Hg Hg'], Hl as [Hl Hl'].
  assert (X : exists d doc,
             render_persona (readme d) p rnd = Ok doc
             /\ (forall old, readme d = Some (Readable old) ->
                   no_cr old = true)
             /\ fs1 = Some (dict_set key
                              (Dir (mkDir (Some (Readable doc))
                                      (dict_set `"README.md" (Readable doc)
                                         (md_files d))))
                              entries)).
  { unfold save_persona in H.
    destruct (lookup key entries) as [[|d]|]; [discriminate| |].
    - destruct (render_persona (readme d) p rnd) as [doc|] eqn:R;
        [|discriminate].
      injection H as <-; exists d, doc; split; [assumption|].
      split; [intros old; now apply Hold|reflexivity].
    - destruct (render_persona (readme (mkDir None [])) p rnd) as [doc|] eqn:R;
        [|discriminate].
      injection H as <-; exists (mkDir None []), doc; split; [assumption|].
      split; [discriminate|reflexivity]. }
  destruct X as (d & doc & R & Hd0 & ->).
  destruct (render_persona_inv_full _ _ n pr _ _ R Hn Hpr)
    as (em & g & Hmf & Hex & ->).
  assert (S : settled em).
  { destruct (readme d) as [[text|]|]; [|contradiction|now left].
    destruct Hex as (e & P & ->); right; now exists text, e. }
  assert (Hex' : match readme d with
                 | None => em = no_keys
                 | Some (Readable text) =>
                     no_cr text = true
                     /\ exists e, parse_readme text = Ok e
                                  /\ em = existing_metadata_of e
                 | Some Unreadable => False
                 end).
  { destruct (readme d) as [[text|]|]; [|assumption|assumption].
    split; [now apply Hd0|assumption]. }
  destruct (merge_no_cr (readme d) p em g Hex' Hd' Hmf Hi' He' Hv' Hg' Hl')
    as (N1 & N2 & N3 & N4 & N5).
  destruct (merge_settled p em g [] S Hd Hmf Hi He Hv Hg Hl)
    as (M1 & M2 & M3 & M4 & M5 & _).
  set (md := merge_metadata p em g) in *.
  pose proof (parse_readme_content_metadata n pr md Hc Hvc Hn1 Hn2 Hpr1
                M1 M2 M3 M4 M5) as P.
  split.
  - unfold save_persona; rewrite lookup_dict_set; cbn [readme md_files].
    match type of P with
    | _ = Ok ?r =>
        destruct (render_persona_ok (Some (Readable (readme_content n pr md)))
                    (existing_metadata_of r) p n pr rnd'
                    (ex_intro _ r (conj P eq_refl)) Hn Hpr) as (g' & Hg0 & R')
    end.
    rewrite R'.
    assert (E : merge_metadata p
                  (existing_metadata_of
                     (mkPersona
                        (Some (strip (replace `"# " [] (`"# " ++ n))))
                        (Some (strip (hd [] (split section_sep (pr ++ [NL])))))
                        (Some (strip (md_image md)))
                        (Some (strip (md_entry_message md)))
                        (Some (strip (md_cartesia_voice_id md)))
                        (Some (strip (md_gender md)))
                        (Some (filter truthy
                                 (split_ws
                                    (strip
                                       (join `" " (md_relevant_links md))))))
                        None None)) g' = md).
    { apply (merge_settled p em g g' S Hd Hmf Hi He Hv Hg Hl). }
    rewrite E, !dict_set_dict_set; reflexivity.
  - eexists; split; [unfold readme_of; now rewrite lookup_dict_set|].
    rewrite readme_content_read by assumption.
    now rewrite (prompt_as_read_id pr Hpr2).
Qed.

End SavingAgain.

(** * What is read back after a save *)

Section ReadBack.

Import PyStr PyStrFacts.

Context {prompts : Prompts}.

Lemma replace_marker_head (old s : str) :
  old <> [] -> replace old [] (old ++ s) = replace old [] s.
Proof.
  intros H; unfold replace.
  rewrite (split_eq old (old ++ s)) by assumption.
  rewrite partition_here by apply startswith_app.
  rewrite skipn_app, skipn_all, Nat.sub_diag; cbn [skipn app].
  destruct (split old s) as [|x l] eqn:E; [now apply split_not_nil in E|].
  reflexivity.
Qed.

Lemma merge_single_line (p em : Persona) (g : str) :
  settled em -> single_line DEFAULT_ENTRY_MESSAGE = true ->
  g = `"MALE" \/ g = `"FEMALE" ->
  single_line (get (image p) []) = true ->
  single_line (get (entry_message p) []) = true ->
  single_line (get (cartesia_voice_id p) []) = true ->
  single_line (get (gender p) []) = true ->
  single_line (join `" " (get (relevant_links p) [])) = true ->
  let md := merge_metadata p em g in
  single_line (md_image md) = true
  /\ single_line (md_entry_message md) = true
  /\ single_line (md_cartesia_voice_id md) = true
  /\ single_line (md_gender md) = true
  /\ single_line (join `" " (md_relevant_links md)) = true.
Proof.
  intros Hem Hd Hg Hi He Hv Hge Hl md; subst md.
  unfold merge_metadata; fields.
  assert (G : single_line g = true) by (destruct Hg as [->| ->]; reflexivity).
  destruct Hem as [->|(text & e & P & ->)].
  - cbn [no_keys get image entry_message cartesia_voice_id gender
         relevant_links].
    repeat split; try (now apply get_single_line).
    now destruct (relevant_links p).
  - destruct (parse_readme_shape text e P)
      as (n & pr & [i e0 v g0 l] & -> & _ & _ & _ & Hmd).
    destruct Hmd as ([Hi0 _] & [He0 _] & [Hv0 _] & [Hg0 _] & Hl0).
    unfold existing_metadata_of; fields.
    repeat split; try (now apply get_single_line).
    destruct (relevant_links p); [assumption|].
    apply single_line_In, join_space_NL, Hl0.
Qed.

(** X19.  What is read back from the README of a save that succeeded.
    The key names an entry of the personas directory, and a README found
    under it holds no carriage return, as every text that was read from a
    file.  The name of the record does not start with ["## Metadata"]; the
    name, the metadata values the record sets, the template phrases and
    the default entry message hold neither line feed nor carriage return.
    The prompt may hold carriage returns: the file gives it back with
    each of them, and each pair of carriage return and line feed, as one
    line break, and in that form it neither starts with ["## "] nor has a
    line starting with ["## Metadata"].  Then the text read back parses.
    The name is read without its occurrences of ["# "] and stripped; the
    prompt is read in the form the file gives back, stripped, and only up
    to its first line that starts with ["## "]; the image, entry message,
    voice and gender that the record sets are read stripped, and its links
    are read as the words of their concatenation. *)
Theorem save_persona_read_back (entries : dict node) (key : str)
    (p : Persona) (n pr : str) (rnd : nat) (fs' : FS) :
  forallb plain_line DEFAULT_CHARACTERISTICS = true ->
  forallb plain_line DEFAULT_VOICE_CHARACTERISTICS = true ->
  plain_line DEFAULT_ENTRY_MESSAGE = true ->
  entry_name key = true ->
  (forall d old, lookup key entries = Some (Dir d) ->
     readme d = Some (Readable old) -> no_cr old = true) ->
  name p = Some n -> prompt p = Some pr ->
  plain_line n = true -> startswith `"## Metadata" n = false ->
  plain_prompt (prompt_as_read pr) = true ->
  plain_line (get (image p) []) = true ->
  plain_line (get (entry_message p) []) = true ->
  plain_line (get (cartesia_voice_id p) []) = true ->
  plain_line (get (gender p) []) = true ->
  plain_line (join `" " (get (relevant_links p) [])) = true ->
  save_persona (Some entries) key p rnd = (true, fs') ->
  exists doc r,
    readme_of fs' key = Some doc
    /\ parse_readme (universal_newlines doc) = Ok r
    /\ name r = Some (strip (replace `"# " [] n))
    /\ (contains section_sep (prompt_as_read pr) = false ->
        prompt r = Some (strip (prompt_as_read pr)))
    /\ (forall a b, prompt_as_read pr = a ++ section_sep ++ b ->
          contains section_sep a = false -> prompt r = Some (strip a))
    /\ (forall i, image p = Some i -> image r = Some (strip i))
    /\ (forall e, entry_message p = Some e ->
          entry_message r = Some (strip e))
    /\ (forall v, cartesia_voice_id p = Some v ->
          cartesia_voice_id r = Some (strip v))
    /\ (forall g, gender p = Some g -> gender r = Some (strip g))
    /\ (forall l, relevant_links p = Some l ->
          relevant_links r
          = Some (filter truthy (split_ws (strip (join `" " l))))).
Proof.
  intros Hc Hvc Hd _ Hold Hn Hpr Hn1 Hn2 Hpr1 Hi He Hv Hg Hl H.
  apply plain_lines in Hc as [Hc Hc'], Hvc as [Hvc Hvc'].
  apply plain_line_spec in Hd as [Hd Hd'], Hn1 as [Hn1 Hn1'], Hi as [Hi Hi'],
    He as [He He'], Hv as [Hv Hv'], Hg as [Hg Hg'], Hl as [Hl Hl'].
  assert (X : exists d doc,
             render_persona (readme d) p rnd = Ok doc
             /\ (forall old, readme d = Some (Readable old) ->
                   no_cr old = true)
             /\ readme_of fs' key = Some doc).
  { unfold save_persona in H.
    destruct (lookup key entries) as [[|d]|]; [discriminate| |].
    - destruct (render_persona (readme d) p rnd) as [doc|] eqn:R;
        [|discriminate].
      injection H as <-; exists d, doc; split; [assumption|].
      split; [intros old; now apply Hold|].
      unfold readme_of; now rewrite lookup_dict_set.
    - destruct (render_persona (readme (mkDir None [])) p rnd) as [doc|] eqn:R;
        [|discriminate].
      injection H as <-; exists (mkDir None []), doc; split; [assumption|].
      split; [discriminate|].
      unfold readme_of; now rewrite lookup_dict_set. }
  destruct X as (d & doc & R & Hd0 & F).
  destruct (render_persona_inv_full _ _ n pr _ _ R Hn Hpr)
    as (em & g & Hmf & Hex & ->).
  assert (S : settled em).
  { destruct (readme d) as [[text|]|]; [|contradiction|now left].
    destruct Hex as (e & P & ->); right; now exists text, e. }
  assert (Hex' : match readme d with
                 | None => em = no_keys
                 | Some (Readable text) =>
                     no_cr text = true
                     /\ exists e, parse_readme text = Ok e
                                  /\ em = existing_metadata_of e
                 | Some Unreadable => False
                 end).
  { destruct (readme d) as [[text|]|]; [|assumption|assumption].
    split; [now apply Hd0|assumption]. }
  destruct (merge_no_cr (readme d) p em g Hex' Hd' Hmf Hi' He' Hv' Hg' Hl')
    as (N1 & N2 & N3 & N4 & N5).
  destruct (merge_single_line p em g S Hd Hmf Hi He Hv Hg Hl)
    as (M1 & M2 & M3 & M4 & M5).
  eexists _, _; split; [exact F|]; split.
  - rewrite readme_content_read by assumption.
    apply (parse_readme_content_metadata n (prompt_as_read pr)
             (merge_metadata p em g)); assumption.
  - cbn [name prompt image entry_message cartesia_voice_id gender
         relevant_links].
    rewrite replace_marker_head by discriminate.
    unfold merge_metadata; fields.
    split; [reflexivity|]; split; [|split].
    + intros Hfree; rewrite (prompt_section _ Hfree).
      now rewrite strip_app_space by reflexivity.
    + intros a b -> Hfree; rewrite hd_split by discriminate.
      rewrite <- !app_assoc.
      rewrite (partition_app_None NL `"## ");
        [reflexivity|apply heading_once|now apply contains_false].
    + repeat split; intros x ->; reflexivity.
Qed.

End ReadBack.

(** * Saving the whole catalog *)

Section SavingAll.

Import PyStr PyStrFacts.

Context {prompts : Prompts}.

(** The template filled with a record of the shape the parser returns
    parses to that record again. *)
Lemma parse_rendered_shape (n pr : str) (md : Metadata) :
  forallb single_line DEFAULT_CHARACTERISTICS = true ->
  forallb single_line DEFAULT_VOICE_CHARACTERISTICS = true ->
  clean n -> strip pr = pr -> contains section_sep pr = false ->
  clean_metadata md ->
  contains `"# " n = false -> startswith `"## " pr = false ->
  parse_readme (readme_content n pr md)
  = Ok (mkPersona (Some n) (Some pr) (Some (md_image md))
          (Some (md_entry_message md)) (Some (md_cartesia_voice_id md))
          (Some (md_gender md)) (Some (md_relevant_links md)) None None).
Proof.
  intros Hc Hv [Hn Hns] Hprs Hprf Hmd Hname Hprompt.
  destruct md as [i e v g l]; destruct Hmd as ([Hi His] & [He Hes]
    & [Hvo Hvs] & [Hg Hgs] & Hl); fields.
  rewrite parse_readme_content; fields; try assumption.
  - rewrite (replace_title n Hname), Hns.
    rewrite (prompt_section pr Hprf), (stripped_line pr Hprs).
    rewrite His, Hes, Hvs, Hgs.
    rewrite (split_ws_join_strip l Hl), (filter_truthy_tokens l Hl).
    reflexivity.
  - now apply title_not_heading.
  - now apply plain_prompt_free.
  - apply single_line_In, join_space_NL, Hl.
Qed.


(** The text written for a record that holds every key: its own values,
    whatever the README next to it holds and whatever is drawn. *)
Lemma render_complete (existing : option file) (p : Persona)
    (n pr i e v g : str) (l : list str) (rnd : nat) :
  match existing with
  | None => True
  | Some (Readable text) => exists e0, parse_readme text = Ok e0
  | Some Unreadable => False
  end ->
  name p = Some n -> prompt p = Some pr -> image p = Some i ->
  entry_message p = Some e -> cartesia_voice_id p = Some v ->
  gender p = Some g -> relevant_links p = Some l ->
  render_persona existing p rnd
  = Ok (readme_content n pr (mkMetadata i e v g l)).
Proof.
  intros Hex Hn Hpr Hi He Hv Hg Hl.
  assert (X : exists em,
             match existing with
             | None => em = no_keys
             | Some (Readable text) =>
                 exists e0, parse_readme text = Ok e0
                            /\ em = existing_metadata_of e0
             | Some Unreadable => False
             end).
  { destruct existing as [[text|]|]; [|contradiction|now exists no_keys].
    destruct Hex as (e0 & He0); exists (existing_metadata_of e0), e0.
    now split. }
  destruct X as (em & X).
  destruct (render_persona_ok existing em p n pr rnd X Hn Hpr)
    as (g' & _ & ->).
  unfold merge_metadata; now rewrite Hi, He, Hv, Hg, Hl.
Qed.



(** The text written for a record that came out of the parser: its own
    values, whatever the README next to it holds and whatever is drawn. *)
Lemma render_parsed (existing : option file) (d : persona_dir)
    (content : str) (r : Persona) (rnd : nat) :
  parse_readme content = Ok r ->
  match existing with
  | None => True
  | Some (Readable text) => exists e, parse_readme text = Ok e
  | Some Unreadable => False
  end ->
  render_persona existing (with_additional_content d r) rnd
  = Ok (readme_content (get (name r) []) (get (prompt r) []) (metadata_of r)).
Proof.
  intros P Hex.
  destruct (parse_readme_shape content r P)
    as (n & pr & [i e v g l] & -> & _).
  set (r := mkPersona _ _ _ _ _ _ _ _ _).
  assert (X : exists em,
             match existing with
             | None => em = no_keys
             | Some (Readable text) =>
                 exists e, parse_readme text = Ok e
                           /\ em = existing_metadata_of e
             | Some Unreadable => False
             end).
  { destruct existing as [[text|]|]; [|contradiction|now exists no_keys].
    destruct Hex as (e0 & He0); exists (existing_metadata_of e0), e0.
    now split. }
  destruct X as (em & X).
  destruct (render_persona_ok existing em (with_additional_content d r)
              n pr rnd X) as (g' & _ & ->).
  - unfold with_additional_content; now destruct (truthy _).
  - unfold with_additional_content; now destruct (truthy _).
  - f_equal; unfold with_additional_content; now destruct (truthy _).
Qed.

Lemma lookup_NoDup_In {A : Type} (k : str) (v : A) (d : dict A) :
  NoDup (keys d) -> In (k, v) d -> lookup k d = Some v.
Proof.
  induction d as [|[k0 v0] d IH]; intros N H; [destruct H|].
  inversion N as [|? ? N0 N1]; subst; cbn [lookup].
  destruct H as [[= -> ->]|H].
  - now rewrite eqb_refl.
  - destruct (eqb k k0) eqn:E; [|now apply IH].
    apply eqb_eq in E as ->; exfalso; apply N0.
    change k0 with (fst (k0, v)); now apply in_map.
Qed.

Lemma eqb_sym (a b : str) : eqb a b = eqb b a.
Proof.
  destruct (eqb a b) eqn:E.
  - apply eqb_eq in E as ->; now rewrite eqb_refl.
  - symmetry; apply eqb_neq; intros ->; now rewrite eqb_refl in E.
Qed.

Lemma resaved_entries_cons_other (k : str) (done : list str)
    (es : dict node) :
  ~ In k (keys es) ->
  resaved_entries (k :: done) es = resaved_entries done es.
Proof.
  intros N; unfold resaved_entries; apply map_ext_in; intros [k0 n0] Hin.
  cbn [fst snd mem existsb].
  replace (eqb k0 k) with false; [reflexivity|].
  symmetry; apply eqb_neq; intros ->; apply N.
  change k with (fst (k, n0)); now apply in_map.
Qed.

Lemma dict_set_resaved (done : list str) (es : dict node) (k : str)
    (nd : node) :
  NoDup (keys es) -> lookup k es = Some nd ->
  dict_set k (resaved nd) (resaved_entries done es)
  = resaved_entries (k :: done) es.
Proof.
  induction es as [|[k0 n0] es IH]; intros N L; [discriminate|].
  inversion N as [|? ? N0 N1]; subst.
  cbn [lookup] in L.
  change (resaved_entries done ((k0, n0) :: es))
    with ((if mem k0 done then (k0, resaved n0) else (k0, n0))
          :: resaved_entries done es).
  change (resaved_entries (k :: done) ((k0, n0) :: es))
    with ((if eqb k0 k || mem k0 done then (k0, resaved n0) else (k0, n0))
          :: resaved_entries (k :: done) es).
  rewrite (eqb_sym k0 k).
  destruct (eqb k k0) eqn:E.
  - apply eqb_eq in E as ->; injection L as ->; cbn [orb].
    rewrite (resaved_entries_cons_other k0 done es N0).
    destruct (mem k0 done); cbn [dict_set]; now rewrite eqb_refl.
  - cbn [orb]; rewrite <- (IH N1 L).
    destruct (mem k0 done); cbn [dict_set]; now rewrite E.
Qed.

Lemma lookup_resaved_entries (done : list str) (es : dict node) (k : str) :
  mem k done = false -> lookup k (resaved_entries done es) = lookup k es.
Proof.
  intros M; induction es as [|[k0 n0] es IH]; [reflexivity|].
  change (resaved_entries done ((k0, n0) :: es))
    with ((if mem k0 done then (k0, resaved n0) else (k0, n0))
          :: resaved_entries done es).
  cbn [lookup]; destruct (eqb k k0) eqn:E.
  - apply eqb_eq in E as <-; rewrite M; cbn [lookup]; now rewrite eqb_refl.
  - destruct (mem k0 done); cbn [lookup]; now rewrite E, IH.
Qed.

Lemma mem_false (x : str) (l : list str) : ~ In x l -> mem x l = false.
Proof.
  intros N; destruct (mem x l) eqn:M; [|reflexivity].
  now apply mem_In in M.
Qed.

(** The loop of [save_personas] over records that came out of the READMEs
    of the directory. *)
Lemma save_loop_loaded (entries : dict node) (h : store) :
  NoDup (keys entries) ->
  forall (c : dict Persona) (i : nat) (rnd : nat -> nat) (done : list str)
         (success : bool),
    NoDup (keys c) ->
    (forall k, In k (keys c) -> ~ In k done) ->
    (forall j k r, nth_error c j = Some (k, r) -> deref h (i + j) = r) ->
    (forall k r, In (k, r) c ->
       exists d content r0,
         lookup k entries = Some (Dir d)
         /\ readme d = Some (Readable content)
         /\ parse_readme content = Ok r0
         /\ r = with_additional_content d r0) ->
    save_loop h (combine (keys c) (seq i (length c))) rnd
      (Some (resaved_entries done entries)) success
    = (success, Some (resaved_entries (rev (keys c) ++ done) entries)).
Proof.
  intros Ne; induction c as [|[k r] c IH]; intros i rnd done success N Hd Hh Hc.
  - reflexivity.
  - cbn [keys map fst length seq combine save_loop].
    inversion N as [|? ? N0 N1]; subst.
    destruct (Hc k r (or_introl eq_refl))
      as (d & content & r0 & Le & R & P & Er).
    assert (D : deref h i = r).
    { rewrite <- (Hh 0 k r eq_refl); f_equal; lia. }
    rewrite D.
    unfold save_persona at 1.
    rewrite lookup_resaved_entries, Le, R
      by (apply mem_false, Hd; now left).
    rewrite Er, (render_parsed _ d content r0 (rnd 0) P)
      by (now exists r0).
    set (text := readme_content _ _ _).
    assert (Dn : Dir (mkDir (Some (Readable text))
                    (dict_set `"README.md" (Readable text) (md_files d)))
                 = resaved (Dir d)).
    { cbn [resaved]; unfold resaved_dir; now rewrite R, P. }
    rewrite Dn, (dict_set_resaved done entries k (Dir d) Ne Le).
    fold (keys c).
    rewrite (IH (S i) (fun i => rnd (S i)) (k :: done) success N1).
    + cbn [rev]; fold (keys c); now rewrite <- app_assoc.
    + intros k' Hin [<-|X]; [contradiction|].
      apply (Hd k'); [now right|assumption].
    + intros j k' r' Hj; rewrite <- (Hh (S j) k' r' Hj); f_equal; lia.
    + intros k' r' Hin; apply Hc; now right.
Qed.


Lemma In_mem (x : str) (l : list str) : In x l -> mem x l = true.
Proof. apply mem_In. Qed.

Lemma resaved_not_loaded (catalog : dict Persona) (e : str * node) :
  lookup (fst e) catalog = loaded [] e ->
  lookup (fst e) catalog = None -> resaved (snd e) = snd e.
Proof.
  intros L N; rewrite N in L; unfold loaded in L.
  destruct (snd e) as [|d]; [reflexivity|].
  cbn [resaved]; unfold resaved_dir.
  destruct (readme d) as [[content|]|]; try reflexivity.
  destruct (parse_readme content); [discriminate|reflexivity].
Qed.

Lemma resaved_entries_all (entries : dict node) (catalog : dict Persona) :
  NoDup (keys entries) -> load_loop entries [] = Ok catalog ->
  resaved_entries (rev (keys catalog) ++ []) entries
  = map (fun e => (fst e, resaved (snd e))) entries.
Proof.
  intros N L; unfold resaved_entries; apply map_ext_in; intros e Hin.
  destruct (mem (fst e) (rev (keys catalog) ++ [])) eqn:M; [reflexivity|].
  destruct (load_loop_lookup entries N [] catalog L) as [Hl _].
  rewrite (resaved_not_loaded catalog e (Hl e Hin)); [now destruct e|].
  destruct (lookup (fst e) catalog) as [r|] eqn:E; [|reflexivity].
  apply lookup_In in E; rewrite app_nil_r in M.
  rewrite In_mem in M; [discriminate|].
  now apply in_rev in E.
Qed.


Lemma nth_values {A : Type} (d : dict A) (j : nat) (k : str) (v default : A) :
  nth_error d j = Some (k, v) -> nth j (values d) default = v.
Proof.
  intros H; apply nth_error_nth; unfold values.
  now rewrite (map_nth_error snd j d H).
Qed.

(** The records of a catalog that was loaded, as [save_loop_loaded] needs
    them. *)
Lemma loaded_records (entries : dict node) (catalog : dict Persona) :
  NoDup (keys entries) -> load_loop entries [] = Ok catalog ->
  forall k r, In (k, r) catalog ->
    exists d content r0,
      lookup k entries = Some (Dir d)
      /\ readme d = Some (Readable content)
      /\ parse_readme content = Ok r0
      /\ r = with_additional_content d r0.
Proof.
  intros N L k r Hin.
  destruct (load_loop_In entries [] catalog k r L Hin)
    as [[]|(d & content & r0 & Hd & R & P & E)].
  exists d, content, r0; split; [now apply lookup_NoDup_In|now split].
Qed.

Lemma resaved_entries_nil (entries : dict node) :
  resaved_entries [] entries = entries.
Proof.
  unfold resaved_entries; rewrite <- (map_id entries) at 2.
  apply map_ext; reflexivity.
Qed.

(** The loop of [save_personas] over the catalog that was loaded from the
    directory it writes to. *)
Lemma save_loop_catalog (entries : dict node) (catalog : dict Persona)
    (rnd : nat -> nat) :
  NoDup (keys entries) -> load_loop entries [] = Ok catalog ->
  save_loop (values catalog)
    (combine (keys catalog) (seq 0 (length catalog))) rnd (Some entries) true
  = (true, Some (map (fun e => (fst e, resaved (snd e))) entries)).
Proof.
  intros N L.
  rewrite <- (resaved_entries_all entries catalog N L).
  rewrite <- (resaved_entries_nil entries) at 1.
  apply save_loop_loaded; try assumption.
  - apply (load_loop_NoDup entries [] catalog); [constructor|assumption].
  - intros k _ [].
  - intros j k r Hj; unfold deref; cbn [Nat.add].
    now apply (nth_values catalog j k).
  - now apply loaded_records.
Qed.


(** X20.  [save_personas], called on the directory the manager was built
    from (its names being distinct), returns True; afterwards every
    directory whose README was loaded holds the template filled with the
    record parsed from that README, and every other entry is as before. *)
Theorem save_personas_after_init (dir : str) (entries : dict node)
    (m : PersonaManager) (rnd : nat -> nat) :
  NoDup (keys entries) -> init dir (Some entries) = Ok m ->
  save_personas m rnd (Some entries)
  = (true, Some (map (fun e => (fst e, resaved (snd e))) entries)).
Proof.
  intros N H; unfold init in H; cbn [load_personas] in H.
  destruct (load_loop entries []) as [catalog|] eqn:L; [|discriminate].
  cbn [bind] in H; injection H as <-.
  unfold save_personas; cbn [objects personas].
  now apply save_loop_catalog.
Qed.


(** ** update_persona_image on a catalog that was loaded *)

(** X22.  [update_persona_image] right after the load.  The manager is
    built from a directory with distinct names; the README of the key
    holds no carriage return, as every text that was read from a file; the
    record of the key has a name without ["# "] and a prompt that does not
    start with ["## "]; the new image is a single line without white space
    at its ends and without carriage return, and the template phrases hold
    neither line feed nor carriage return.  Then the call returns True,
    the README it writes holds no carriage return and is read back as
    written, and it parses to a record with the new image that agrees
    with the stored record on name, prompt, image, entry_message,
    cartesia_voice_id, gender and relevant_links. *)
Theorem update_persona_image_saved (dir : str) (entries : dict node)
    (m : PersonaManager) (key url : str) (rnd : nat) (a : addr)
    (n pr : str) :
  forallb plain_line DEFAULT_CHARACTERISTICS = true ->
  forallb plain_line DEFAULT_VOICE_CHARACTERISTICS = true ->
  NoDup (keys entries) ->
  init dir (Some entries) = Ok m ->
  lookup key (personas m) = Some a ->
  (forall d content, lookup key entries = Some (Dir d) ->
     readme d = Some (Readable content) -> no_cr content = true) ->
  name (deref (objects m) a) = Some n ->
  prompt (deref (objects m) a) = Some pr ->
  contains `"# " n = false -> startswith `"## " pr = false ->
  clean url -> no_cr url = true ->
  exists m' fs' doc r,
    update_persona_image m (Some entries) key url rnd = (true, m', fs')
    /\ readme_of fs' key = Some doc
    /\ universal_newlines doc = doc
    /\ parse_readme doc = Ok r
    /\ image r = Some url
    /\ name r = name (deref (objects m') a)
    /\ prompt r = prompt (deref (objects m') a)
    /\ image r = image (deref (objects m') a)
    /\ entry_message r = entry_message (deref (objects m') a)
    /\ cartesia_voice_id r = cartesia_voice_id (deref (objects m') a)
    /\ gender r = gender (deref (objects m') a)
    /\ relevant_links r = relevant_links (deref (objects m') a).
Proof.
  intros Hc Hv N H Hkey Hcr Hn Hpr Hname Hprompt Hurl Hurl'.
  apply plain_lines in Hc as [Hc Hc'], Hv as [Hv Hv'].
  unfold init in H; cbn [load_personas] in H.
  destruct (load_loop entries []) as [catalog|] eqn:L; [|discriminate].
  cbn [bind] in H; injection H as <-; cbn [objects personas] in *.
  destruct (lookup_combine_seq catalog 0 key a Hkey)
    as (i & s & -> & Hs & Hi); cbn [Nat.add] in *.
  assert (D : deref (values catalog) i = s).
  { unfold deref; now apply nth_error_nth. }
  assert (B : i < length (values catalog)).
  { apply nth_error_Some; congruence. }
  rewrite D in Hn, Hpr.
  destruct (loaded_records entries catalog N L key s
              (lookup_In_pair key catalog s Hs))
    as (d & content & r0 & Le & R & P & Es).
  pose proof (parse_readme_no_cr content r0 P (Hcr d content Le R))
    as (Nn & Np & _ & Ne & Nv & Ng & Nl).
  destruct (parse_readme_shape content r0 P)
    as (n0 & pr0 & [i0 e0 v0 g0 l0] & -> & Hn0 & Hprs & Hprf & Hmd).
  assert (F : name s = Some n0 /\ prompt s = Some pr0
              /\ entry_message s = Some e0 /\ cartesia_voice_id s = Some v0
              /\ gender s = Some g0 /\ relevant_links s = Some l0).
  { rewrite Es; unfold with_additional_content; destruct (truthy _);
      repeat split. }
  destruct F as (Fn & Fp & Fe & Fv & Fg & Fl).
  assert (n0 = n) by congruence; assert (pr0 = pr) by congruence.
  subst n0 pr0; fields.
  unfold update_persona_image; cbn [personas objects personas_dir].
  rewrite Hkey; unfold setitem; rewrite deref_store_set, D by assumption.
  unfold save_persona; rewrite Le, R.
  rewrite (render_complete (Some (Readable content)) (set_image url s)
             n pr url e0 v0 g0 l0 rnd)
    by (try (now exists (mkPersona (Some n) (Some pr) (Some i0) (Some e0)
                           (Some v0) (Some g0) (Some l0) None None));
        assumption || reflexivity).
  destruct Hmd as (_ & He & Hvo & Hg & Hl); fields.
  eexists _, _, _, _; split; [reflexivity|].
  split; [unfold readme_of; now rewrite lookup_dict_set|].
  split; [|split].
  - rewrite readme_content_read; fields; try assumption.
    + now rewrite (prompt_as_read_id pr Np).
    + now apply no_cr_join.
  - apply parse_rendered_shape; try assumption.
    repeat split; assumption || apply He || apply Hvo || apply Hg
                  || apply Hurl.
  - cbn [objects]; rewrite deref_store_set by assumption.
    cbn [set_image image name prompt entry_message cartesia_voice_id gender
         relevant_links].
    now rewrite Fn, Fp, Fe, Fv, Fg, Fl.
Qed.

End SavingAll.

(** * The personas directory at startup *)

Section Validation.

Import PyStr PyStrFacts.

Lemma keys_dict_set_new {A : Type} (k : str) (v : A) (d : dict A) :
  ~ In k (keys d) -> keys (dict_set k v d) = keys d ++ [k].
Proof.
  induction d as [|[k0 v0] d IH]; intros N; [reflexivity|].
  cbn [dict_set]; destruct (eqb k k0) eqn:E.
  - apply eqb_eq in E as ->; exfalso; apply N; now left.
  - cbn [keys map fst app]; f_equal; apply IH.
    intros H; apply N; now right.
Qed.

(** The keys of the catalog are the names of the directories with a README,
    in the order of the listing. *)
Lemma load_loop_keys (entries : dict node) :
  NoDup (keys entries) ->
  forall personas catalog,
    (forall k, In k (keys entries) -> ~ In k (keys personas)) ->
    load_loop entries personas = Ok catalog ->
    keys catalog = keys personas ++ map fst (filter has_readme entries).
Proof.
  induction entries as [|[k nd] entries IH]; intros N personas catalog D H.
  - cbn in H; injection H as <-; cbn; now rewrite app_nil_r.
  - inversion N as [|? ? N0 N1]; subst.
    cbn [load_loop] in H.
    destruct (load_entry personas (k, nd)) as [personas'|] eqn:E;
      [|discriminate].
    cbn [bind] in H; cbn [filter]; unfold has_readme at 1; cbn [snd].
    unfold load_entry in E; cbn [snd fst] in E.
    assert (Keep : personas' = personas ->
                   keys catalog
                   = keys personas ++ map fst (filter has_readme entries)).
    { intros ->; apply (IH N1 personas catalog); [|assumption].
      intros k' Hk'; apply D; now right. }
    destruct nd as [|d]; [injection E as <-; now apply Keep|].
    destruct (readme d) as [[content|]|]; try discriminate.
    + destruct (parse_readme content) as [r|]; [|discriminate].
      cbn [bind] in E; injection E as <-.
      rewrite (IH N1 (dict_set k (with_additional_content d r) personas)
                 catalog); [| |assumption].
      * rewrite keys_dict_set_new by (apply D; now left).
        cbn [map fst]; now rewrite <- app_assoc.
      * intros k' Hk' X.
        rewrite keys_dict_set_new in X by (apply D; now left).
        apply in_app_or in X as [X|[<-|[]]]; [|contradiction].
        revert X; apply D; now right.
    + injection E as <-; now apply Keep.
Qed.

(** X23.  When the load of a directory with distinct names completes,
    [validate_personas] on that directory reports the keys of the catalog,
    in its order, and their number, and it reports the directory valid
    exactly when the catalog is not empty. *)
Theorem validate_personas_load (entries : dict node)
    (catalog : dict Persona) :
  NoDup (keys entries) -> load_personas (Some entries) = Ok catalog ->
  validate_personas true (Some entries)
  = Ok (0 <? length catalog, length catalog, keys catalog).
Proof.
  intros N H; cbn [load_personas] in H.
  pose proof (load_loop_keys entries N [] catalog (fun _ _ X => X) H) as K.
  cbn [keys map app] in K; unfold validate_personas; cbn [negb].
  fold (keys catalog) in K.
  rewrite <- K; unfold keys; now rewrite length_map.
Qed.

(** X24.  [validate_personas] only looks for README files: a directory
    in which one README has no blank line before its first section is
    reported valid, the name of that persona among its names, while
    [load_personas] raises on it. *)
Theorem validate_personas_malformed (entries : dict node) (k : str)
    (d : persona_dir) (content : str) :
  In (k, Dir d) entries -> readme d = Some (Readable content) ->
  contains [NL; NL] (preamble content) = false ->
  (exists n names,
     validate_personas true (Some entries) = Ok (true, S n, names)
     /\ In k names)
  /\ exists e, load_personas (Some entries) = Raise e.
Proof.
  intros Hin R G; split.
  - assert (I : In k (map fst (filter has_readme entries))).
    { change k with (fst (k, Dir d)); apply in_map, filter_In.
      split; [assumption|]; unfold has_readme; cbn [snd]; now rewrite R. }
    unfold validate_personas; cbn [negb].
    destruct (map fst (filter has_readme entries)) as [|x l] eqn:E;
      [destruct I|].
    exists (length l), (x :: l); split; [reflexivity|assumption].
  - cbn [load_personas]; apply (load_loop_raise entries (k, Dir d) Hin).
    intros personas; exists IndexError; unfold load_entry; cbn [snd fst].
    now rewrite R, (parse_readme_no_gap content G).
Qed.

End Validation.

(** * The environment at startup *)

Section Environment.

Import PyStr PyStrFacts.

Lemma missing_key_valid (value : option str) :
  missing value = negb (key_valid value).
Proof.
  destruct value as [v|]; [|reflexivity]; cbn [missing key_valid].
  now rewrite negb_andb, negb_involutive.
Qed.

(** X25.  [validate_env_vars] returns no error exactly when
    MEETING_BAAS_API_KEY, OPENAI_API_KEY and CARTESIA_API_KEY are each set
    to a value that is not empty and does not start with ["your_"], and so
    is DEEPGRAM_API_KEY or GLADIA_API_KEY.  It returns at most four errors,
    each starting with ["Missing "]. *)
Theorem validate_env_vars_spec (getenv : environ) :
  (validate_env_vars getenv = []
   <-> key_valid (getenv `"MEETING_BAAS_API_KEY") = true
       /\ key_valid (getenv `"OPENAI_API_KEY") = true
       /\ key_valid (getenv `"CARTESIA_API_KEY") = true
       /\ (key_valid (getenv `"DEEPGRAM_API_KEY") = true
           \/ key_valid (getenv `"GLADIA_API_KEY") = true))
  /\ length (validate_env_vars getenv) <= 4
  /\ Forall (fun error => startswith `"Missing " error = true)
       (validate_env_vars getenv).
Proof.
  unfold validate_env_vars, required_vars; cbn [flat_map fst snd].
  rewrite !missing_key_valid.
  destruct (key_valid (getenv `"MEETING_BAAS_API_KEY"));
    destruct (key_valid (getenv `"OPENAI_API_KEY"));
    destruct (key_valid (getenv `"CARTESIA_API_KEY"));
    destruct (key_valid (getenv `"DEEPGRAM_API_KEY"));
    destruct (key_valid (getenv `"GLADIA_API_KEY"));
    cbn [negb andb app length];
    (split; [split; [try discriminate; intros _; repeat split; auto
                    |intros (A & B & C & [D|D]); try discriminate;
                     reflexivity]
            |split; [lia|repeat constructor]]).
Qed.

End Environment.

(** * The theorems on the sample data *)

Section Samples.

Import PyStr.

(** The string methods on small inputs. *)

Example split_blank_lines : split [NL; NL] [NL; NL; NL] = [ []; [NL] ].
Proof. reflexivity. Qed.

Example split_underscores : split `"_" `"a__b" = [ `"a"; []; `"b" ].
Proof. reflexivity. Qed.

Example split_empty : split `"_" [] = [ [] ].
Proof. reflexivity. Qed.

Example replace_marker : replace `"# " [] `"##  x" = `"# x".
Proof. reflexivity. Qed.

Example replace_every_marker : replace `"# " [] `"# C# Dev" = `"CDev".
Proof. reflexivity. Qed.

Example strip_both_ends : strip (`"  a b" ++ NL :: `" ") = `"a b".
Proof. reflexivity. Qed.

Example split_ws_runs :
  split_ws (`" a  bc" ++ NL :: `"d ") = [ `"a"; `"bc"; `"d" ].
Proof. reflexivity. Qed.

Example lower_letters : lower `"Tech GURU" = `"tech guru".
Proof. reflexivity. Qed.

Example folder_name_of_query : folder_name_of `"Tech Expert" = `"tech_expert".
Proof. reflexivity. Qed.

Example path_join_relative :
  path_join `"config/personas" `"tech_guru" = `"config/personas/tech_guru".
Proof. reflexivity. Qed.

Example parse_tech_guru : parse_readme tech_guru_readme = Ok tech_guru.
Proof. reflexivity. Qed.

(** C1: one README without blank line makes the whole load fail. *)
Lemma load_personas_title_only :
  contains [NL; NL] (preamble title_only_readme) = false
  /\ parse_readme tech_guru_readme = Ok tech_guru
  /\ load_personas (Some fs_with_title_only) = Raise IndexError.
Proof. repeat split; reflexivity. Qed.

(** C1 on the directory with the README without blank line. *)
Lemma load_personas_malformed_readme_witness :
  In (`"silent_bob", sample_dir title_only_readme) fs_with_title_only
  /\ contains [NL; NL] (preamble title_only_readme) = false
  /\ exists e, load_personas (Some fs_with_title_only) = Raise e.
Proof.
  split; [now left|]; split; [reflexivity|].
  apply (proj1 load_personas_malformed_readme fs_with_title_only
           `"silent_bob"
           (mkDir (Some (Readable title_only_readme))
              [ (`"README.md", Readable title_only_readme) ])
           title_only_readme); [now left|reflexivity|reflexivity].
Defined.

(** C2: records with an empty prompt and with an empty name are stored. *)
Lemma load_personas_empty_fields :
  exists catalog r1 r2,
    load_personas (Some fs_with_empty_fields) = Ok catalog
    /\ lookup `"no_prompt" catalog = Some r1 /\ prompt r1 = Some []
    /\ lookup `"no_title" catalog = Some r2 /\ name r2 = Some [].
Proof. eexists _, _, _; repeat split; reflexivity. Qed.

(** C2 on the directory of tech_guru. *)
Lemma load_personas_records_witness :
  load_personas (Some fs_tech_guru) = Ok [ (`"tech_guru", tech_guru) ]
  /\ exists entries d content r0 n pr,
       Some fs_tech_guru = Some entries /\ In (`"tech_guru", Dir d) entries
       /\ readme d = Some (Readable content)
       /\ parse_readme content = Ok r0
       /\ tech_guru = with_additional_content d r0
       /\ name tech_guru = Some n /\ prompt tech_guru = Some pr
       /\ strip n = n /\ strip pr = pr.
Proof.
  split; [reflexivity|].
  apply (load_personas_records (Some fs_tech_guru)
           [ (`"tech_guru", tech_guru) ] `"tech_guru" tech_guru);
    [reflexivity|now left].
Defined.


(** C3: the path of a closest match is built from the query, and the path
    of a random choice from the display name; neither is the key of the
    record returned. *)
Theorem get_persona_path_not_of_key :
  (exists a m',
     get_persona (prompts := sample_prompts) sample_manager
       (Some `"tech expert") 0 = Ok (a, m')
     /\ name (deref (objects m') a) = Some `"Tech Guru"
     /\ path (deref (objects m') a) = Some `"config/personas/tech_expert"
     /\ lookup `"tech_expert" (personas sample_manager) = None
     /\ lookup `"tech_guru" (personas sample_manager) = Some 0)
  /\ (exists a m',
        get_persona (prompts := sample_prompts) renamed_manager None 0
        = Ok (a, m')
        /\ name (deref (objects m') a) = Some `"Tech Guru"
        /\ path (deref (objects m') a) = Some `"config/personas/tech_guru"
        /\ keys (personas renamed_manager) = [ `"guru" ]).
Proof. split; eexists _, _; repeat split; reflexivity. Qed.

(** C4: a README that parses, and whose rendering does not. *)
Lemma readme_round_trip_indented_heading :
  exists r doc,
    parse_readme indented_heading_readme = Ok r
    /\ render_persona (prompts := sample_prompts) None r 0 = Ok doc
    /\ parse_readme doc = Raise IndexError.
Proof. eexists _, _; repeat split; reflexivity. Qed.

(** C4 on the README of tech_guru. *)
Lemma readme_round_trip_witness :
  parse_readme tech_guru_readme = Ok tech_guru
  /\ (exists doc,
        render_persona (prompts := sample_prompts) None tech_guru 0 = Ok doc)
  /\ (forall existing doc,
        render_persona (prompts := sample_prompts) existing tech_guru 0
        = Ok doc ->
        parse_readme doc = Ok tech_guru).
Proof.
  split; [reflexivity|].
  apply (readme_round_trip (prompts := sample_prompts) tech_guru_readme
           tech_guru 0); reflexivity.
Defined.

(** C5 on the sample manager: friendly_coach shares two words with the
    query, tech_guru none. *)
Lemma get_persona_closest_match_witness :
  lookup (folder_name_of `"coach friendly") (personas sample_manager) = None
  /\ get_persona (prompts := sample_prompts) sample_manager
       (Some `"coach friendly") 0
     = Ok (2,
           mkManager `"config/personas"
             [ tech_guru; friendly_coach;
               delivered (prompts := sample_prompts) friendly_coach
                 `"You cheer people up."
                 `"config/personas/coach_friendly" ]
             (personas sample_manager)).
Proof.
  split; [reflexivity|].
  apply (proj1 (get_persona_closest_match (prompts := sample_prompts))
           sample_manager `"coach friendly" [ (`"tech_guru", 0) ]
           `"friendly_coach" 1 [] `"You cheer people up." 0);
    try reflexivity.
  - intros k' [<-|[]]; vm_compute; lia.
  - intros k' [].
  - vm_compute; lia.
Defined.

(** C6 on the sample manager. *)
Lemma get_persona_existing_key_witness :
  lookup (folder_name_of `"Tech Guru") (personas sample_manager) = Some 0
  /\ exists a' m',
       get_persona (prompts := sample_prompts) sample_manager
         (Some `"Tech Guru") 0 = Ok (a', m')
       /\ name (deref (objects m') a') = name tech_guru
       /\ prompt (deref (objects m') a')
          = Some (`"You explain technology in plain words."
                  ++ PERSONA_INTERACTION_INSTRUCTIONS
                       (Prompts := sample_prompts))
       /\ personas m' = personas sample_manager
       /\ deref (objects m') 0 = tech_guru
       /\ exists a'' m'',
            get_persona (prompts := sample_prompts) m' (Some `"Tech Guru") 1
            = Ok (a'', m'')
            /\ prompt (deref (objects m'') a'')
               = Some (`"You explain technology in plain words."
                       ++ PERSONA_INTERACTION_INSTRUCTIONS
                            (Prompts := sample_prompts))
            /\ deref (objects m'') 0 = tech_guru.
Proof.
  split; [reflexivity|].
  apply (get_persona_existing_key (prompts := sample_prompts) sample_manager
           `"Tech Guru" 0 tech_guru
           `"You explain technology in plain words." 0 1);
    try reflexivity.
  simpl; intros [H|[H|[]]]; discriminate.
Defined.


(** C7: a prompt that starts with a heading is written into a README that
    does not parse any more, and a prompt with a Metadata heading of its own
    hides the stored metadata from the parser, be it after a line feed or
    after a carriage return, which the file gives back as a line feed. *)
Lemma save_persona_prompt_with_heading :
  parse_readme tech_guru_readme = Ok tech_guru
  /\ (exists fs' doc,
        save_persona (prompts := sample_prompts) (Some fs_tech_guru)
          `"tech_guru" prompt_with_heading 0 = (true, fs')
        /\ readme_of fs' `"tech_guru" = Some doc
        /\ universal_newlines doc = doc
        /\ parse_readme doc = Raise IndexError)
  /\ (exists fs' doc r',
        save_persona (prompts := sample_prompts) (Some fs_tech_guru)
          `"tech_guru" prompt_with_metadata_heading 0 = (true, fs')
        /\ readme_of fs' `"tech_guru" = Some doc
        /\ universal_newlines doc = doc
        /\ parse_readme doc = Ok r'
        /\ entry_message r' = Some []
        /\ cartesia_voice_id r' = Some []
        /\ gender r' = Some `"FEMALE"
        /\ relevant_links r' = Some [])
  /\ (exists fs' doc r',
        save_persona (prompts := sample_prompts) (Some fs_tech_guru)
          `"tech_guru" prompt_with_carriage_return 0 = (true, fs')
        /\ readme_of fs' `"tech_guru" = Some doc
        /\ parse_readme (universal_newlines doc) = Ok r'
        /\ entry_message r' = Some []
        /\ cartesia_voice_id r' = Some []
        /\ gender r' = Some `"FEMALE"
        /\ relevant_links r' = Some []).
Proof.
  split; [reflexivity|]; split; [|split].
  - eexists _, _; repeat split; reflexivity.
  - eexists _, _, _; repeat split; reflexivity.
  - eexists _, _, _; repeat split; reflexivity.
Qed.

(** C7 on the README of tech_guru and a record with a new image. *)
Lemma save_persona_keeps_metadata_witness :
  parse_readme tech_guru_readme = Ok tech_guru
  /\ exists fs' doc r',
       save_persona (prompts := sample_prompts) (Some fs_tech_guru)
         `"tech_guru" new_image 0 = (true, fs')
       /\ readme_of fs' `"tech_guru" = Some doc
       /\ parse_readme (universal_newlines doc) = Ok r'
       /\ entry_message r' = entry_message tech_guru
       /\ cartesia_voice_id r' = cartesia_voice_id tech_guru
       /\ gender r' = gender tech_guru
       /\ relevant_links r' = relevant_links tech_guru.
Proof.
  split; [reflexivity|].
  apply (save_persona_keeps_metadata (prompts := sample_prompts)
           fs_tech_guru `"tech_guru"
           (mkDir (Some (Readable tech_guru_readme))
              [ (`"README.md", Readable tech_guru_readme) ])
           tech_guru_readme
           tech_guru new_image `"Tech Guru"
           `"You explain technology in plain words."
           `"https://utfs.io/f/new.png" 0); reflexivity.
Defined.

(** C8: the gender drawn is written, and the parser does not read it
    back: a prompt that starts with a heading leaves a README that does not
    parse, and after a Metadata heading in the prompt the gender read is
    empty, be the heading after a line feed or after a carriage return,
    which the file gives back as a line feed. *)
Lemma save_persona_gender_not_read_back :
  (exists fs' doc,
     save_persona (prompts := sample_prompts) (Some []) `"new_comer"
       newcomer_with_heading 0 = (true, fs')
     /\ readme_of fs' `"new_comer" = Some doc
     /\ contains `"- gender: MALE" doc = true
     /\ universal_newlines doc = doc
     /\ parse_readme doc = Raise IndexError)
  /\ (exists fs' doc r',
        save_persona (prompts := sample_prompts) (Some []) `"new_comer"
          newcomer_with_metadata_heading 0 = (true, fs')
        /\ readme_of fs' `"new_comer" = Some doc
        /\ contains `"- gender: MALE" doc = true
        /\ universal_newlines doc = doc
        /\ parse_readme doc = Ok r'
        /\ gender r' = Some [])
  /\ (exists fs' doc r',
        save_persona (prompts := sample_prompts) (Some []) `"new_comer"
          newcomer_with_carriage_return 0 = (true, fs')
        /\ readme_of fs' `"new_comer" = Some doc
        /\ contains `"- gender: MALE" doc = true
        /\ parse_readme (universal_newlines doc) = Ok r'
        /\ gender r' = Some []).
Proof.
  split; [|split].
  - eexists _, _; repeat split; reflexivity.
  - eexists _, _, _; repeat split; reflexivity.
  - eexists _, _, _; repeat split; reflexivity.
Qed.

(** C8 on an empty personas directory. *)
Lemma save_persona_draws_gender_witness :
  exists g fs' r',
    (g = `"MALE" \/ g = `"FEMALE")
    /\ save_persona (prompts := sample_prompts) (Some []) `"new_comer"
         newcomer 1 = (true, fs')
    /\ readme_of fs' `"new_comer"
       = Some (readme_content (prompts := sample_prompts) `"New Comer"
                 `"You are new here."
                 (merge_metadata (prompts := sample_prompts) newcomer
                    no_keys g))
    /\ md_gender (merge_metadata (prompts := sample_prompts) newcomer
                    no_keys g) = g
    /\ parse_readme
         (universal_newlines
            (readme_content (prompts := sample_prompts) `"New Comer"
               `"You are new here."
               (merge_metadata (prompts := sample_prompts) newcomer no_keys
                  g)))
       = Ok r'
    /\ gender r' = Some g.
Proof.
  apply (save_persona_draws_gender (prompts := sample_prompts) []
           `"new_comer" newcomer `"New Comer" `"You are new here." 1);
    try reflexivity.
  now left.
Defined.

(** C9: the empty query is answered with a random record. *)
Lemma get_persona_empty_query :
  lookup (folder_name_of []) (personas sample_manager) = None
  /\ split_ws (lower []) = []
  /\ exists a m',
       get_persona (prompts := sample_prompts) sample_manager (Some []) 1
       = Ok (a, m')
       /\ name (deref (objects m') a) = Some `"Friendly Coach".
Proof.
  split; [reflexivity|]; split; [reflexivity|].
  eexists _, _; split; reflexivity.
Qed.

(** C9 on the sample manager. *)
Lemma get_persona_not_found_witness :
  lookup (folder_name_of `"nonsense words") (personas sample_manager) = None
  /\ get_persona (prompts := sample_prompts) sample_manager
       (Some `"nonsense words") 0
     = Raise (KeyError
                (`"Persona 'nonsense words' not found. "
                 ++ `"Valid options: tech_guru, friendly_coach"))
  /\ forall k, In k (keys (personas sample_manager)) ->
       exists x y,
         not_found_message `"nonsense words" (keys (personas sample_manager))
         = x ++ k ++ y.
Proof.
  split; [reflexivity|].
  apply (get_persona_not_found (prompts := sample_prompts) sample_manager
           `"nonsense words" 0); [discriminate|reflexivity|].
  intros k w [<-|[<-|[]]] [<-|[<-|[]]] [H|[H|[]]]; discriminate.
Defined.

(** C10 on the sample manager. *)
Lemma needs_image_upload_witness :
  needs_image_upload sample_manager `"nobody" `"uploadthing.com" = false
  /\ (needs_image_upload sample_manager `"tech_guru" `"uploadthing.com" = true
      <-> (`"https://utfs.io/f/guru.png" = []
           \/ ~ exists x y,
                  `"https://utfs.io/f/guru.png"
                  = x ++ `"uploadthing.com" ++ y)).
Proof.
  split.
  - apply (proj1 (needs_image_upload_spec sample_manager `"nobody"
                    `"uploadthing.com")); reflexivity.
  - apply (proj2 (needs_image_upload_spec sample_manager `"tech_guru"
                    `"uploadthing.com") 0); reflexivity.
Defined.

(** The further properties on the sample data. *)

(** X2 on a directory with a file that cannot be read. *)
Lemma load_additional_content_unreadable_witness :
  mem `"broken.md" skip_files = false
  /\ load_additional_content dir_with_notes
     = load_additional_content
         (mkDir (Some (Readable tech_guru_readme))
            [ (`"README.md", Readable tech_guru_readme);
              (`"habits.md", Readable (text [ `"Drinks tea."; [] ])) ])
  /\ load_additional_content dir_with_notes
     = `"# Content from habits.md" ++ [NL; NL] ++ `"Drinks tea.".
Proof.
  split; [reflexivity|]; split; [|reflexivity].
  apply (load_additional_content_unreadable
           (Some (Readable tech_guru_readme))
           [ (`"README.md", Readable tech_guru_readme);
             (`"habits.md", Readable (text [ `"Drinks tea."; [] ])) ]
           [ (`"later.md", Readable `"Never read.") ]
           `"broken.md").
  reflexivity.
Defined.

(** X3 on the same directory. *)
Lemma load_personas_additional_content_witness :
  load_personas (Some fs_with_notes)
  = Ok [ (`"tech_guru",
          set_additional_content
            (`"# Content from habits.md" ++ [NL; NL] ++ `"Drinks tea.")
            tech_guru) ]
  /\ exists entries d,
       Some fs_with_notes = Some entries /\ In (`"tech_guru", Dir d) entries
       /\ path (set_additional_content
                  (`"# Content from habits.md" ++ [NL; NL] ++ `"Drinks tea.")
                  tech_guru) = None
       /\ match additional_content
                (set_additional_content
                   (`"# Content from habits.md" ++ [NL; NL]
                    ++ `"Drinks tea.")
                   tech_guru)
          with
          | None => load_additional_content d = []
          | Some c =>
              c = load_additional_content d /\ c <> []
              /\ startswith `"# Content from " c = true
          end.
Proof.
  split; [reflexivity|].
  apply (load_personas_additional_content (Some fs_with_notes)
           [ (`"tech_guru",
              set_additional_content
                (`"# Content from habits.md" ++ [NL; NL] ++ `"Drinks tea.")
                tech_guru) ]
           `"tech_guru"); [reflexivity|now left].
Defined.


(** X16 on a record without name, saved under a new key. *)
Lemma save_persona_frame_witness :
  save_persona (prompts := sample_prompts) (Some fs_tech_guru) `"ghost"
    nameless 0
  = (false, Some (fs_tech_guru ++ [ (`"ghost", Dir (mkDir None [])) ]))
  /\ exists entries',
       Some (fs_tech_guru ++ [ (`"ghost", Dir (mkDir None [])) ])
       = Some entries'
       /\ (forall k, k <> `"ghost" ->
             lookup k entries' = lookup k fs_tech_guru)
       /\ (lookup `"ghost" fs_tech_guru = Some File ->
           false = false /\ entries' = fs_tech_guru)
       /\ (forall d, lookup `"ghost" fs_tech_guru = Some (Dir d) ->
             exists d', lookup `"ghost" entries' = Some (Dir d')
               /\ (forall f, f <> `"README.md" ->
                     lookup f (md_files d') = lookup f (md_files d))
               /\ (false = false -> d' = d))
       /\ (lookup `"ghost" fs_tech_guru = None ->
             exists d', lookup `"ghost" entries' = Some (Dir d')
               /\ (forall f, f <> `"README.md" ->
                     lookup f (md_files d') = None)
               /\ (false = false -> d' = mkDir None []))
       /\ (false = true ->
           exists doc,
             readme_of
               (Some (fs_tech_guru ++ [ (`"ghost", Dir (mkDir None [])) ]))
               `"ghost" = Some doc).
Proof.
  split; [reflexivity|].
  apply (save_persona_frame (prompts := sample_prompts) fs_tech_guru
           `"ghost" nameless 0 false); reflexivity.
Defined.

(** X17 on a record whose prompt starts with a heading. *)
Lemma save_persona_heading_prompt_witness :
  save_persona (prompts := sample_prompts) (Some fs_tech_guru) `"tech_guru"
    heading_record 0
  = (true,
     snd (save_persona (prompts := sample_prompts) (Some fs_tech_guru)
            `"tech_guru" heading_record 0))
  /\ (exists doc,
        readme_of
          (snd (save_persona (prompts := sample_prompts) (Some fs_tech_guru)
                  `"tech_guru" heading_record 0)) `"tech_guru" = Some doc
        /\ parse_readme doc = Raise IndexError
        /\ parse_readme (universal_newlines doc) = Raise IndexError)
  /\ (forall p' rnd',
        fst (save_persona (prompts := sample_prompts)
               (snd (save_persona (prompts := sample_prompts)
                       (Some fs_tech_guru) `"tech_guru" heading_record 0))
               `"tech_guru" p' rnd') = false)
  /\ (exists e,
        load_personas
          (snd (save_persona (prompts := sample_prompts) (Some fs_tech_guru)
                  `"tech_guru" heading_record 0)) = Raise e).
Proof.
  split; [reflexivity|].
  apply (save_persona_heading_prompt (prompts := sample_prompts)
           fs_tech_guru `"tech_guru" heading_record `"Tech Guru"
           (text [ `"Role"; `"You explain technology in plain words." ]) 0);
    reflexivity.
Defined.

(** X18 on a new record without gender: FEMALE is drawn, and kept. *)
Lemma save_persona_twice_witness :
  save_persona (prompts := sample_prompts) (Some []) `"new_comer" newcomer 1
  = (true,
     snd (save_persona (prompts := sample_prompts) (Some []) `"new_comer"
            newcomer 1))
  /\ contains `"- gender: FEMALE"
       (get (readme_of
               (snd (save_persona (prompts := sample_prompts) (Some [])
                       `"new_comer" newcomer 1)) `"new_comer") [])
     = true
  /\ save_persona (prompts := sample_prompts)
       (snd (save_persona (prompts := sample_prompts) (Some []) `"new_comer"
               newcomer 1))
       `"new_comer" newcomer 0
     = (true,
        snd (save_persona (prompts := sample_prompts) (Some []) `"new_comer"
               newcomer 1))
  /\ exists doc,
       readme_of
         (snd (save_persona (prompts := sample_prompts) (Some [])
                 `"new_comer" newcomer 1)) `"new_comer" = Some doc
       /\ universal_newlines doc = doc.
Proof.
  split; [reflexivity|]; split; [reflexivity|].
  apply (save_persona_twice (prompts := sample_prompts) [] `"new_comer"
           newcomer `"New Comer" `"You are new here." 1 0);
    try reflexivity.
  - split; reflexivity.
  - intros d old H; discriminate H.
Defined.


(** X20 on a directory with two personas and a stray file. *)
Lemma save_personas_after_init_witness :
  init `"config/personas" (Some fs_two_personas) = Ok sample_manager
  /\ save_personas (prompts := sample_prompts) sample_manager (fun _ => 0)
       (Some fs_two_personas)
     = (true,
        Some (map (fun e =>
                     (fst e, resaved (prompts := sample_prompts) (snd e)))
                fs_two_personas)).
Proof.
  split; [reflexivity|].
  apply (save_personas_after_init (prompts := sample_prompts)
           `"config/personas" fs_two_personas sample_manager (fun _ => 0)).
  - repeat constructor; cbn; intuition discriminate.
  - reflexivity.
Defined.


(** X5 on the sample manager, the personas directory missing. *)
Lemma update_persona_image_in_memory_witness :
  lookup `"friendly_coach" (personas sample_manager) = Some 1
  /\ exists saved m' fs',
       update_persona_image (prompts := sample_prompts) sample_manager None
         `"friendly_coach" `"https://uploadthing.com/f/coach.png" 0
       = (saved, m', fs')
       /\ personas m' = personas sample_manager
       /\ image (deref (objects m') 1)
          = Some `"https://uploadthing.com/f/coach.png"
       /\ lookup `"friendly_coach" (get_image_urls m')
          = Some `"https://uploadthing.com/f/coach.png"
       /\ (forall domain,
             needs_image_upload m' `"friendly_coach" domain
             = negb (truthy `"https://uploadthing.com/f/coach.png"
                     && contains domain
                          `"https://uploadthing.com/f/coach.png"))
       /\ (forall a', a' <> 1 ->
             deref (objects m') a' = deref (objects sample_manager) a')
       /\ (@None (dict node) = None -> saved = false /\ fs' = None).
Proof.
  split; [reflexivity|].
  apply (update_persona_image_in_memory (prompts := sample_prompts)
           sample_manager None `"friendly_coach"
           `"https://uploadthing.com/f/coach.png" 0 1);
    [reflexivity|cbn; lia].
Defined.

(** X22 on the directory with two personas. *)
Lemma update_persona_image_saved_witness :
  init `"config/personas" (Some fs_two_personas) = Ok sample_manager
  /\ exists m' fs' doc r,
       update_persona_image (prompts := sample_prompts) sample_manager
         (Some fs_two_personas) `"friendly_coach"
         `"https://uploadthing.com/f/coach.png" 0 = (true, m', fs')
       /\ readme_of fs' `"friendly_coach" = Some doc
       /\ universal_newlines doc = doc
       /\ parse_readme doc = Ok r
       /\ image r = Some `"https://uploadthing.com/f/coach.png"
       /\ name r = name (deref (objects m') 1)
       /\ prompt r = prompt (deref (objects m') 1)
       /\ image r = image (deref (objects m') 1)
       /\ entry_message r = entry_message (deref (objects m') 1)
       /\ cartesia_voice_id r = cartesia_voice_id (deref (objects m') 1)
       /\ gender r = gender (deref (objects m') 1)
       /\ relevant_links r = relevant_links (deref (objects m') 1).
Proof.
  split; [reflexivity|].
  apply (update_persona_image_saved (prompts := sample_prompts)
           `"config/personas" fs_two_personas sample_manager
           `"friendly_coach" `"https://uploadthing.com/f/coach.png" 0 1
           `"Friendly Coach" `"You cheer people up."); try reflexivity.
  - repeat constructor; cbn; intuition discriminate.
  - intros d content H R; injection H as <-; injection R as <-.
    reflexivity.
  - split; reflexivity.
Defined.


(** X6 on the sample manager. *)
Lemma get_persona_by_name_first_witness :
  personas sample_manager
  = [ (`"tech_guru", 0) ] ++ (`"friendly_coach", 1) :: []
  /\ get_persona_by_name sample_manager `"Friendly Coach"
     = Ok (2,
           mkManager `"config/personas"
             [ tech_guru; friendly_coach; friendly_coach ]
             (personas sample_manager)).
Proof.
  split; [reflexivity|].
  apply (get_persona_by_name_first sample_manager `"Friendly Coach"
           [ (`"tech_guru", 0) ] `"friendly_coach" 1 []).
  - reflexivity.
  - intros a' [<-|[]]; exists `"Tech Guru"; split; [reflexivity|discriminate].
  - reflexivity.
Defined.

(** X7 on the sample manager: a key is not a display name. *)
Lemma get_persona_by_name_not_found_witness :
  get_persona_by_name sample_manager `"tech_guru"
  = Raise (KeyError
             (`"Persona 'tech_guru' not found. "
              ++ `"Valid options: Tech Guru, Friendly Coach"))
  /\ forall n', In n' [ `"Tech Guru"; `"Friendly Coach" ] ->
       exists x y,
         not_found_message `"tech_guru" [ `"Tech Guru"; `"Friendly Coach" ]
         = x ++ n' ++ y.
Proof.
  apply (get_persona_by_name_not_found sample_manager `"tech_guru"
           [ `"Tech Guru"; `"Friendly Coach" ]).
  - repeat constructor.
  - intros [H|[H|[]]]; discriminate.
Defined.

(** X15 on the directory with two personas. *)
Lemma list_personas_init_witness :
  list_personas sample_manager = [ `"friendly_coach"; `"tech_guru" ]
  /\ StronglySorted (fun a b => ltb a b = true)
       (list_personas sample_manager)
  /\ forall k, In k (list_personas sample_manager)
       <-> exists d, In (k, Dir d) fs_two_personas /\ readme d <> None.
Proof.
  split; [reflexivity|].
  apply (list_personas_init `"config/personas" fs_two_personas
           sample_manager).
  - repeat constructor; cbn; intuition discriminate.
  - reflexivity.
Defined.

(** X8 on the sample manager and a closest match. *)
Lemma get_persona_frame_witness :
  get_persona (prompts := sample_prompts) sample_manager
    (Some `"tech expert") 0
  = Ok (2,
        mkManager `"config/personas"
          [ tech_guru; friendly_coach;
            delivered (prompts := sample_prompts) tech_guru
              `"You explain technology in plain words."
              `"config/personas/tech_expert" ]
          (personas sample_manager))
  /\ exists k a p pth,
       In (k, a) (personas sample_manager)
       /\ prompt (deref (objects sample_manager) a) = Some p
       /\ [ tech_guru; friendly_coach;
            delivered (prompts := sample_prompts) tech_guru
              `"You explain technology in plain words."
              `"config/personas/tech_expert" ]
          = objects sample_manager
            ++ [ delivered (prompts := sample_prompts)
                   (deref (objects sample_manager) a) p pth ].
Proof.
  split; [reflexivity|].
  apply (get_persona_frame (prompts := sample_prompts) sample_manager
           (Some `"tech expert") 0 2
           (mkManager `"config/personas"
              [ tech_guru; friendly_coach;
                delivered (prompts := sample_prompts) tech_guru
                  `"You explain technology in plain words."
                  `"config/personas/tech_expert" ]
              (personas sample_manager))).
  reflexivity.
Defined.

(** X9 on the sample manager and the draw 1. *)
Lemma get_persona_random_witness :
  nth_error (personas sample_manager) 1 = Some (`"friendly_coach", 1)
  /\ get_persona (prompts := sample_prompts) sample_manager None 1
     = Ok (2,
           mkManager `"config/personas"
             [ tech_guru; friendly_coach;
               delivered (prompts := sample_prompts) friendly_coach
                 `"You cheer people up."
                 (path_join `"config/personas"
                    (folder_name_of `"Friendly Coach")) ]
             (personas sample_manager))
  /\ get_persona (prompts := sample_prompts) sample_manager (Some []) 1
     = get_persona (prompts := sample_prompts) sample_manager None 1.
Proof.
  split; [reflexivity|].
  apply (get_persona_random (prompts := sample_prompts) sample_manager 1
           `"friendly_coach" 1 `"Friendly Coach" `"You cheer people up.");
    reflexivity.
Defined.

(** X10 on the manager without personas. *)
Lemma get_persona_empty_catalog_witness :
  get_persona (prompts := sample_prompts) empty_manager None 0
  = Raise IndexError
  /\ get_persona (prompts := sample_prompts) empty_manager (Some []) 0
     = Raise IndexError
  /\ forall s : str, s <> [] ->
       get_persona (prompts := sample_prompts) empty_manager (Some s) 0
       = Raise (KeyError (`"Persona '" ++ s
                          ++ `"' not found. Valid options: ")).
Proof.
  apply (get_persona_empty_catalog (prompts := sample_prompts)
           empty_manager 0).
  reflexivity.
Defined.

(** X11 on a manager with the key Tech_Guru. *)
Lemma get_persona_capital_key_witness :
  get_persona (prompts := sample_prompts) capital_manager
    (Some `"Tech Guru") 0
  = Raise (KeyError
             (`"Persona 'Tech Guru' not found. "
              ++ `"Valid options: Tech_Guru, friendly_coach"))
  /\ get_persona (prompts := sample_prompts) capital_manager
       (Some `"friendly tech guru") 0
     = Ok (2,
           mkManager `"config/personas"
             [ tech_guru; friendly_coach;
               delivered (prompts := sample_prompts) friendly_coach
                 `"You cheer people up."
                 `"config/personas/friendly_tech_guru" ]
             (personas capital_manager))
  /\ exists k' a p pth,
       k' <> `"Tech_Guru" /\ lookup k' (personas capital_manager) = Some a
       /\ prompt (deref (objects capital_manager) a) = Some p
       /\ [ tech_guru; friendly_coach;
            delivered (prompts := sample_prompts) friendly_coach
              `"You cheer people up."
              `"config/personas/friendly_tech_guru" ]
          = objects capital_manager
            ++ [ delivered (prompts := sample_prompts)
                   (deref (objects capital_manager) a) p pth ].
Proof.
  split; [reflexivity|]; split; [reflexivity|].
  apply (get_persona_capital_key (prompts := sample_prompts) capital_manager
           `"friendly tech guru" 0 `"Tech_Guru" 2
           (mkManager `"config/personas"
              [ tech_guru; friendly_coach;
                delivered (prompts := sample_prompts) friendly_coach
                  `"You cheer people up."
                  `"config/personas/friendly_tech_guru" ]
              (personas capital_manager))).
  - intros w [<-|[<-|[]]].
    + exists "T"%char; split; [now left|discriminate].
    + exists "G"%char; split; [now left|discriminate].
  - discriminate.
  - reflexivity.
Defined.

(** X13 on the sample manager. *)
Lemma get_persona_absolute_query_witness :
  get_persona (prompts := sample_prompts) sample_manager
    (Some `"/tmp tech") 0
  = Ok (2,
        mkManager `"config/personas"
          [ tech_guru; friendly_coach;
            delivered (prompts := sample_prompts) tech_guru
              `"You explain technology in plain words." `"/tmp_tech" ]
          (personas sample_manager))
  /\ path (deref
             [ tech_guru; friendly_coach;
               delivered (prompts := sample_prompts) tech_guru
                 `"You explain technology in plain words." `"/tmp_tech" ]
             2)
     = Some (folder_name_of `"/tmp tech")
  /\ startswith `"/" (folder_name_of `"/tmp tech") = true.
Proof.
  split; [reflexivity|].
  apply (get_persona_absolute_query (prompts := sample_prompts)
           sample_manager `"/tmp tech" 0 2
           (mkManager `"config/personas"
              [ tech_guru; friendly_coach;
                delivered (prompts := sample_prompts) tech_guru
                  `"You explain technology in plain words." `"/tmp_tech" ]
              (personas sample_manager))); reflexivity.
Defined.

(** X23 on the directory with two personas. *)
Lemma validate_personas_load_witness :
  load_personas (Some fs_two_personas)
  = Ok [ (`"tech_guru", tech_guru); (`"friendly_coach", friendly_coach) ]
  /\ validate_personas true (Some fs_two_personas)
     = Ok (0 <? length [ (`"tech_guru", tech_guru);
                         (`"friendly_coach", friendly_coach) ],
           length [ (`"tech_guru", tech_guru);
                    (`"friendly_coach", friendly_coach) ],
           keys [ (`"tech_guru", tech_guru);
                  (`"friendly_coach", friendly_coach) ]).
Proof.
  split; [reflexivity|].
  apply (validate_personas_load fs_two_personas
           [ (`"tech_guru", tech_guru); (`"friendly_coach", friendly_coach) ]).
  - repeat constructor; cbn; intuition discriminate.
  - reflexivity.
Defined.

(** X24 on the directory with the README without blank line. *)
Lemma validate_personas_malformed_witness :
  In (`"silent_bob", sample_dir title_only_readme) fs_with_title_only
  /\ contains [NL; NL] (preamble title_only_readme) = false
  /\ (exists n names,
        validate_personas true (Some fs_with_title_only)
        = Ok (true, S n, names)
        /\ In `"silent_bob" names)
  /\ exists e, load_personas (Some fs_with_title_only) = Raise e.
Proof.
  split; [now left|]; split; [reflexivity|].
  apply (validate_personas_malformed fs_with_title_only `"silent_bob"
           (mkDir (Some (Readable title_only_readme))
              [ (`"README.md", Readable title_only_readme) ])
           title_only_readme); [now left|reflexivity|reflexivity].
Defined.

(** X19 on a record whose prompt holds a heading. *)
Lemma save_persona_read_back_witness :
  save_persona (prompts := sample_prompts) (Some []) `"tech_guru"
    styled_record 0
  = (true,
     snd (save_persona (prompts := sample_prompts) (Some []) `"tech_guru"
            styled_record 0))
  /\ exists doc r,
       readme_of
         (snd (save_persona (prompts := sample_prompts) (Some [])
                 `"tech_guru" styled_record 0)) `"tech_guru" = Some doc
       /\ parse_readme (universal_newlines doc) = Ok r
       /\ name r = Some (strip (replace `"# " [] `"Tech Guru"))
       /\ (contains section_sep
             (prompt_as_read
                (text [ `"You explain technology."; []; `"## Style";
                        `"Be brief." ])) = false ->
           prompt r
           = Some (strip
                     (prompt_as_read
                        (text [ `"You explain technology."; [];
                                `"## Style"; `"Be brief." ]))))
       /\ (forall a b,
             prompt_as_read
               (text [ `"You explain technology."; []; `"## Style";
                       `"Be brief." ]) = a ++ section_sep ++ b ->
             contains section_sep a = false -> prompt r = Some (strip a))
       /\ (forall i, image styled_record = Some i ->
             image r = Some (strip i))
       /\ (forall e, entry_message styled_record = Some e ->
             entry_message r = Some (strip e))
       /\ (forall v, cartesia_voice_id styled_record = Some v ->
             cartesia_voice_id r = Some (strip v))
       /\ (forall g, gender styled_record = Some g ->
             gender r = Some (strip g))
       /\ (forall l, relevant_links styled_record = Some l ->
             relevant_links r
             = Some (filter truthy (split_ws (strip (join `" " l))))).
Proof.
  split; [reflexivity|].
  apply (save_persona_read_back (prompts := sample_prompts) [] `"tech_guru"
           styled_record `"Tech Guru"
           (text [ `"You explain technology."; []; `"## Style";
                   `"Be brief." ]) 0);
    try reflexivity.
  intros d old H; discriminate H.
Defined.

(** What is read back from the README of that record. *)
Example save_persona_read_back_styled :
  parse_readme
    (universal_newlines
       (get (readme_of
               (snd (save_persona (prompts := sample_prompts) (Some [])
                       `"tech_guru" styled_record 0)) `"tech_guru") []))
  = Ok (mkPersona (Some `"Tech Guru") (Some `"You explain technology.")
          (Some `"https://utfs.io/f/guru.png") (Some `"Hello, glad to join.")
          (Some []) (Some `"MALE")
          (Some [ `"https://a.example"; `"https://b.example";
                  `"https://c.example" ])
          None None).
Proof. reflexivity. Qed.

(** X14 on the sample manager: order, case and repetition. *)
Lemma get_persona_word_set_witness :
  get_persona (prompts := sample_prompts) sample_manager
    (Some `"guru tech") 0
  = Ok (2,
        mkManager `"config/personas"
          [ tech_guru; friendly_coach;
            delivered (prompts := sample_prompts) tech_guru
              `"You explain technology in plain words."
              `"config/personas/guru_tech" ]
          (personas sample_manager))
  /\ exists m2,
       get_persona (prompts := sample_prompts) sample_manager
         (Some `"TECH  Guru tech") 1 = Ok (2, m2)
       /\ deref (objects m2) 2
          = set_path
              (path_join (personas_dir sample_manager)
                 (folder_name_of `"TECH  Guru tech"))
              (deref
                 [ tech_guru; friendly_coach;
                   delivered (prompts := sample_prompts) tech_guru
                     `"You explain technology in plain words."
                     `"config/personas/guru_tech" ]
                 2).
Proof.
  split; [reflexivity|].
  apply (get_persona_word_set (prompts := sample_prompts) sample_manager
           `"guru tech" `"TECH  Guru tech" 0 1 2
           (mkManager `"config/personas"
              [ tech_guru; friendly_coach;
                delivered (prompts := sample_prompts) tech_guru
                  `"You explain technology in plain words."
                  `"config/personas/guru_tech" ]
              (personas sample_manager))).
  - intros w; vm_compute; tauto.
  - discriminate.
  - discriminate.
  - reflexivity.
  - reflexivity.
  - reflexivity.
Defined.

(** The startup checks on small inputs. *)
Example validate_env_vars_placeholder :
  validate_env_vars sample_environ
  = [ `"Missing OPENAI_API_KEY: OpenAI API - required for LLM interactions" ].
Proof. reflexivity. Qed.

Example validate_personas_missing_directory :
  validate_personas false None = Ok (false, 0, []).
Proof. reflexivity. Qed.

Example list_personas_capital :
  list_personas capital_manager = [ `"Tech_Guru"; `"friendly_coach" ].
Proof. reflexivity. Qed.

(** The metadata is kept as well under a prompt with carriage returns,
    read back with line breaks, and under a name written as a heading. *)
Example save_persona_keeps_metadata_dos :
  parse_readme
    (universal_newlines
       (get (readme_of
               (snd (save_persona (prompts := sample_prompts)
                       (Some fs_tech_guru) `"tech_guru" dos_record 0))
               `"tech_guru") []))
  = Ok (mkPersona (Some `"Tech Guru")
          (Some (text [ `"You explain technology."; `"In plain words.";
                        `"Briefly." ]))
          (Some `"https://utfs.io/f/new.png") (Some `"Hi, ask me anything.")
          (Some `"voice-17") (Some `"MALE")
          (Some [ `"https://a.example"; `"https://b.example" ])
          None None)
  /\ parse_readme
       (universal_newlines
          (get (readme_of
                  (snd (save_persona (prompts := sample_prompts)
                          (Some fs_tech_guru) `"tech_guru" heading_name 0))
                  `"tech_guru") []))
     = Ok (mkPersona (Some `"#Tech Guru")
             (Some `"You explain technology in plain words.")
             (Some `"https://utfs.io/f/new.png")
             (Some `"Hi, ask me anything.")
             (Some `"voice-17") (Some `"MALE")
             (Some [ `"https://a.example"; `"https://b.example" ])
             None None).
Proof. split; reflexivity. Qed.

(** Universal newlines on a text with the three line ends, and the names
    that are entries of a directory. *)
Example universal_newlines_line_ends :
  universal_newlines
    (`"a" ++ [CR; NL] ++ `"b" ++ [CR] ++ `"c" ++ [NL] ++ `"d" ++ [CR; CR; NL])
  = text [ `"a"; `"b"; `"c"; `"d"; []; [] ]
  /\ prompt_as_read (`"a" ++ [CR]) = `"a"
  /\ entry_name `"tech_guru" = true
  /\ entry_name [] = false
  /\ entry_name `".." = false
  /\ entry_name `"a/b" = false
  /\ entry_name `"tech_guru/" = false.
Proof. repeat split. Qed.

End Samples.
